(** * The log-reconstruction engine of the session viewer (lib/codex.ts)

    A shallow embedding of the functions that turn a recorded session log
    (one JSON object per line) into the derived views: the decoded event
    sequence, the session summary, the tool-call ledger, the token
    timeline and the message transcript.

    Conventions of the embedding.
    - A JavaScript string is a [string]: a sequence of code units, here
      restricted to the code units below 256.
    - A parsed JSON value is a [json]; numbers are integers ([Z]), which is
      what token counts and context windows are.
    - A JavaScript [number] that can be [NaN] is an [option Z], [None]
      standing for [NaN].
    - An envelope is the object that [JSON.parse] returned, and a payload
      is read field by field as the source does. The fields that the
      interfaces of the source declare ([CodexEvent], [ResponsePayload],
      [SessionMetaPayload], [TokenPayload], [TokenInfo], [TokenUsage]) are
      read at the type declared for them, with [str], [num] and
      [toRecord]: a field that is absent or [null] reads as [None], so
      that [payload.name ?? d] is [default d (str (field "name" payload))].
      The tests that the source makes itself ([typeof v === "string"],
      [v === "lit"], the truthiness of [payload.info]) are made on the
      parsed value. Fields declared [unknown] ([content], [output],
      [summary]) stay [json].
    - Objects that the source mutates in place (the records of the [Map]
      of [buildToolCalls]) are replaced in the map under the same key,
      which keeps its place.
    - What belongs to the JavaScript runtime and not to the repository
      ([JSON.parse], the parsing of dates, [path.relative]) is a variable of
      the section; reference instances are given after the section and are
      used to run the functions on concrete logs. *)

From Stdlib Require Import ZArith String Ascii List Bool Lia Permutation Sorted DecimalString
  DecimalNat.
From stdpp Require Import base gmap strings list.
Import ListNotations.
Local Open Scope string_scope.

(** ** Strings *)

Module Str.

(** White space and line terminators of ECMAScript among the code units
    below 256: TAB, LF, VT, FF, CR, SPACE and NBSP. It is what
    [String.prototype.trim] strips and what the class [\s] matches. *)
Definition is_space (c : ascii) : bool :=
  let n := nat_of_ascii c in
  ((9 <=? n) && (n <=? 13) || (n =? 32) || (n =? 160))%nat.

Definition is_newline (c : ascii) : bool := (nat_of_ascii c =? 10)%nat.

Definition is_digit (c : ascii) : bool :=
  let n := nat_of_ascii c in ((48 <=? n) && (n <=? 57))%nat.

Definition is_lower (c : ascii) : bool :=
  let n := nat_of_ascii c in ((97 <=? n) && (n <=? 122))%nat.

(** The class [.] of a regular expression without the [s] flag: any
    code unit but LF and CR. *)
Definition is_dot (c : ascii) : bool :=
  let n := nat_of_ascii c in negb ((n =? 10) || (n =? 13))%nat.

Fixpoint trimStart (s : string) : string :=
  match s with
  | "" => ""
  | String c r => if is_space c then trimStart r else s
  end.

Fixpoint trimEnd (s : string) : string :=
  match s with
  | "" => ""
  | String c r =>
      match trimEnd r with
      | "" => if is_space c then "" else String c ""
      | r' => String c r'
      end
  end.

(** [s.trim()] *)
Definition trim (s : string) : string := trimEnd (trimStart s).

(** [s.startsWith(p)] *)
Fixpoint startsWith (p s : string) : bool :=
  match p, s with
  | "", _ => true
  | String a p', String b s' => if Ascii.eqb a b then startsWith p' s' else false
  | String _ _, "" => false
  end.

(** [s.endsWith(p)] through the reversed strings. *)
Fixpoint rev (s : string) : string :=
  match s with
  | "" => ""
  | String c r => rev r ++ String c ""
  end.

Definition endsWith (p s : string) : bool := startsWith (rev p) (rev s).

(** [s.split("\n")]: never empty, the empty string gives one empty line. *)
Fixpoint split_lines (s : string) : list string :=
  match s with
  | "" => [""]
  | String c r =>
      if is_newline c then "" :: split_lines r
      else match split_lines r with
           | h :: t => String c h :: t
           | [] => [String c ""]
           end
  end.

(** [parts.join(sep)] *)
Fixpoint join (sep : string) (parts : list string) : string :=
  match parts with
  | [] => ""
  | [p] => p
  | p :: rest => p ++ sep ++ join sep rest
  end.

Fixpoint has_newline (s : string) : bool :=
  match s with
  | "" => false
  | String c r => is_newline c || has_newline r
  end.

(** [s.replace(/\s+/g, " ")]: [in_run] tells that the previous code unit
    was white space and has already produced its single space. *)
Fixpoint collapse_from (in_run : bool) (s : string) : string :=
  match s with
  | "" => ""
  | String c r =>
      if is_space c
      then if in_run then collapse_from true r else String " " (collapse_from true r)
      else String c (collapse_from false r)
  end.

Definition collapse_spaces (s : string) : string := collapse_from false s.

(** [s.toLowerCase()] on code units below 256: the letters A-Z and the
    Latin-1 capitals (192-222 but 215) move up by 32. *)
Definition lower_char (c : ascii) : ascii :=
  let n := nat_of_ascii c in
  if ((65 <=? n) && (n <=? 90) || (192 <=? n) && (n <=? 222) && negb (n =? 215))%nat
  then ascii_of_nat (n + 32) else c.

Fixpoint toLowerCase (s : string) : string :=
  match s with
  | "" => ""
  | String c r => String (lower_char c) (toLowerCase r)
  end.

(** [s.replace(/[^a-z0-9]+/g, "-")] *)
Fixpoint dash_runs (in_run : bool) (s : string) : string :=
  match s with
  | "" => ""
  | String c r =>
      if is_lower c || is_digit c
      then String c (dash_runs false r)
      else if in_run then dash_runs true r else String "-" (dash_runs true r)
  end.

(** [s.replace(/(^-|-$)/g, "")]: one dash off the front, then one dash
    off the end of what is left. *)
Definition strip_front_dash (s : string) : string :=
  match s with
  | String "-" r => r
  | _ => s
  end.

Fixpoint strip_back_dash (s : string) : string :=
  match s with
  | "" => ""
  | String c r =>
      match r with
      | "" => if Ascii.eqb c "-" then "" else s
      | _ => String c (strip_back_dash r)
      end
  end.

(** [a > b] and [a <= b] on strings: the order of the code units. *)
Definition gtb (a b : string) : bool :=
  match String.compare a b with Gt => true | _ => false end.

Definition le (a b : string) : Prop := String.compare a b <> Gt.

(** A string is truthy when it is not empty. *)
Definition truthy (s : string) : bool := negb (String.eqb s "").

(** The decimal digits of a length, as a template string prints them. *)
Definition of_nat (n : nat) : string := NilZero.string_of_uint (Nat.to_uint n).

End Str.

(** ** Parsed JSON *)

#[local] Unset Elimination Schemes.
Inductive json : Type :=
| JNull
| JBool (b : bool)
| JNum (n : Z)
| JStr (s : string)
| JArr (items : list json)
| JObj (fields : list (string * json)).
#[local] Set Elimination Schemes.

(** [type JsonRecord = Record<string, unknown>]: the fields of a parsed
    object, each key once, in the order of the text. *)
Definition JsonRecord : Type := list (string * json).

(** [o.k]: [None] is [undefined]. *)
Fixpoint field (k : string) (o : JsonRecord) : option json :=
  match o with
  | [] => None
  | (k', v) :: rest => if String.eqb k k' then Some v else field k rest
  end.

(** [typeof v === "string" ? v : undefined] *)
Definition str (v : option json) : option string :=
  match v with
  | Some (JStr s) => Some s
  | _ => None
  end.

(** A field declared [number]. *)
Definition num (v : option json) : option Z :=
  match v with
  | Some (JNum n) => Some n
  | _ => None
  end.

(** [toRecord]: a value that is an object and not an array. *)
Definition toRecord (v : option json) : option JsonRecord :=
  match v with
  | Some (JObj f) => Some f
  | _ => None
  end.

(** A parsed value is truthy unless it is [null], [false], [0] or the
    empty string. *)
Definition truthy_json (v : json) : bool :=
  match v with
  | JNull => false
  | JBool b => b
  | JNum n => negb (n =? 0)%Z
  | JStr s => negb (String.eqb s "")
  | JArr _ | JObj _ => true
  end.

(** [v.k] on a parsed value, for a key that only an object can have
    (neither an index nor [length]): [undefined] on anything else. *)
Definition prop (k : string) (v : json) : option json :=
  match v with
  | JObj f => field k f
  | _ => None
  end.

(** [v === "lit"] *)
Definition is_str (v : option json) (lit : string) : bool :=
  match str v with
  | Some s => String.eqb s lit
  | None => false
  end.

(** [interface CodexEvent]: one decoded line. *)
Definition CodexEvent : Type := JsonRecord.

(** [typeof event.timestamp === "string" ? event.timestamp : undefined] *)
Definition event_timestamp (event : CodexEvent) : option string :=
  str (field "timestamp" event).

(** [toRecord(event.payload)] of an event whose [type] is [kind]. *)
Definition payload_of (kind : string) (event : CodexEvent) : option JsonRecord :=
  if is_str (field "type" event) kind then toRecord (field "payload" event) else None.

(** [new Date(0).toISOString()] *)
Definition epochISO : string := "1970-01-01T00:00:00.000Z".

(** ** Arrays and maps of the runtime *)

(** [Array.prototype.sort(cmp)]: a stable sort. It is rendered as an
    insertion sort that carries each element to the left for as long as
    the comparator answers a negative number; [racc] is the part sorted so
    far, last element first. With a comparator that is a total preorder
    the result is the stable sorted arrangement, whatever the engine.
    With a comparator that is not (one that answers 0 for some pairs of a
    chain and not for others), the standard leaves the order to the
    engine. *)
Fixpoint sort_insert {A : Type} (cmp : A -> A -> Z) (x : A) (racc : list A) : list A :=
  match racc with
  | [] => [x]
  | e :: r => if (cmp x e <? 0)%Z then e :: sort_insert cmp x r else x :: racc
  end.

Definition Array_sort {A : Type} (cmp : A -> A -> Z) (l : list A) : list A :=
  List.rev (fold_left (fun racc x => sort_insert cmp x racc) l []).

(** [Map<string, V>]: the entries in the order of their first insertion. *)
Module OMap.

Definition t (V : Type) : Type := list (string * V).

Fixpoint get {V : Type} (k : string) (m : t V) : option V :=
  match m with
  | [] => None
  | (k', v) :: rest => if String.eqb k k' then Some v else get k rest
  end.

(** [m.set(k, v)]: a known key keeps its place, a new key goes last. *)
Fixpoint set {V : Type} (k : string) (v : V) (m : t V) : t V :=
  match m with
  | [] => [(k, v)]
  | (k', v') :: rest =>
      if String.eqb k k' then (k, v) :: rest else (k', v') :: set k v rest
  end.

Definition keys {V : Type} (m : t V) : list string := map fst m.

(** [Array.from(m.values())] *)
Definition values {V : Type} (m : t V) : list V := map snd m.

End OMap.

(** ** Derived views *)

Inductive ToolKind : Type := KindFunction | KindCustom.

(** [interface ToolCall]. [tc_durationMs] is [None] while the duration
    has not been computed and [Some None] when it was computed as NaN. *)
Record ToolCall : Type := {
  tc_id : string;
  tc_name : string;
  tc_toolKind : ToolKind;
  tc_status : string;
  tc_input : option string;
  tc_output : option string;
  tc_metadata : option JsonRecord;
  tc_startedAt : option string;
  tc_completedAt : option string;
  tc_durationMs : option (option Z)
}.

Definition set_name (c : ToolCall) (v : string) : ToolCall :=
  {| tc_id := tc_id c; tc_name := v; tc_toolKind := tc_toolKind c; tc_status := tc_status c;
     tc_input := tc_input c; tc_output := tc_output c; tc_metadata := tc_metadata c;
     tc_startedAt := tc_startedAt c; tc_completedAt := tc_completedAt c;
     tc_durationMs := tc_durationMs c |}.

Definition set_status (c : ToolCall) (v : string) : ToolCall :=
  {| tc_id := tc_id c; tc_name := tc_name c; tc_toolKind := tc_toolKind c; tc_status := v;
     tc_input := tc_input c; tc_output := tc_output c; tc_metadata := tc_metadata c;
     tc_startedAt := tc_startedAt c; tc_completedAt := tc_completedAt c;
     tc_durationMs := tc_durationMs c |}.

Definition set_input (c : ToolCall) (v : option string) : ToolCall :=
  {| tc_id := tc_id c; tc_name := tc_name c; tc_toolKind := tc_toolKind c; tc_status := tc_status c;
     tc_input := v; tc_output := tc_output c; tc_metadata := tc_metadata c;
     tc_startedAt := tc_startedAt c; tc_completedAt := tc_completedAt c;
     tc_durationMs := tc_durationMs c |}.

Definition set_output (c : ToolCall) (v : option string) : ToolCall :=
  {| tc_id := tc_id c; tc_name := tc_name c; tc_toolKind := tc_toolKind c; tc_status := tc_status c;
     tc_input := tc_input c; tc_output := v; tc_metadata := tc_metadata c;
     tc_startedAt := tc_startedAt c; tc_completedAt := tc_completedAt c;
     tc_durationMs := tc_durationMs c |}.

Definition set_metadata (c : ToolCall) (v : option JsonRecord) : ToolCall :=
  {| tc_id := tc_id c; tc_name := tc_name c; tc_toolKind := tc_toolKind c; tc_status := tc_status c;
     tc_input := tc_input c; tc_output := tc_output c; tc_metadata := v;
     tc_startedAt := tc_startedAt c; tc_completedAt := tc_completedAt c;
     tc_durationMs := tc_durationMs c |}.

Definition set_startedAt (c : ToolCall) (v : option string) : ToolCall :=
  {| tc_id := tc_id c; tc_name := tc_name c; tc_toolKind := tc_toolKind c; tc_status := tc_status c;
     tc_input := tc_input c; tc_output := tc_output c; tc_metadata := tc_metadata c;
     tc_startedAt := v; tc_completedAt := tc_completedAt c;
     tc_durationMs := tc_durationMs c |}.

Definition set_completedAt (c : ToolCall) (v : option string) : ToolCall :=
  {| tc_id := tc_id c; tc_name := tc_name c; tc_toolKind := tc_toolKind c; tc_status := tc_status c;
     tc_input := tc_input c; tc_output := tc_output c; tc_metadata := tc_metadata c;
     tc_startedAt := tc_startedAt c; tc_completedAt := v;
     tc_durationMs := tc_durationMs c |}.

Definition set_durationMs (c : ToolCall) (v : option (option Z)) : ToolCall :=
  {| tc_id := tc_id c; tc_name := tc_name c; tc_toolKind := tc_toolKind c; tc_status := tc_status c;
     tc_input := tc_input c; tc_output := tc_output c; tc_metadata := tc_metadata c;
     tc_startedAt := tc_startedAt c; tc_completedAt := tc_completedAt c;
     tc_durationMs := v |}.

(** What [buildToolCalls] returns. *)
Record ToolCalls : Type := {
  toolCalls : list ToolCall;
  toolCallCount : nat
}.

(** [interface TokenTimelinePoint]. A count is [None] when the snapshot
    does not carry the number. *)
Record TokenTimelinePoint : Type := {
  tp_timestamp : string;
  tp_timestampMs : option Z;
  tp_totalTokens : option Z;
  tp_inputTokens : option Z;
  tp_cachedTokens : option Z;
  tp_userTokens : option Z;
  tp_outputTokens : option Z;
  tp_reasoningTokens : option Z;
  tp_contextWindow : option Z
}.

(** [interface ChatMessage], with [role] and [kind] as the strings they are. *)
Record ChatMessage : Type := {
  cm_id : string;
  cm_timestamp : string;
  cm_role : string;
  cm_kind : string;
  cm_text : string
}.

(** [interface SessionSummary]. [ss_userTokens] is the one total that is
    computed by a subtraction and can be NaN. *)
Record SessionSummary : Type := {
  ss_id : string;
  ss_projectId : string;
  ss_projectName : string;
  ss_projectPath : string;
  ss_relativePath : string;
  ss_startedAt : string;
  ss_lastActivityAt : string;
  ss_preview : string;
  ss_totalTokens : Z;
  ss_cachedTokens : Z;
  ss_userTokens : option Z;
  ss_outputTokens : Z;
  ss_reasoningTokens : Z;
  ss_contextWindow : option Z;
  ss_toolCallCount : nat
}.

(** [interface SessionDetail] *)
Record SessionDetail : Type := {
  sd_summary : SessionSummary;
  sd_messages : list ChatMessage;
  sd_tokenTimeline : list TokenTimelinePoint;
  sd_toolCalls : list ToolCall
}.

Definition emptySummary : SessionSummary :=
  {| ss_id := ""; ss_projectId := ""; ss_projectName := ""; ss_projectPath := "";
     ss_relativePath := ""; ss_startedAt := epochISO; ss_lastActivityAt := epochISO;
     ss_preview := ""; ss_totalTokens := 0; ss_cachedTokens := 0; ss_userTokens := Some 0%Z;
     ss_outputTokens := 0; ss_reasoningTokens := 0; ss_contextWindow := None;
     ss_toolCallCount := 0 |}.

(** ** Helpers of the module *)

(** [lineFilter]: a line of the diagnostic kind is emptied. *)
Definition lineFilter (line : string) : string :=
  if Str.truthy line && negb (Str.startsWith "Total output lines" line) then line else "".

(** [slugify] *)
Definition slugify (value : string) : string :=
  Str.strip_back_dash (Str.strip_front_dash (Str.dash_runs false (Str.toLowerCase value))).

(** The callback of [extractText]: the [text] of a chunk that is an object
    with a string under ["text"], the empty string for any other chunk. *)
Definition chunk_text (chunk : json) : string :=
  match chunk with
  | JObj f => default "" (str (field "text" f))
  | _ => ""
  end.

(** [extractText] *)
Definition extractText (content : option json) : string :=
  match content with
  | Some (JArr chunks) =>
      Str.trim (Str.join (String "010" "") (List.filter Str.truthy (map chunk_text chunks)))
  | _ => ""
  end.

(** [composePreview] *)
Definition composePreview (text : string) : string :=
  if negb (Str.truthy text) then "(no prompt logged)"
  else
    let cleaned := Str.trim (Str.collapse_spaces text) in
    if (180 <? String.length cleaned)%nat
    then substring 0 177 cleaned ++ "..."
    else cleaned.

(** [path.basename(p)] and [path.basename(p, ext)] of Node on POSIX
    paths that name something (a path that is not made of slashes only):
    the part after the last slash, slashes at the end left out; an
    extension that ends the name, and is not the whole of it, is cut. *)
Module Path.

Fixpoint drop_end_slashes (s : string) : string :=
  match s with
  | "" => ""
  | String c r =>
      match drop_end_slashes r with
      | "" => if Ascii.eqb c "/" then "" else String c ""
      | r' => String c r'
      end
  end.

Fixpoint last_segment (s : string) : string :=
  match s with
  | "" => ""
  | String c r =>
      if existsb (Ascii.eqb "/") (list_ascii_of_string r) then last_segment r
      else if Ascii.eqb c "/" then r else s
  end.

Definition basename (p : string) : string := last_segment (drop_end_slashes p).

Definition basename_ext (p ext : string) : string :=
  if String.eqb p ext then ""
  else
    let base := basename p in
    if Str.endsWith ext base && negb (String.eqb base ext)
    then substring 0 (String.length base - String.length ext) base
    else base.

End Path.

(** The shape [rollout-\d{4}-\d{2}-\d{2}T\d{2}-\d{2}-\d{2}-] of the
    expression of [extractSessionId], one test for each code unit. *)
Definition rollout_shape : list (ascii -> bool) :=
  let lit (c : ascii) := Ascii.eqb c in
  let d := Str.is_digit in
  map lit (list_ascii_of_string "rollout-")
  ++ [d; d; d; d; lit "-"%char; d; d; lit "-"%char; d; d; lit "T"%char; d; d;
      lit "-"%char; d; d; lit "-"%char; d; d; lit "-"%char].

(** The shape matched at the front of [s]: what follows it. *)
Fixpoint match_shape (shape : list (ascii -> bool)) (s : string) : option string :=
  match shape, s with
  | [], _ => Some s
  | p :: shape', String c r => if p c then match_shape shape' r else None
  | _ :: _, "" => None
  end.

(** The group [(.+)]: the longest run of code units that are no line
    terminators. *)
Fixpoint dot_run (s : string) : string :=
  match s with
  | "" => ""
  | String c r => if Str.is_dot c then String c (dot_run r) else ""
  end.

(** [base.match(...)?.[1]]: the leftmost place where the shape is followed
    by at least one code unit of the group. *)
Fixpoint match_rollout (base : string) : option string :=
  let here :=
    match match_shape rollout_shape base with
    | Some rest => if Str.truthy (dot_run rest) then Some (dot_run rest) else None
    | None => None
    end in
  match here, base with
  | Some g, _ => Some g
  | None, String _ r => match_rollout r
  | None, "" => None
  end.

(** [extractSessionId] *)
Definition extractSessionId (filePath : string) : option string :=
  match_rollout (Path.basename_ext filePath ".jsonl").

(** ** The builders *)

(** The accumulators of the loop of [parseSessionSummary]. *)
Record SummaryState : Type := {
  st_meta : option JsonRecord;
  st_preview : string;
  st_startedAt : string;
  st_lastActivityAt : string;
  st_tokens : option json;
  st_contextWindow : option Z;
  st_toolCalls : gset string
}.

Definition initialSummaryState : SummaryState :=
  {| st_meta := None; st_preview := ""; st_startedAt := ""; st_lastActivityAt := "";
     st_tokens := None; st_contextWindow := None; st_toolCalls := ∅ |}.

(** The kinds of envelope the reconciler knows. *)
Definition is_call_start_type (t : option json) : bool :=
  is_str t "function_call" || is_str t "custom_tool_call".

Definition is_call_result_type (t : option json) : bool :=
  is_str t "function_call_output" || is_str t "custom_tool_call_output".

(** A call-start envelope for the correlation id [cid]. *)
Definition is_call_start (cid : string) (event : CodexEvent) : bool :=
  match payload_of "response_item" event with
  | Some payload =>
      is_call_start_type (field "type" payload) && is_str (field "call_id" payload) cid
  | None => false
  end.

(** A call-result envelope for the correlation id [cid]. *)
Definition is_call_result (cid : string) (event : CodexEvent) : bool :=
  match payload_of "response_item" event with
  | Some payload =>
      is_call_result_type (field "type" payload) && is_str (field "call_id" payload) cid
  | None => false
  end.

(** A usage-report envelope that carries a cumulative usage: what
    [buildTokenTimeline] selects with
    [payload?.type === "token_count" && payload.info && payload.info.total_token_usage].
    The result is the [info] and its [total_token_usage]. *)
Definition usage_report (event : CodexEvent) : option (JsonRecord * json) :=
  match payload_of "event_msg" event with
  | Some payload =>
      if is_str (field "type" payload) "token_count" then
        match toRecord (field "info" payload) with
        | Some info =>
            match field "total_token_usage" info with
            | Some total => if truthy_json total then Some (info, total) else None
            | None => None
            end
        | None => None
        end
      else None
  | None => None
  end.

(** [Math.max(0, a - b)], NaN when a side is no number. *)
Definition max0_sub (a b : option Z) : option Z :=
  match a, b with
  | Some x, Some y => Some (Z.max 0 (x - y))
  | _, _ => None
  end.

(** [a - b] on numbers that can be NaN. *)
Definition nan_sub (a b : option Z) : option Z :=
  match a, b with
  | Some x, Some y => Some (x - y)%Z
  | _, _ => None
  end.

(** A log source: its modification time and its text. *)
Record File : Type := { mtimeMs : Z; content : string }.

(** The sources that the glob lists under the sessions root, under
    their absolute paths. *)
Definition FileSystem : Type := list (string * File).

(** The outcome of a call that can throw. *)
Inductive Completion (A : Type) : Type :=
| Throws
| Returns (a : A).
Arguments Throws {A}.
Arguments Returns {A} a.

Section Runtime.

(** [JSON.parse]: [None] when it throws. *)
Variable JSON_parse : string -> option json.

(** [new Date(s).getTime()]: [None] is NaN, the time of an invalid date. *)
Variable Date_getTime : string -> option Z.

(** [path.relative] and the root of the recorded sessions. *)
Variable path_relative : string -> string -> string.
Variable CODEX_ROOT : string.

(** [safeParse] *)
Definition safeParse (maybe : string) : option json := JSON_parse maybe.

(** *** Event reader *)

(** The body of the loop of [readJsonl]: the envelope a line decodes to,
    [None] for a line that is skipped. *)
Definition decode_line (line : string) : option CodexEvent :=
  let cleaned := lineFilter (Str.trim line) in
  if negb (Str.truthy cleaned) then None
  else
    match JSON_parse cleaned with
    | Some (JObj fields) => Some fields
    | Some _ => None
    | None => None
    end.

(** [readJsonl] on the text of the file. *)
Definition readJsonl_text (raw : string) : list CodexEvent :=
  fold_left
    (fun (events : list CodexEvent) line =>
       match decode_line line with
       | Some event => (events ++ [event])%list
       | None => events
       end)
    (Str.split_lines raw) [].

(** *** Session summary builder *)

(** The first statement of the loop: the time bounds. *)
Definition note_timestamp (st : SummaryState) (event : CodexEvent) : SummaryState :=
  match event_timestamp event with
  | Some ts =>
      if Str.truthy ts then
        {| st_meta := st_meta st; st_preview := st_preview st;
           st_startedAt := if Str.truthy (st_startedAt st) then st_startedAt st else ts;
           st_lastActivityAt := ts;
           st_tokens := st_tokens st; st_contextWindow := st_contextWindow st;
           st_toolCalls := st_toolCalls st |}
      else st
  | None => st
  end.

(** The branch of a [session_meta] envelope. *)
Definition on_session_meta (st : SummaryState) (event : CodexEvent) : SummaryState :=
  match toRecord (field "payload" event) with
  | Some payload =>
      {| st_meta := Some payload; st_preview := st_preview st;
         st_startedAt := default (st_startedAt st) (str (field "timestamp" payload));
         st_lastActivityAt := st_lastActivityAt st;
         st_tokens := st_tokens st; st_contextWindow := st_contextWindow st;
         st_toolCalls := st_toolCalls st |}
  | None => st
  end.

(** The branch of a [response_item] envelope with a payload. *)
Definition on_response_item (st : SummaryState) (payload : JsonRecord) : SummaryState :=
  let preview :=
    if is_str (field "type" payload) "message" && is_str (field "role" payload) "user"
       && negb (Str.truthy (st_preview st))
    then composePreview (extractText (field "content" payload))
    else st_preview st in
  let calls :=
    match str (field "call_id" payload) with
    | Some call_id =>
        if is_call_start_type (field "type" payload)
        then {[ call_id ]} ∪ st_toolCalls st
        else st_toolCalls st
    | None => st_toolCalls st
    end in
  {| st_meta := st_meta st; st_preview := preview; st_startedAt := st_startedAt st;
     st_lastActivityAt := st_lastActivityAt st; st_tokens := st_tokens st;
     st_contextWindow := st_contextWindow st; st_toolCalls := calls |}.

(** The branch of an [event_msg] envelope. *)
Definition on_event_msg (st : SummaryState) (event : CodexEvent) : SummaryState :=
  match toRecord (field "payload" event) with
  | Some payload =>
      if is_str (field "type" payload) "token_count" then
        match field "info" payload with
        | Some info =>
            if truthy_json info then
              {| st_meta := st_meta st; st_preview := st_preview st;
                 st_startedAt := st_startedAt st; st_lastActivityAt := st_lastActivityAt st;
                 st_tokens := prop "total_token_usage" info;
                 st_contextWindow := num (prop "model_context_window" info);
                 st_toolCalls := st_toolCalls st |}
            else st
        | None => st
        end
      else st
  | None => st
  end.

(** One turn of the loop of [parseSessionSummary]. *)
Definition summary_step (st : SummaryState) (event : CodexEvent) : SummaryState :=
  let st := note_timestamp st event in
  if is_str (field "type" event) "session_meta" then on_session_meta st event
  else
    let after_response :=
      if is_str (field "type" event) "response_item" then
        match toRecord (field "payload" event) with
        | Some payload => Some (on_response_item st payload)
        | None => None
        end
      else Some st in
    match after_response with
    | None => st
    | Some st' =>
        if is_str (field "type" event) "event_msg" then on_event_msg st' event else st'
    end.

(** [x || y] on strings. *)
Definition or_else (x y : string) : string := if Str.truthy x then x else y.

(** The part of [parseSessionSummary] from the declaration of the
    accumulators to the summary record: the fold over the decoded events
    and the record built from it, [None] without a session-meta
    envelope. *)
Definition summarize (sessionId filePath : string) (events : list CodexEvent)
  : option SessionSummary :=
  let st := fold_left summary_step events initialSummaryState in
  match st_meta st with
  | None => None
  | Some meta =>
      let cwd := default "unknown" (str (field "cwd" meta)) in
      let meta_timestamp := default "" (str (field "timestamp" meta)) in
      let count (k : string) : Z :=
        match st_tokens st with
        | Some tokens => default 0%Z (num (prop k tokens))
        | None => 0%Z
        end in
      Some
        {| ss_id := sessionId;
           ss_projectId := slugify cwd;
           ss_projectName := or_else (Path.basename cwd) (or_else cwd "unknown");
           ss_projectPath := cwd;
           ss_relativePath := path_relative CODEX_ROOT filePath;
           ss_startedAt := or_else (st_startedAt st) (or_else meta_timestamp epochISO);
           ss_lastActivityAt :=
             or_else (st_lastActivityAt st)
               (or_else (st_startedAt st) (or_else meta_timestamp epochISO));
           ss_preview := or_else (st_preview st) "(no prompt logged)";
           ss_totalTokens := count "total_tokens";
           ss_cachedTokens := count "cached_input_tokens";
           ss_userTokens :=
             match st_tokens st with
             | Some tokens =>
                 if truthy_json tokens
                 then max0_sub (num (prop "input_tokens" tokens))
                               (num (prop "cached_input_tokens" tokens))
                 else Some 0%Z
             | None => Some 0%Z
             end;
           ss_outputTokens := count "output_tokens";
           ss_reasoningTokens := count "reasoning_output_tokens";
           ss_contextWindow := st_contextWindow st;
           ss_toolCallCount := size (st_toolCalls st) |}
  end.

(** *** Tool call reconciler *)

(** The record made at the first call-start of an id. *)
Definition new_call (call_id : string) (kind : ToolKind) (fallback : string)
    (payload : JsonRecord) : ToolCall :=
  {| tc_id := call_id;
     tc_name := default fallback (str (field "name" payload));
     tc_toolKind := kind;
     tc_status := default "in_progress" (str (field "status" payload));
     tc_input := None; tc_output := None; tc_metadata := None;
     tc_startedAt := None; tc_completedAt := None; tc_durationMs := None |}.

(** [existing.startedAt = existing.startedAt ?? timestamp] *)
Definition backfill_startedAt (c : ToolCall) (timestamp : option string) : ToolCall :=
  set_startedAt c (match tc_startedAt c with Some s => Some s | None => timestamp end).

(** [existing.completedAt = timestamp ?? existing.completedAt] *)
Definition stamp_completedAt (c : ToolCall) (timestamp : option string) : ToolCall :=
  set_completedAt c (match timestamp with Some t => Some t | None => tc_completedAt c end).

(** [if (payload.type === "function_call" && ...)] *)
Definition on_function_call (timestamp : option string) (payload : JsonRecord)
    (calls : OMap.t ToolCall) : OMap.t ToolCall :=
  match str (field "call_id" payload) with
  | Some call_id =>
      if is_str (field "type" payload) "function_call" then
        let existing :=
          default (new_call call_id KindFunction "function_call" payload)
                  (OMap.get call_id calls) in
        let existing := set_name existing (default (tc_name existing) (str (field "name" payload))) in
        let existing :=
          match str (field "arguments" payload) with
          | Some arguments => set_input existing (Some arguments)
          | None => existing
          end in
        let existing := backfill_startedAt existing timestamp in
        let existing :=
          set_status existing (default (tc_status existing) (str (field "status" payload))) in
        OMap.set call_id existing calls
      else calls
  | None => calls
  end.

(** [if (payload.type === "function_call_output" && ...)] *)
Definition on_function_call_output (timestamp : option string) (payload : JsonRecord)
    (calls : OMap.t ToolCall) : OMap.t ToolCall :=
  match str (field "call_id" payload) with
  | Some call_id =>
      if is_str (field "type" payload) "function_call_output" then
        match OMap.get call_id calls with
        | Some existing =>
            let existing :=
              match str (field "output" payload) with
              | Some output => set_output existing (Some output)
              | None => existing
              end in
            let existing := stamp_completedAt existing timestamp in
            let existing := set_status existing "completed" in
            OMap.set call_id existing calls
        | None => calls
        end
      else calls
  | None => calls
  end.

(** [if (payload.type === "custom_tool_call" && ...)] *)
Definition on_custom_tool_call (timestamp : option string) (payload : JsonRecord)
    (calls : OMap.t ToolCall) : OMap.t ToolCall :=
  match str (field "call_id" payload) with
  | Some call_id =>
      if is_str (field "type" payload) "custom_tool_call" then
        let existing :=
          default (new_call call_id KindCustom "custom_tool" payload)
                  (OMap.get call_id calls) in
        let existing :=
          match str (field "input" payload) with
          | Some input => set_input existing (Some input)
          | None => existing
          end in
        let existing := backfill_startedAt existing timestamp in
        let existing :=
          set_status existing (default (tc_status existing) (str (field "status" payload))) in
        OMap.set call_id existing calls
      else calls
  | None => calls
  end.

(** [parsed]: the decoded result of a custom tool, [None] when there is
    none ([undefined]). *)
Definition parsed_output (payload : JsonRecord) : option json :=
  match field "output" payload with
  | Some (JStr text) => safeParse text
  | other => other
  end.

(** [if (payload.type === "custom_tool_call_output" && ...)] *)
Definition on_custom_tool_call_output (timestamp : option string) (payload : JsonRecord)
    (calls : OMap.t ToolCall) : OMap.t ToolCall :=
  match str (field "call_id" payload) with
  | Some call_id =>
      if is_str (field "type" payload) "custom_tool_call_output" then
        match OMap.get call_id calls with
        | Some existing =>
            let parsed := toRecord (parsed_output payload) in
            let inner := match parsed with
                         | Some p => str (field "output" p)
                         | None => None
                         end in
            let existing :=
              match inner with
              | Some text =>
                  if Str.truthy text then set_output existing (Some text)
                  else match str (field "output" payload) with
                       | Some raw => set_output existing (Some raw)
                       | None => existing
                       end
              | None =>
                  match str (field "output" payload) with
                  | Some raw => set_output existing (Some raw)
                  | None => existing
                  end
              end in
            let existing :=
              set_metadata existing
                (match parsed with
                 | Some p =>
                     match toRecord (field "metadata" p) with
                     | Some m => Some m
                     | None => tc_metadata existing
                     end
                 | None => tc_metadata existing
                 end) in
            let existing := stamp_completedAt existing timestamp in
            let existing := set_status existing "completed" in
            OMap.set call_id existing calls
        | None => calls
        end
      else calls
  | None => calls
  end.

(** One turn of the loop of [buildToolCalls]. *)
Definition tool_step (calls : OMap.t ToolCall) (event : CodexEvent) : OMap.t ToolCall :=
  match payload_of "response_item" event with
  | Some payload =>
      let timestamp := event_timestamp event in
      let calls := on_function_call timestamp payload calls in
      let calls := on_function_call_output timestamp payload calls in
      let calls := on_custom_tool_call timestamp payload calls in
      on_custom_tool_call_output timestamp payload calls
  | None => calls
  end.

(** The ledger after the loop. *)
Definition reconcile (events : list CodexEvent) : OMap.t ToolCall :=
  fold_left tool_step events [].

(** The callback of the [map] after the loop. *)
Definition finalize (call : ToolCall) : ToolCall :=
  match tc_startedAt call, tc_completedAt call with
  | Some startedAt, Some completedAt =>
      if Str.truthy startedAt && Str.truthy completedAt
      then set_durationMs call
             (Some (nan_sub (Date_getTime completedAt) (Date_getTime startedAt)))
      else call
  | _, _ => call
  end.

(** The comparator of the final sort. *)
Definition by_startedAt (a b : ToolCall) : Z :=
  match tc_startedAt a, tc_startedAt b with
  | Some sa, Some sb =>
      if Str.truthy sa && Str.truthy sb
      then if Str.gtb sa sb then 1%Z else (-1)%Z
      else 0%Z
  | _, _ => 0%Z
  end.

(** [buildToolCalls] *)
Definition buildToolCalls (events : list CodexEvent) : ToolCalls :=
  let finalized := map finalize (OMap.values (reconcile events)) in
  {| toolCalls := Array_sort by_startedAt finalized;
     toolCallCount := length finalized |}.

(** *** Token timeline builder *)

(** The point pushed for a usage-report envelope. *)
Definition timeline_point (event : CodexEvent) : option TokenTimelinePoint :=
  match usage_report event with
  | Some (info, total) =>
      let timestamp := default epochISO (event_timestamp event) in
      Some
        {| tp_timestamp := timestamp;
           tp_timestampMs := Date_getTime timestamp;
           tp_totalTokens := num (prop "total_tokens" total);
           tp_inputTokens := num (prop "input_tokens" total);
           tp_cachedTokens := num (prop "cached_input_tokens" total);
           tp_userTokens :=
             max0_sub (num (prop "input_tokens" total))
                      (num (prop "cached_input_tokens" total));
           tp_outputTokens := num (prop "output_tokens" total);
           tp_reasoningTokens := num (prop "reasoning_output_tokens" total);
           tp_contextWindow := num (field "model_context_window" info) |}
  | None => None
  end.

(** The points in the order of the log. *)
Definition timeline_points (events : list CodexEvent) : list TokenTimelinePoint :=
  fold_left
    (fun (points : list TokenTimelinePoint) event =>
       match timeline_point event with
       | Some p => (points ++ [p])%list
       | None => points
       end)
    events [].

(** [a.timestampMs - b.timestampMs]; a comparator that answers NaN is
    taken by the sort as answering 0. *)
Definition by_timestampMs (a b : TokenTimelinePoint) : Z :=
  default 0%Z (nan_sub (tp_timestampMs a) (tp_timestampMs b)).

(** [buildTokenTimeline] *)
Definition buildTokenTimeline (events : list CodexEvent) : list TokenTimelinePoint :=
  Array_sort by_timestampMs (timeline_points events).

(** *** Message transcript builder *)

(** [typeof event.timestamp === "string" ? event.timestamp : new Date(0).toISOString()] *)
Definition message_timestamp (event : CodexEvent) : string :=
  default epochISO (event_timestamp event).

(** The template [`${event.timestamp}-${tag}-${messages.length}`]. *)
Definition message_id (event : CodexEvent) (tag : string) (n : nat) : string :=
  default "undefined" (event_timestamp event) ++ "-" ++ tag ++ "-" ++ Str.of_nat n.

(** The text of a reasoning turn. *)
Definition reasoning_text (summary : option json) : string :=
  let summaryText :=
    match summary with
    | Some (JArr items) =>
        Str.join (String "010" "") (List.filter Str.truthy (map chunk_text items))
    | _ => "Reasoning log hidden"
    end in
  or_else summaryText "Reasoning log hidden".

(** One turn of the loop of [buildMessages]: the message pushed, if any. *)
Definition message_of (event : CodexEvent) (n : nat) : option ChatMessage :=
  if is_str (field "type" event) "response_item" then
    match toRecord (field "payload" event) with
    | Some payload =>
        if is_str (field "type" payload) "message" then
          Some {| cm_id := message_id event "message" n;
                  cm_timestamp := message_timestamp event;
                  cm_role := default "assistant" (str (field "role" payload));
                  cm_kind := "text";
                  cm_text := extractText (field "content" payload) |}
        else if is_str (field "type" payload) "reasoning" then
          Some {| cm_id := message_id event "reasoning" n;
                  cm_timestamp := message_timestamp event;
                  cm_role := "assistant";
                  cm_kind := "reasoning";
                  cm_text := reasoning_text (field "summary" payload) |}
        else None
    | None => None
    end
  else if is_str (field "type" event) "event_msg" then
    match toRecord (field "payload" event) with
    | Some payload =>
        if is_str (field "type" payload) "agent_reasoning" then
          Some {| cm_id := message_id event "agent" n;
                  cm_timestamp := message_timestamp event;
                  cm_role := "assistant";
                  cm_kind := "status";
                  cm_text := default "" (str (field "text" payload)) |}
        else None
    | None => None
    end
  else None.

(** [a.timestamp > b.timestamp ? 1 : -1] *)
Definition by_timestamp (a b : ChatMessage) : Z :=
  if Str.gtb (cm_timestamp a) (cm_timestamp b) then 1%Z else (-1)%Z.

(** [buildMessages] *)
Definition buildMessages (events : list CodexEvent) : list ChatMessage :=
  Array_sort by_timestamp
    (fold_left
       (fun (messages : list ChatMessage) event =>
          match message_of event (length messages) with
          | Some m => (messages ++ [m])%list
          | None => messages
          end)
       events []).

(** *** Files and the cache of summaries *)

(** The order of [files.sort()], which has no comparator. *)
Definition by_code_units (a b : string) : Z :=
  match String.compare a b with
  | Lt => (-1)%Z
  | Eq => 0%Z
  | Gt => 1%Z
  end.

(** [listSessionFiles] *)
Definition listSessionFiles (fs : FileSystem) : list string :=
  Array_sort by_code_units (map fst fs).

(** [readJsonl]: reading a file that is not there throws. *)
Definition readJsonl (fs : FileSystem) (filePath : string) : Completion (list CodexEvent) :=
  match OMap.get filePath fs with
  | Some f => Returns (readJsonl_text (content f))
  | None => Throws
  end.

(** [parseSessionSummary], with the cache of summaries passed along. *)
Definition parseSessionSummary (fs : FileSystem) (filePath : string)
    (summaryCache : gmap string (Z * SessionSummary))
  : option SessionSummary * gmap string (Z * SessionSummary) :=
  match extractSessionId filePath with
  | None => (None, summaryCache)
  | Some sessionId =>
      if negb (Str.truthy sessionId) then (None, summaryCache)
      else
        match OMap.get filePath fs with
        | None => (None, summaryCache)
        | Some stat =>
            let fresh :=
              match summarize sessionId filePath (readJsonl_text (content stat)) with
              | None => (None, summaryCache)
              | Some summary =>
                  (Some summary, <[ filePath := (mtimeMs stat, summary) ]> summaryCache)
              end in
            match summaryCache !! filePath with
            | Some (mtime, summary) =>
                if (mtime =? mtimeMs stat)%Z then (Some summary, summaryCache) else fresh
            | None => fresh
            end
        end
  end.

(** [findSessionFile] *)
Definition findSessionFile (fs : FileSystem) (sessionId : string) : option string :=
  List.find
    (fun file =>
       match extractSessionId file with
       | Some found => String.eqb found sessionId
       | None => false
       end)
    (listSessionFiles fs).

(** [getSessionDetail] *)
Definition getSessionDetail (fs : FileSystem) (sessionId : string)
    (summaryCache : gmap string (Z * SessionSummary))
  : Completion (option SessionDetail) * gmap string (Z * SessionSummary) :=
  match findSessionFile fs sessionId with
  | None => (Returns None, summaryCache)
  | Some filePath =>
      match readJsonl fs filePath with
      | Throws => (Throws, summaryCache)
      | Returns events =>
          let '(parsed, summaryCache) := parseSessionSummary fs filePath summaryCache in
          let summary := default emptySummary parsed in
          let tokenTimeline := buildTokenTimeline events in
          let calls := buildToolCalls events in
          let messages := buildMessages events in
          (Returns (Some {| sd_summary := summary; sd_messages := messages;
                            sd_tokenTimeline := tokenTimeline;
                            sd_toolCalls := toolCalls calls |}),
           summaryCache)
      end
  end.

(** The cache holds nothing stale: an entry whose modification time is
    the one of the file it is filed under is the summary that a fresh
    computation on that file returns. It holds of the empty cache and of
    every cache that the calls below leave behind, as long as a file does
    not change without its modification time changing. *)
Definition cache_coherent (fs : FileSystem)
    (summaryCache : gmap string (Z * SessionSummary)) : Prop :=
  forall filePath mtime summary stat,
    summaryCache !! filePath = Some (mtime, summary) ->
    OMap.get filePath fs = Some stat ->
    mtimeMs stat = mtime ->
    fst (parseSessionSummary fs filePath ∅) = Some summary.

End Runtime.

(** ** Reference instances of the runtime

    Executable stand-ins for what the section leaves open, on the part of
    their domain that session logs use. They serve to run the builders on
    concrete logs; the theorems below hold for every instance. *)

Module Reference.

Definition json_space (c : ascii) : bool :=
  let n := nat_of_ascii c in ((n =? 32) || (n =? 9) || (n =? 10) || (n =? 13))%nat.

Fixpoint skip_space (s : string) : string :=
  match s with
  | "" => ""
  | String c r => if json_space c then skip_space r else s
  end.

(** The character an escape stands for; the [\u] escapes are left out. *)
Definition unescape (c : ascii) : option ascii :=
  if Ascii.eqb c "034" then Some "034"%char
  else if Ascii.eqb c "\" then Some "\"%char
  else if Ascii.eqb c "/" then Some "/"%char
  else if Ascii.eqb c "n" then Some "010"%char
  else if Ascii.eqb c "t" then Some "009"%char
  else if Ascii.eqb c "r" then Some "013"%char
  else if Ascii.eqb c "b" then Some "008"%char
  else if Ascii.eqb c "f" then Some "012"%char
  else None.

(** A string literal after its opening quote: its value and what follows
    the closing quote. *)
Fixpoint string_body (s : string) : option (string * string) :=
  match s with
  | "" => None
  | String c r =>
      if Ascii.eqb c "034" then Some ("", r)
      else if Ascii.eqb c "\" then
        match r with
        | String e r' =>
            match unescape e, string_body r' with
            | Some ch, Some (t, rest) => Some (String ch t, rest)
            | _, _ => None
            end
        | "" => None
        end
      else if (nat_of_ascii c <? 32)%nat then None
      else
        match string_body r with
        | Some (t, rest) => Some (String c t, rest)
        | None => None
        end
  end.

(** The digits at the front of a string and what follows them. *)
Fixpoint take_digits (s : string) : string * string :=
  match s with
  | String c r =>
      if Str.is_digit c then let '(d, rest) := take_digits r in (String c d, rest)
      else ("", s)
  | "" => ("", "")
  end.

Definition digit_value (c : ascii) : Z := Z.of_nat (nat_of_ascii c) - 48.

Definition digits_value (d : string) : Z :=
  fold_left (fun acc c => (acc * 10 + digit_value c)%Z) (list_ascii_of_string d) 0%Z.

(** An integer literal: an optional minus, then [0] or digits that do not
    start with [0]; a fraction or an exponent is not read. *)
Definition number_literal (s : string) : option (Z * string) :=
  let '(negative, body) :=
    match s with
    | String "-" r => (true, r)
    | _ => (false, s)
    end in
  let '(d, rest) := take_digits body in
  let well_formed :=
    match d with
    | "" => false
    | String "0" (String _ _) => false
    | _ => true
    end in
  let followed :=
    match rest with
    | String c _ => Ascii.eqb c "." || Ascii.eqb c "e" || Ascii.eqb c "E"
    | "" => false
    end in
  if well_formed && negb followed
  then Some (if negative then (- digits_value d)%Z else digits_value d, rest)
  else None.

(** A word of the grammar at the front of a string. *)
Definition keyword (w : string) (v : json) (s : string) : option (json * string) :=
  if Str.startsWith w s
  then Some (v, substring (String.length w) (String.length s - String.length w) s)
  else None.

Fixpoint parse_value (fuel : nat) (s : string) {struct fuel} : option (json * string) :=
  match fuel with
  | O => None
  | S n =>
      match skip_space s with
      | "" => None
      | String c r as s' =>
          if Ascii.eqb c "{" then
            match skip_space r with
            | String "}" r' => Some (JObj [], r')
            | _ =>
                match parse_members n r with
                | Some (members, rest) =>
                    Some (JObj (fold_left (fun o kv => OMap.set (fst kv) (snd kv) o) members []),
                          rest)
                | None => None
                end
            end
          else if Ascii.eqb c "[" then
            match skip_space r with
            | String "]" r' => Some (JArr [], r')
            | _ =>
                match parse_items n r with
                | Some (items, rest) => Some (JArr items, rest)
                | None => None
                end
            end
          else if Ascii.eqb c "034" then
            match string_body r with
            | Some (t, rest) => Some (JStr t, rest)
            | None => None
            end
          else if Ascii.eqb c "t" then keyword "true" (JBool true) s'
          else if Ascii.eqb c "f" then keyword "false" (JBool false) s'
          else if Ascii.eqb c "n" then keyword "null" JNull s'
          else
            match number_literal s' with
            | Some (z, rest) => Some (JNum z, rest)
            | None => None
            end
      end
  end
with parse_items (fuel : nat) (s : string) {struct fuel} : option (list json * string) :=
  match fuel with
  | O => None
  | S n =>
      match parse_value n s with
      | Some (v, rest) =>
          match skip_space rest with
          | String "," r =>
              match parse_items n r with
              | Some (vs, rest') => Some (v :: vs, rest')
              | None => None
              end
          | String "]" r => Some ([v], r)
          | _ => None
          end
      | None => None
      end
  end
with parse_members (fuel : nat) (s : string) {struct fuel}
  : option (list (string * json) * string) :=
  match fuel with
  | O => None
  | S n =>
      match skip_space s with
      | String "034" r =>
          match string_body r with
          | Some (k, rest) =>
              match skip_space rest with
              | String ":" r1 =>
                  match parse_value n r1 with
                  | Some (v, rest1) =>
                      match skip_space rest1 with
                      | String "," r2 =>
                          match parse_members n r2 with
                          | Some (kvs, rest2) => Some ((k, v) :: kvs, rest2)
                          | None => None
                          end
                      | String "}" r2 => Some ([(k, v)], r2)
                      | _ => None
                      end
                  | None => None
                  end
              | _ => None
              end
          | None => None
          end
      | _ => None
      end
  end.

(** [JSON.parse] on texts whose numbers are integers and whose strings
    have no [\u] escape. *)
Definition JSON_parse (text : string) : option json :=
  match parse_value (2 * String.length text + 2) text with
  | Some (v, rest) => if String.eqb (skip_space rest) "" then Some v else None
  | None => None
  end.

(** Two, three or four digits at an offset of a string. *)
Definition digits_at (offset len : nat) (s : string) : option Z :=
  let d := substring offset len s in
  if (String.length d =? len)%nat && forallb Str.is_digit (list_ascii_of_string d)
  then Some (digits_value d) else None.

Definition leap_year (y : Z) : bool :=
  ((y mod 4 =? 0) && (negb (y mod 100 =? 0) || (y mod 400 =? 0)))%Z.

Definition days_in_month (y m : Z) : Z :=
  if (m =? 2)%Z then (if leap_year y then 29 else 28)%Z
  else if ((m =? 4) || (m =? 6) || (m =? 9) || (m =? 11))%Z then 30%Z
  else 31%Z.

(** The days from 1970-01-01 to a date of the proleptic Gregorian calendar. *)
Definition days_from_civil (y m d : Z) : Z :=
  let y' := (if m <=? 2 then y - 1 else y)%Z in
  let era := (y' / 400)%Z in
  let yoe := (y' - era * 400)%Z in
  let mp := (if m >? 2 then m - 3 else m + 9)%Z in
  let doy := ((153 * mp + 2) / 5 + d - 1)%Z in
  let doe := (yoe * 365 + yoe / 4 - yoe / 100 + doy)%Z in
  (era * 146097 + doe - 719468)%Z.

(** [new Date(s).getTime()] on the format that [toISOString] writes,
    [YYYY-MM-DDTHH:mm:ss.sssZ], for dates that exist; any other string is
    an invalid date. *)
Definition Date_getTime (s : string) : option Z :=
  let punct := (substring 4 1 s, substring 7 1 s, substring 10 1 s, substring 13 1 s,
                substring 16 1 s, substring 19 1 s, substring 23 1 s) in
  if (String.length s =? 24)%nat then
    match punct with
    | ("-", "-", "T", ":", ":", ".", "Z") =>
        match digits_at 0 4 s, digits_at 5 2 s, digits_at 8 2 s,
              digits_at 11 2 s, digits_at 14 2 s, digits_at 17 2 s, digits_at 20 3 s with
        | Some y, Some mo, Some d, Some h, Some mi, Some sec, Some ms =>
            if ((1 <=? mo) && (mo <=? 12) && (1 <=? d) && (d <=? days_in_month y mo)
                && (h <=? 23) && (mi <=? 59) && (sec <=? 59))%Z
            then Some ((((days_from_civil y mo d * 24 + h) * 60 + mi) * 60 + sec) * 1000 + ms)%Z
            else None
        | _, _, _, _, _, _, _ => None
        end
    | _ => None
    end
  else None.

Definition CODEX_ROOT : string := "/root/.codex".

(** [path.relative(root, p)] for a path below the root. *)
Definition path_relative (root p : string) : string :=
  if Str.startsWith (root ++ "/") p
  then substring (String.length root + 1) (String.length p - String.length root - 1) p
  else p.

(** A text with each apostrophe turned into a double quote: the way the
    logs of the examples are written down. *)
Fixpoint quotes (s : string) : string :=
  match s with
  | "" => ""
  | String c r => String (if Ascii.eqb c "'" then "034"%char else c) (quotes r)
  end.

End Reference.

(** ** Vocabulary of the properties *)

(** A line that the reader cannot turn into an envelope: empty or white
    space only, or a text that does not parse, or one that parses to
    something other than an object. *)
Definition malformed_line (parse : string -> option json) (line : string) : Prop :=
  Str.trim line = ""
  \/ parse (Str.trim line) = None
  \/ exists v, parse (Str.trim line) = Some v /\ forall fields, v <> JObj fields.

(** The lines of a log, joined into its text. *)
Definition log_text (lines : list string) : string := Str.join (String "010" "") lines.

(** The correlation id that a call-start envelope brings, if the
    envelope is one. *)
Definition call_start_id (event : CodexEvent) : option string :=
  match payload_of "response_item" event with
  | Some payload =>
      if is_call_start_type (field "type" payload) then str (field "call_id" payload) else None
  | None => None
  end.





(** [a.timestampMs <= b.timestampMs]: false when a side is NaN. *)
Definition ms_le (a b : TokenTimelinePoint) : Prop :=
  match tp_timestampMs a, tp_timestampMs b with
  | Some x, Some y => (x <= y)%Z
  | _, _ => False
  end.


(** What a start branch of the reconciler does to the ledger: nothing
    when the envelope is of another variant or has no id; else it sets
    the record of the id, which is the record found there with its status
    replaced by the one the payload carries, or a new record of that id. *)
Definition start_effect (f : option string -> JsonRecord -> OMap.t ToolCall -> OMap.t ToolCall)
    (variant : string) : Prop :=
  forall timestamp payload calls,
    (is_str (field "type" payload) variant = false /\ f timestamp payload calls = calls)
    \/ (str (field "call_id" payload) = None /\ f timestamp payload calls = calls)
    \/ (exists call_id c,
          is_str (field "type" payload) variant = true
          /\ str (field "call_id" payload) = Some call_id
          /\ f timestamp payload calls = OMap.set call_id c calls
          /\ (forall old, OMap.get call_id calls = Some old ->
                tc_id c = tc_id old /\
                tc_status c = default (tc_status old) (str (field "status" payload)))
          /\ (OMap.get call_id calls = None -> tc_id c = call_id)).

(** What a result branch does: nothing when the envelope is of another
    variant, has no id, or when the ledger has no record of the id; else
    it completes the record found. *)
Definition result_effect (f : option string -> JsonRecord -> OMap.t ToolCall -> OMap.t ToolCall)
    (variant : string) : Prop :=
  forall timestamp payload calls,
    (is_str (field "type" payload) variant = false /\ f timestamp payload calls = calls)
    \/ (str (field "call_id" payload) = None /\ f timestamp payload calls = calls)
    \/ (exists call_id,
          is_str (field "type" payload) variant = true
          /\ str (field "call_id" payload) = Some call_id
          /\ ((OMap.get call_id calls = None /\ f timestamp payload calls = calls)
              \/ (exists old c,
                    OMap.get call_id calls = Some old
                    /\ f timestamp payload calls = OMap.set call_id c calls
                    /\ tc_id c = tc_id old
                    /\ tc_status c = "completed"))).

(** The ledger is well formed: each id has one record, filed under the id
    it carries. *)
Definition ledger_ok (calls : OMap.t ToolCall) : Prop :=
  NoDup (OMap.keys calls) /\ forall k c, OMap.get k calls = Some c -> tc_id c = k.

(** ** Sample envelopes *)

Module Sample.

(** An envelope of a kind with a payload, timestamped or not. *)
Definition envelope (timestamp : option string) (kind : string) (payload : JsonRecord)
  : CodexEvent :=
  ("type", JStr kind) :: ("payload", JObj payload)
  :: match timestamp with
     | Some t => [("timestamp", JStr t)]
     | None => []
     end.

Definition function_call (timestamp : option string) (cid : string) : CodexEvent :=
  envelope timestamp "response_item"
    [("type", JStr "function_call"); ("name", JStr "shell");
     ("arguments", JStr "{}"); ("call_id", JStr cid)].


Definition function_call_output (timestamp : option string) (cid : string) : CodexEvent :=
  envelope timestamp "response_item"
    [("type", JStr "function_call_output"); ("call_id", JStr cid); ("output", JStr "ok")].

Definition usage (input cached output reasoning total : Z) : JsonRecord :=
  [("input_tokens", JNum input); ("cached_input_tokens", JNum cached);
   ("output_tokens", JNum output); ("reasoning_output_tokens", JNum reasoning);
   ("total_tokens", JNum total)].

(** A usage report with a cumulative usage. *)
Definition token_count (timestamp : option string) (total_usage : JsonRecord) : CodexEvent :=
  envelope timestamp "event_msg"
    [("type", JStr "token_count");
     ("info", JObj [("total_token_usage", JObj total_usage);
                    ("last_token_usage", JObj total_usage);
                    ("model_context_window", JNum 272000)])].

Definition session_meta (timestamp : option string) (cwd : string) : CodexEvent :=
  envelope timestamp "session_meta" [("id", JStr "abc"); ("cwd", JStr cwd)].

(** A message of the user with its text segments. *)
Definition user_message (timestamp : option string) (segments : list string) : CodexEvent :=
  envelope timestamp "response_item"
    [("type", JStr "message"); ("role", JStr "user");
     ("content", JArr (map (fun t => JObj [("type", JStr "input_text"); ("text", JStr t)])
                           segments))].

(** The log of the end-to-end scenario: a session-meta envelope for the
    working directory [/home/u/proj], a message of the user, a function
    call [c1] and its output, and two usage reports with totals 100 and
    150. The call and its output are timestamped; the other envelopes may
    or may not be. *)
Definition scenario (meta_at message_at : option string) (call_at output_at : string)
    (first_usage_at second_usage_at : option string) : list CodexEvent :=
  [ session_meta meta_at "/home/u/proj";
    user_message message_at ["fix bug"];
    function_call (Some call_at) "c1";
    function_call_output (Some output_at) "c1";
    token_count first_usage_at (usage 80 30 20 0 100);
    token_count second_usage_at (usage 120 30 30 0 150) ].

Definition t1 : string := "2025-01-02T03:04:05.000Z".
Definition t2 : string := "2025-01-02T03:04:07.500Z".
Definition t3 : string := "2025-01-02T03:04:09.000Z".

End Sample.

(** ** Vocabulary of the timeline *)

(** An envelope that the timeline builder selects. *)
Definition is_usage_report (event : CodexEvent) : bool :=
  match usage_report event with
  | Some _ => true
  | None => false
  end.

(** The timestamp the timeline builder works with: the one of the
    envelope, or the epoch when the envelope has none. *)
Definition timeline_stamp (event : CodexEvent) : string :=
  default epochISO (event_timestamp event).

(** ** Vocabulary of the summary *)

(** The rich content of an envelope that is a message of the user; [None]
    for any other envelope. *)
Definition user_message_content (event : CodexEvent) : option (option json) :=
  match payload_of "response_item" event with
  | Some payload =>
      if is_str (field "type" payload) "message" && is_str (field "role" payload) "user"
      then Some (field "content" payload)
      else None
  | None => None
  end.

(** The ids that an envelope adds to the set of tool calls. *)
Definition started_ids (event : CodexEvent) : gset string :=
  match call_start_id event with
  | Some call_id => {[ call_id ]}
  | None => ∅
  end.

(** What the summary loop has gathered that does not come from the
    timestamps. *)
Definition content_of (st : SummaryState)
  : option JsonRecord * string * option json * option Z * gset string :=
  (st_meta st, st_preview st, st_tokens st, st_contextWindow st, st_toolCalls st).

(** Two envelopes of the same kind with the same payload. *)
Definition same_content (e e' : CodexEvent) : Prop :=
  field "type" e = field "type" e' /\ field "payload" e = field "payload" e'.

(** A log text and the file system of the examples. *)
Module SampleFiles.

(** A log without a session-meta envelope: a message of the user, a
    function call and its output, one usage report, and a line that is
    cut short. *)
Definition headless_log : string :=
  Reference.quotes
"{'timestamp':'2025-01-02T03:04:05.000Z','type':'response_item','payload':{'type':'message','role':'user','content':[{'type':'input_text','text':'fix bug'}]}}
{'timestamp':'2025-01-02T03:04:07.500Z','type':'response_item','payload':{'type':'function_call','name':'shell','arguments':'{}','call_id':'c1'}}
{'timestamp':'2025-01-02T03:04:09.000Z','type':'response_item','payload':{'type':'function_call_output','call_id':'c1','output':'ok'}}
{'timestamp':'2025-01-02T03:04:09.000Z','type':'event_msg','payload':{'type':'token_count','info':{'total_token_usage':{'input_tokens':80,'cached_input_tokens':30,'output_tokens':20,'reasoning_output_tokens':0,'total_tokens':100},'model_context_window':272000}}}
{'timestamp':'2025-01-02T03:04:10.000Z','type':'respon".

Definition headless_path : string :=
  "/root/.codex/sessions/2025/01/02/rollout-2025-01-02T03-04-05-abc-123.jsonl".

(** The log of the end-to-end scenario, as a text. *)
Definition scenario_log : string :=
  Reference.quotes
"{'timestamp':'2025-01-02T03:04:04.000Z','type':'session_meta','payload':{'id':'abc-124','timestamp':'2025-01-02T03:04:03.000Z','cwd':'/home/u/proj'}}
{'timestamp':'2025-01-02T03:04:05.000Z','type':'response_item','payload':{'type':'message','role':'user','content':[{'type':'input_text','text':'fix bug'}]}}
{'timestamp':'2025-01-02T03:04:07.500Z','type':'response_item','payload':{'type':'function_call','name':'shell','arguments':'{}','call_id':'c1'}}
{'timestamp':'2025-01-02T03:04:09.000Z','type':'response_item','payload':{'type':'function_call_output','call_id':'c1','output':'ok'}}
{'timestamp':'2025-01-02T03:04:10.000Z','type':'event_msg','payload':{'type':'token_count','info':{'total_token_usage':{'input_tokens':80,'cached_input_tokens':30,'output_tokens':20,'reasoning_output_tokens':0,'total_tokens':100},'model_context_window':272000}}}
{'timestamp':'2025-01-02T03:04:11.000Z','type':'event_msg','payload':{'type':'token_count','info':{'total_token_usage':{'input_tokens':120,'cached_input_tokens':30,'output_tokens':30,'reasoning_output_tokens':0,'total_tokens':150},'model_context_window':272000}}}
".

Definition scenario_path : string :=
  "/root/.codex/sessions/2025/01/02/rollout-2025-01-02T03-04-04-abc-124.jsonl".

Definition fs : FileSystem :=
  [ (scenario_path, {| mtimeMs := 1735787051000; content := scenario_log |});
    (headless_path, {| mtimeMs := 1735787050000; content := headless_log |}) ].

End SampleFiles.

(** ** The listings of sessions and projects (lib/codex.ts) *)

(** [interface ProjectSummary] *)
Record ProjectSummary : Type := {
  ps_id : string;
  ps_name : string;
  ps_path : string;
  ps_sessionCount : nat;
  ps_latestActivityAt : option string;
  ps_totalTokens : Z
}.

(** [(a, b) => (a.lastActivityAt < b.lastActivityAt ? 1 : -1)] *)
Definition by_lastActivityAt (a b : SessionSummary) : Z :=
  if String.ltb (ss_lastActivityAt a) (ss_lastActivityAt b) then 1%Z else (-1)%Z.

(** The comparator of the sort of [getProjectSummaries]. *)
Definition by_latestActivityAt (a b : ProjectSummary) : Z :=
  match ps_latestActivityAt a, ps_latestActivityAt b with
  | Some la, Some lb =>
      if Str.truthy la && Str.truthy lb
      then if String.ltb la lb then 1%Z else (-1)%Z
      else 0%Z
  | _, _ => 0%Z
  end.

(** The entry that stands in for a project seen for the first time. *)
Definition new_project (session : SessionSummary) : ProjectSummary :=
  {| ps_id := ss_projectId session;
     ps_name := ss_projectName session;
     ps_path := ss_projectPath session;
     ps_sessionCount := 0;
     ps_latestActivityAt := None;
     ps_totalTokens := 0 |}.

(** [!current.latestActivityAt || current.latestActivityAt < session.lastActivityAt] *)
Definition is_later (latest : option string) (lastActivityAt : string) : bool :=
  match latest with
  | Some l => negb (Str.truthy l) || String.ltb l lastActivityAt
  | None => true
  end.

(** One turn of the loop of [getProjectSummaries]. *)
Definition project_step (projects : OMap.t ProjectSummary) (session : SessionSummary)
  : OMap.t ProjectSummary :=
  let current := default (new_project session) (OMap.get (ss_projectId session) projects) in
  let current :=
    {| ps_id := ps_id current; ps_name := ps_name current; ps_path := ps_path current;
       ps_sessionCount := ps_sessionCount current + 1;
       ps_latestActivityAt :=
         if is_later (ps_latestActivityAt current) (ss_lastActivityAt session)
         then Some (ss_lastActivityAt session)
         else ps_latestActivityAt current;
       ps_totalTokens := ps_totalTokens current + ss_totalTokens session |} in
  OMap.set (ss_projectId session) current projects.

(** The part of [getProjectSummaries] that follows the listing of the
    sessions. *)
Definition group_projects (sessions : list SessionSummary) : list ProjectSummary :=
  Array_sort by_latestActivityAt (OMap.values (fold_left project_step sessions [])).

(** The filter of [getSessionsForProject]. *)
Definition of_project (projectId : string) (sessions : list SessionSummary)
  : list SessionSummary :=
  List.filter (fun session => String.eqb (ss_projectId session) projectId) sessions.

Section Listings.

Variable JSON_parse : string -> option json.
Variable path_relative : string -> string -> string.
Variable CODEX_ROOT : string.

(** One turn of the loop of [getSessionSummaries]. *)
Definition summaries_step (fs : FileSystem)
    (acc : list SessionSummary * gmap string (Z * SessionSummary)) (file : string)
  : list SessionSummary * gmap string (Z * SessionSummary) :=
  let '(summary, summaryCache) :=
    parseSessionSummary JSON_parse path_relative CODEX_ROOT fs file (snd acc) in
  match summary with
  | Some s => ((fst acc ++ [s])%list, summaryCache)
  | None => (fst acc, summaryCache)
  end.

(** [getSessionSummaries] *)
Definition getSessionSummaries (fs : FileSystem)
    (summaryCache : gmap string (Z * SessionSummary))
  : list SessionSummary * gmap string (Z * SessionSummary) :=
  let '(summaries, summaryCache) :=
    fold_left (summaries_step fs) (listSessionFiles fs) ([], summaryCache) in
  (Array_sort by_lastActivityAt summaries, summaryCache).

(** [getProjectSummaries] *)
Definition getProjectSummaries (fs : FileSystem)
    (summaryCache : gmap string (Z * SessionSummary))
  : list ProjectSummary * gmap string (Z * SessionSummary) :=
  let '(sessions, summaryCache) := getSessionSummaries fs summaryCache in
  (group_projects sessions, summaryCache).

(** [getSessionsForProject] *)
Definition getSessionsForProject (fs : FileSystem) (projectId : string)
    (summaryCache : gmap string (Z * SessionSummary))
  : list SessionSummary * gmap string (Z * SessionSummary) :=
  let '(sessions, summaryCache) := getSessionSummaries fs summaryCache in
  (of_project projectId sessions, summaryCache).

End Listings.

(** ** The route of one session (the handler of [/api/sessions/[sessionId]]) *)


Section Route.

Variable JSON_parse : string -> option json.
Variable Date_getTime : string -> option Z.
Variable path_relative : string -> string -> string.
Variable CODEX_ROOT : string.


End Route.

(** ** The view of one session (components/dashboard/SessionDetailView.tsx)
    and the chart of the timeline (components/dashboard/TokenTimelineChart.tsx) *)

Section CallTimes.

Variable Date_getTime : string -> option Z.

(** The loop body that [getCallTimestamp] and [toMs] share: the time of a
    candidate that is there, is not empty and parses. *)
Definition time_of (candidate : option string) : option Z :=
  match candidate with
  | Some c => if Str.truthy c then Date_getTime c else None
  | None => None
  end.

(** [getCallTimestamp] of the view: the time of the first of
    [completedAt] and [startedAt] that is there and parses. *)
Definition getCallTimestamp (call : ToolCall) : option Z :=
  match time_of (tc_completedAt call) with
  | Some ms => Some ms
  | None => time_of (tc_startedAt call)
  end.

(** [toMs] of the chart: [preferred] is [None] for [null] or [undefined]
    and [Some None] for NaN; the candidates are [startedAt], then
    [completedAt]. *)
Definition toMs (preferred : option (option Z)) (call : ToolCall) : option Z :=
  match preferred with
  | Some (Some ms) => Some ms
  | _ =>
      match time_of (tc_startedAt call) with
      | Some ms => Some ms
      | None => time_of (tc_completedAt call)
      end
  end.

End CallTimes.

(** [truncate] of the view. *)
Definition truncate (value : string) (max : nat) : string :=
  if (max <? String.length value)%nat then substring 0 max value ++ "..." else value.

(** [summarizeCall] of the view. *)
Definition summarizeCall (call : ToolCall) : option string :=
  let raw :=
    match tc_output call with
    | Some output =>
        if (0 <? String.length (Str.trim output))%nat then Some output else tc_input call
    | None => tc_input call
    end in
  match raw with
  | Some text => if Str.truthy text then Some (truncate text 200) else None
  | None => None
  end.

(** [Math.max] and [Math.min] on numbers that can be NaN. *)
Definition nan_max (a b : option Z) : option Z :=
  match a, b with
  | Some x, Some y => Some (Z.max x y)
  | _, _ => None
  end.

Definition nan_min (a b : option Z) : option Z :=
  match a, b with
  | Some x, Some y => Some (Z.min x y)
  | _, _ => None
  end.

(** [a === b] on numbers: NaN is equal to nothing. *)
Definition same_number (a b : option Z) : bool :=
  match a, b with
  | Some x, Some y => (x =? y)%Z
  | _, _ => false
  end.

(** [clampToDomain] of the chart: a [number | null] is [None] for [null]
    and [Some None] for NaN. *)
Definition clampToDomain (value start finish : option (option Z)) : option (option Z) :=
  match value with
  | None =>
      match start with
      | Some s => Some s
      | None => finish
      end
  | Some v =>
      match start, finish with
      | Some s, Some e =>
          if same_number s e then Some s else Some (nan_min (nan_max v s) e)
      | _, _ => Some v
      end
  end.

(** [domainStart] and [domainEnd]: the times of the first and of the last
    point of the chart. *)
Definition chart_domain (timeline : list TokenTimelinePoint)
  : option (option Z) * option (option Z) :=
  match timeline with
  | [] => (None, None)
  | first :: _ => (Some (tp_timestampMs first), Some (tp_timestampMs (List.last timeline first)))
  end.

(** The [time] of the marker of a call, [None] when the call gets no
    marker; [anchor] and [event] are what [toolInsights] holds for the
    call, [None] when it holds nothing. *)
Definition marker_time (getTime : string -> option Z) (timeline : list TokenTimelinePoint)
    (anchor event : option (option Z)) (call : ToolCall) : option (option Z) :=
  let anchorMs := toMs getTime anchor call in
  let displayMs := toMs getTime event call in
  match anchorMs, displayMs with
  | None, None => None
  | Some ms, _ | None, Some ms =>
      clampToDomain (Some (Some ms)) (fst (chart_domain timeline)) (snd (chart_domain timeline))
  end.

(** ** Vocabulary of the shapes of strings *)

(** Every code unit of [s] passes the test [p]. *)
Fixpoint all_chars (p : ascii -> bool) (s : string) : bool :=
  match s with
  | "" => true
  | String c r => p c && all_chars p r
  end.

(** No two code units next to each other pass the test [p] both. *)
Fixpoint apart (p : ascii -> bool) (s : string) : bool :=
  match s with
  | "" => true
  | String c r =>
      match r with
      | String c' _ => negb (p c && p c')
      | "" => true
      end && apart p r
  end.

(** The first code unit of [s] is there and passes the test [p]. *)
Definition first_is (p : ascii -> bool) (s : string) : bool :=
  match s with
  | String c _ => p c
  | "" => false
  end.

(** The last code unit of [s] is there and passes the test [p]. *)
Fixpoint last_is (p : ascii -> bool) (s : string) : bool :=
  match s with
  | "" => false
  | String c r =>
      match r with
      | "" => p c
      | _ => last_is p r
      end
  end.

(** [t] is a run of consecutive code units of [s]. *)
Definition part_of (t s : string) : Prop := exists a b, s = a ++ t ++ b.

(** [s.replace(/[...]+/g, d)] for a class [q] of code units: what
    [Str.dash_runs] and [Str.collapse_from] both are. *)
Fixpoint squeeze (q : ascii -> bool) (d : ascii) (in_run : bool) (s : string) : string :=
  match s with
  | "" => ""
  | String c r =>
      if q c
      then if in_run then squeeze q d true r else String d (squeeze q d true r)
      else String c (squeeze q d false r)
  end.

Definition is_dash (c : ascii) : bool := Ascii.eqb c "-".

Definition is_slash (c : ascii) : bool := Ascii.eqb c "/".

(** The code units of a slug. *)
Definition is_slug_char (c : ascii) : bool := Str.is_lower c || Str.is_digit c || is_dash c.

(** A code unit that is no white space, or the plain space. *)
Definition is_plain (c : ascii) : bool := negb (Str.is_space c) || Ascii.eqb c " ".

(** A code unit that can stand in a session id: neither a line
    terminator nor a slash. *)
Definition is_id_char (c : ascii) : bool := Str.is_dot c && negb (is_slash c).

(** ** Vocabulary of the ledger and of the transcript *)

(** What a record of the ledger keeps through every later envelope: its
    id, its kind, and its [startedAt] once it has one; and no record of
    the ledger has a duration before the loop is over. *)
Definition keeps (old new : ToolCall) : Prop :=
  tc_id new = tc_id old
  /\ tc_toolKind new = tc_toolKind old
  /\ (tc_startedAt old <> None -> tc_startedAt new = tc_startedAt old)
  /\ (tc_durationMs old = None -> tc_durationMs new = None).

(** The duration that the times of a record give: none unless both
    [startedAt] and [completedAt] are there and not empty. *)
Definition duration_of (getTime : string -> option Z) (c : ToolCall) : option (option Z) :=
  match tc_startedAt c, tc_completedAt c with
  | Some startedAt, Some completedAt =>
      if Str.truthy startedAt && Str.truthy completedAt
      then Some (nan_sub (getTime completedAt) (getTime startedAt))
      else None
  | _, _ => None
  end.

(** An envelope that [buildMessages] turns into a message. *)
Definition is_message (event : CodexEvent) : bool :=
  match message_of event 0 with
  | Some _ => true
  | None => false
  end.

(** What one branch of the reconciler does to the ledger: nothing, or it
    sets the record of one id, to a record that keeps what the record
    found there had, or to a new record without a duration. *)
Definition ledger_update (calls after : OMap.t ToolCall) : Prop :=
  after = calls
  \/ exists cid c,
       after = OMap.set cid c calls
       /\ (forall e, OMap.get cid calls = Some e -> keeps e c)
       /\ (OMap.get cid calls = None -> tc_durationMs c = None).

(** No record of the ledger has a duration. *)
Definition no_duration (calls : OMap.t ToolCall) : Prop :=
  forall k c, OMap.get k calls = Some c -> tc_durationMs c = None.

(** The id of a message ends with the place [n] of the message among
    those pushed. *)
Definition id_index (id : string) (n : nat) : Prop :=
  exists front, id = front ++ "-" ++ Str.of_nat n.

(** What the loop of [buildMessages] has pushed, in the order of the log. *)
Definition pushed_messages (events : list CodexEvent) : list ChatMessage :=
  fold_left
    (fun (messages : list ChatMessage) event =>
       match message_of event (length messages) with
       | Some m => (messages ++ [m])%list
       | None => messages
       end)
    events [].

(** [a.timestamp <= b.timestamp], as strings. *)
Definition stamped_le (a b : ChatMessage) : Prop := Str.le (cm_timestamp a) (cm_timestamp b).

(** ** Vocabulary of the listings *)

(** [b.lastActivityAt <= a.lastActivityAt]: the later session first. *)
Definition later_first (a b : SessionSummary) : Prop :=
  Str.le (ss_lastActivityAt b) (ss_lastActivityAt a).

(** The sum of the [totalTokens] of sessions. *)
Definition total_tokens (sessions : list SessionSummary) : Z :=
  fold_right (fun session sum => (ss_totalTokens session + sum)%Z) 0%Z sessions.

(** [latest] is the [lastActivityAt] of one of the sessions, and no
    session has a later one. *)
Definition latest_of (latest : option string) (sessions : list SessionSummary) : Prop :=
  exists s, In s sessions
            /\ latest = Some (ss_lastActivityAt s)
            /\ forall s', In s' sessions -> Str.le (ss_lastActivityAt s') (ss_lastActivityAt s).

(** What the map of [getProjectSummaries] holds after the sessions [seen]:
    one entry for each project that has a session, filed under its id,
    with the count, the tokens and the latest activity of the sessions of
    the project. *)
Definition projects_ok (projects : OMap.t ProjectSummary) (seen : list SessionSummary) : Prop :=
  NoDup (OMap.keys projects)
  /\ (forall k p, OMap.get k projects = Some p ->
        ps_id p = k
        /\ ps_sessionCount p = length (of_project k seen)
        /\ ps_totalTokens p = total_tokens (of_project k seen)
        /\ latest_of (ps_latestActivityAt p) (of_project k seen))
  /\ (forall k, OMap.get k projects = None -> of_project k seen = []).

(** [b.latestActivityAt <= a.latestActivityAt], both being there: the
    project with the later activity first. *)
Definition latest_first (a b : ProjectSummary) : Prop :=
  match ps_latestActivityAt a, ps_latestActivityAt b with
  | Some la, Some lb => Str.le lb la
  | _, _ => False
  end.

(** A project whose [latestActivityAt] is there and not empty. *)
Definition has_latest (p : ProjectSummary) : Prop :=
  exists latest, ps_latestActivityAt p = Some latest /\ Str.truthy latest = true.

(** ** Vocabulary of the chart *)

(** The times of the domain of a chart: [start] and [finish] are numbers
    and [start] is not after [finish]. *)
Definition domain_of (timeline : list TokenTimelinePoint) (start finish : Z) : Prop :=
  chart_domain timeline = (Some (Some start), Some (Some finish)) /\ (start <= finish)%Z.

(** ** Vocabulary of the totals *)

(** The [info] of an envelope from which the summary loop takes the
    totals: the envelope is a [token_count] whose [info] is truthy. *)
Definition token_info (event : CodexEvent) : option json :=
  match payload_of "event_msg" event with
  | Some payload =>
      if is_str (field "type" payload) "token_count" then
        match field "info" payload with
        | Some info => if truthy_json info then Some info else None
        | None => None
        end
      else None
  | None => None
  end.

(** ** Sample files of two projects *)

Module SampleProjects.

(** A log of a session in [cwd] whose one usage report totals [total]. *)
Definition log (day cwd total : string) : string :=
  Reference.quotes
    ("{'timestamp':'2025-01-" ++ day ++ "T03:04:04.000Z','type':'session_meta','payload':{'id':'s','cwd':'"
     ++ cwd ++ "'}}" ++ String "010"
     ("{'timestamp':'2025-01-" ++ day ++ "T03:04:11.000Z','type':'event_msg','payload':{'type':'token_count','info':{'total_token_usage':{'input_tokens':1,'cached_input_tokens':0,'output_tokens':1,'reasoning_output_tokens':0,'total_tokens':"
      ++ total ++ "}}}}" ++ String "010" "")).

Definition path (day id : string) : string :=
  "/root/.codex/sessions/2025/01/" ++ day ++ "/rollout-2025-01-" ++ day ++ "T03-04-04-" ++ id
  ++ ".jsonl".

(** Two sessions of the project [/home/u/proj], of the 2nd and of the 4th
    of January, and one of [/home/u/other], of the 3rd. *)
Definition fs : FileSystem :=
  [ (path "02" "abc-201", {| mtimeMs := 1; content := log "02" "/home/u/proj" "150" |});
    (path "03" "abc-203", {| mtimeMs := 2; content := log "03" "/home/u/other" "7" |});
    (path "04" "abc-202", {| mtimeMs := 3; content := log "04" "/home/u/proj" "50" |}) ].

End SampleProjects.

(** * Properties *)

#[local] Set Warnings "-clear-no-such-hyp".

(** ** The runtime: strings, sort, maps *)

Lemma split_lines_single (s : string) :
  Str.has_newline s = false -> Str.split_lines s = [s].
Proof.
  induction s as [|c r IH]; simpl; [reflexivity|].
  intros H. apply orb_false_iff in H as [Hc Hr].
  rewrite Hc, (IH Hr). reflexivity.
Qed.

Lemma split_lines_cons (s rest : string) :
  Str.has_newline s = false ->
  Str.split_lines (s ++ String "010" rest) = s :: Str.split_lines rest.
Proof.
  induction s as [|c r IH]; simpl; [reflexivity|].
  intros H. apply orb_false_iff in H as [Hc Hr].
  rewrite Hc, (IH Hr). reflexivity.
Qed.

Lemma split_lines_log_text (lines : list string) :
  Forall (fun l => Str.has_newline l = false) lines ->
  lines <> [] ->
  Str.split_lines (log_text lines) = lines.
Proof.
  unfold log_text.
  induction lines as [|l rest IH]; intros Hall Hne; [congruence|].
  inversion Hall as [|? ? Hl Hrest]; subst.
  destruct rest as [|l' rest'].
  - simpl. apply split_lines_single; assumption.
  - change (Str.join (String "010" "") (l :: l' :: rest'))
      with (l ++ String "010" (Str.join (String "010" "") (l' :: rest'))).
    rewrite split_lines_cons by assumption.
    rewrite IH; [reflexivity | assumption | discriminate].
Qed.

Section SortFacts.

Context {A : Type} (cmp : A -> A -> Z).

Lemma sort_insert_perm (x : A) (racc : list A) :
  Permutation (sort_insert cmp x racc) (x :: racc).
Proof.
  induction racc as [|e r IH]; simpl; [reflexivity|].
  destruct (cmp x e <? 0)%Z; [|reflexivity].
  rewrite IH. apply perm_swap.
Qed.

Lemma sort_fold_perm (l racc : list A) :
  Permutation (fold_left (fun racc x => sort_insert cmp x racc) l racc) (l ++ racc).
Proof.
  revert racc. induction l as [|x l IH]; intros racc; simpl; [reflexivity|].
  rewrite IH, sort_insert_perm. symmetry. apply Permutation_middle.
Qed.

(** The sort loses and invents nothing. *)
Lemma Array_sort_perm (l : list A) : Permutation (Array_sort cmp l) l.
Proof.
  unfold Array_sort. rewrite <- Permutation_rev, sort_fold_perm, app_nil_r. reflexivity.
Qed.

Lemma Array_sort_length (l : list A) : length (Array_sort cmp l) = length l.
Proof. apply Permutation_length, Array_sort_perm. Qed.

Lemma Array_sort_In (l : list A) (x : A) : In x (Array_sort cmp l) <-> In x l.
Proof.
  split; apply Permutation_in; [|symmetry]; apply Array_sort_perm.
Qed.

(** On elements that the comparator orders as [R] does, the result is
    sorted: every element is [R]-below its right neighbour. *)
Section Sorted.

Variables (P : A -> Prop) (R : A -> A -> Prop).
Hypothesis cmp_neg : forall x e, P x -> P e -> (cmp x e < 0)%Z -> R x e.
Hypothesis cmp_nonneg : forall x e, P x -> P e -> ~ (cmp x e < 0)%Z -> R e x.

Lemma sort_insert_hd (x a : A) (racc : list A) :
  P x -> P a -> Forall P racc -> R x a -> HdRel (flip R) a racc ->
  HdRel (flip R) a (sort_insert cmp x racc).
Proof using cmp_neg cmp_nonneg.
  intros Hx Ha Hall Hxa Hhd.
  destruct racc as [|e r]; simpl.
  - constructor. exact Hxa.
  - destruct (cmp x e <? 0)%Z; constructor.
    + inversion Hhd; assumption.
    + exact Hxa.
Qed.

Lemma sort_insert_sorted (x : A) (racc : list A) :
  P x -> Forall P racc -> Sorted (flip R) racc -> Sorted (flip R) (sort_insert cmp x racc).
Proof using cmp_neg cmp_nonneg.
  intros Hx. induction racc as [|e r IH]; intros Hall Hs; simpl.
  - repeat constructor.
  - inversion Hall as [|? ? He Hr]; subst.
    inversion Hs as [|? ? Hsr Hhd]; subst.
    destruct (cmp x e <? 0)%Z eqn:E.
    + apply Z.ltb_lt in E. constructor; [apply IH; assumption|].
      apply sort_insert_hd; auto.
    + apply Z.ltb_ge in E. constructor; [assumption|].
      constructor. unfold flip. apply cmp_nonneg; auto. lia.
Qed.

Lemma sort_fold_sorted (l racc : list A) :
  Forall P l -> Forall P racc -> Sorted (flip R) racc ->
  Sorted (flip R) (fold_left (fun racc x => sort_insert cmp x racc) l racc).
Proof using cmp_neg cmp_nonneg.
  revert racc. induction l as [|x l IH]; intros racc Hl Hacc Hs; simpl; [assumption|].
  inversion Hl; subst.
  apply IH; [assumption| |apply sort_insert_sorted; assumption].
  rewrite sort_insert_perm. constructor; assumption.
Qed.

Lemma Sorted_snoc (l : list A) (x : A) :
  Sorted R l -> (forall y, List.last l x = y -> l <> [] -> R y x) -> Sorted R (l ++ [x]).
Proof.
  induction l as [|a l IH]; intros Hs Hlast; simpl.
  - repeat constructor.
  - inversion Hs as [|? ? Hsl Hhd]; subst.
    constructor.
    + apply IH; [assumption|].
      intros y Hy Hne. apply Hlast; [|discriminate].
      destruct l; [congruence|exact Hy].
    + destruct l as [|b l']; simpl.
      * constructor. apply Hlast; [reflexivity|discriminate].
      * constructor. inversion Hhd; assumption.
Qed.

Lemma Sorted_flip_rev (l : list A) : Sorted (flip R) l -> Sorted R (List.rev l).
Proof.
  induction l as [|a l IH]; intros Hs; simpl; [constructor|].
  inversion Hs as [|? ? Hsl Hhd]; subst.
  apply Sorted_snoc; [apply IH; assumption|].
  intros y Hy Hne.
  destruct l as [|b l']; [simpl in Hne; congruence|].
  inversion Hhd as [|? ? Hab]; subst.
  simpl. rewrite last_last. exact Hab.
Qed.

Lemma Array_sort_sorted (l : list A) : Forall P l -> Sorted R (Array_sort cmp l).
Proof using cmp_neg cmp_nonneg.
  intros Hl. unfold Array_sort. apply Sorted_flip_rev.
  apply sort_fold_sorted; [assumption|constructor|constructor].
Qed.

End Sorted.

(** Elements that the comparator never moves and that are never passed:
    the sort keeps them in the order they came in. *)
Section Kept.

Variable keep : A -> bool.
Hypothesis keep_l : forall x e, keep x = true -> ~ (cmp x e < 0)%Z.
Hypothesis keep_r : forall x e, keep e = true -> ~ (cmp x e < 0)%Z.




End Kept.

End SortFacts.

Lemma is_str_true (v : option json) (lit : string) :
  is_str v lit = true <-> str v = Some lit.
Proof.
  unfold is_str. destruct (str v) as [s|]; [|split; discriminate].
  rewrite String.eqb_eq. split; congruence.
Qed.

Lemma is_str_other (v : option json) (a b : string) :
  is_str v a = true -> a <> b -> is_str v b = false.
Proof.
  intros Ha Hne. apply is_str_true in Ha. unfold is_str. rewrite Ha.
  apply String.eqb_neq. exact Hne.
Qed.

Section OMapFacts.

Context {V : Type}.
Implicit Types (m : OMap.t V) (k : string) (v : V).

Lemma get_set_eq m k v : OMap.get k (OMap.set k v m) = Some v.
Proof.
  induction m as [|[k' v'] m IH]; simpl.
  - rewrite String.eqb_refl. reflexivity.
  - destruct (String.eqb k k') eqn:E; simpl.
    + rewrite String.eqb_refl. reflexivity.
    + rewrite E. exact IH.
Qed.

Lemma get_set_ne m k k' v : k <> k' -> OMap.get k' (OMap.set k v m) = OMap.get k' m.
Proof.
  intros Hne.
  assert (String.eqb k' k = false) as Hk by (apply String.eqb_neq; congruence).
  induction m as [|[k0 v0] m IH]; simpl.
  - rewrite Hk. reflexivity.
  - destruct (String.eqb k k0) eqn:E; simpl.
    + apply String.eqb_eq in E. subst k0. rewrite Hk. reflexivity.
    + destruct (String.eqb k' k0); [reflexivity|exact IH].
Qed.

Lemma get_None_keys m k : OMap.get k m = None <-> ~ In k (OMap.keys m).
Proof.
  induction m as [|[k' v'] m IH]; simpl; [tauto|].
  destruct (String.eqb k k') eqn:E.
  - apply String.eqb_eq in E. split; [discriminate|]. intros H. exfalso. apply H. auto.
  - apply String.eqb_neq in E. rewrite IH. split; [intros H [H'|H']; [congruence|tauto]|tauto].
Qed.

Lemma set_known m k v : OMap.get k m <> None -> OMap.keys (OMap.set k v m) = OMap.keys m.
Proof.
  induction m as [|[k' v'] m IH]; simpl; [congruence|].
  destruct (String.eqb k k') eqn:E; simpl.
  - apply String.eqb_eq in E. subst. reflexivity.
  - intros H. rewrite (IH H). reflexivity.
Qed.

Lemma set_new m k v : OMap.get k m = None -> OMap.set k v m = (m ++ [(k, v)])%list.
Proof.
  induction m as [|[k' v'] m IH]; simpl; [reflexivity|].
  destruct (String.eqb k k'); [discriminate|]. intros H. rewrite (IH H). reflexivity.
Qed.

Lemma keys_set_NoDup m k v : NoDup (OMap.keys m) -> NoDup (OMap.keys (OMap.set k v m)).
Proof.
  intros Hnd. destruct (OMap.get k m) eqn:G.
  - rewrite set_known by congruence. exact Hnd.
  - rewrite set_new by exact G. unfold OMap.keys. rewrite map_app. simpl.
    apply NoDup_app. split; [exact Hnd|]. split; [|repeat constructor; apply not_elem_of_nil].
    intros x Hx Hx'. apply list_elem_of_In in Hx. apply list_elem_of_singleton in Hx'. subst x.
    apply get_None_keys in G. contradiction.
Qed.

(** The set of keys grows by the key that is set. *)
Lemma keys_set_set m k v :
  (list_to_set (OMap.keys (OMap.set k v m)) : gset string) = {[ k ]} ∪ list_to_set (OMap.keys m).
Proof.
  destruct (OMap.get k m) eqn:G.
  - rewrite set_known by congruence.
    assert (In k (OMap.keys m)) as Hin.
    { destruct (in_dec string_dec k (OMap.keys m)) as [H|H]; [exact H|].
      apply get_None_keys in H. congruence. }
    apply list_elem_of_In in Hin.
    apply set_eq. intros x.
    rewrite elem_of_union, elem_of_singleton, elem_of_list_to_set.
    split; [auto|intros [->|H]; assumption].
  - rewrite set_new by exact G. unfold OMap.keys. rewrite map_app. simpl.
    rewrite list_to_set_app_L. simpl.
    rewrite (right_id_L ∅ (∪)). apply (comm_L (∪)).
Qed.

Lemma get_In m k v : OMap.get k m = Some v -> In v (OMap.values m).
Proof.
  induction m as [|[k' v'] m IH]; simpl; [discriminate|].
  destruct (String.eqb k k'); [intros [= ->]; auto|auto].
Qed.

Lemma In_get m v :
  NoDup (OMap.keys m) -> In v (OMap.values m) -> exists k, OMap.get k m = Some v.
Proof.
  induction m as [|[k' v'] m IH]; simpl; [tauto|].
  intros Hnd [->|Hin].
  - exists k'. rewrite String.eqb_refl. reflexivity.
  - apply NoDup_cons in Hnd as [Hk' Hnd].
    destruct (IH Hnd Hin) as [k Hk]. exists k.
    destruct (String.eqb k k') eqn:E; [|exact Hk].
    apply String.eqb_eq in E. subst k'. exfalso. apply Hk'.
    apply list_elem_of_In. destruct (in_dec string_dec k (OMap.keys m)) as [H|H]; [exact H|].
    apply get_None_keys in H. congruence.
Qed.

End OMapFacts.

(** ** Tool call reconciler *)

Section ReconcilerFacts.

Variable JSON_parse : string -> option json.
Variable Date_getTime : string -> option Z.

Lemma on_function_call_effect : start_effect on_function_call "function_call".
Proof.
  intros timestamp payload calls. unfold on_function_call.
  destruct (str (field "call_id" payload)) as [call_id|] eqn:Hid; [|right; left; auto].
  destruct (is_str (field "type" payload) "function_call") eqn:Ht; [|left; auto].
  right; right. eexists _, _. split; [reflexivity|]. split; [reflexivity|].
  split; [reflexivity|]. split.
  - intros old G. rewrite G. simpl.
    destruct (str (field "arguments" payload)); simpl; auto.
  - intros G. rewrite G. simpl.
    destruct (str (field "arguments" payload)); reflexivity.
Qed.

Lemma on_custom_tool_call_effect : start_effect on_custom_tool_call "custom_tool_call".
Proof.
  intros timestamp payload calls. unfold on_custom_tool_call.
  destruct (str (field "call_id" payload)) as [call_id|] eqn:Hid; [|right; left; auto].
  destruct (is_str (field "type" payload) "custom_tool_call") eqn:Ht; [|left; auto].
  right; right. eexists _, _. split; [reflexivity|]. split; [reflexivity|].
  split; [reflexivity|]. split.
  - intros old G. rewrite G. simpl.
    destruct (str (field "input" payload)); simpl; auto.
  - intros G. rewrite G. simpl.
    destruct (str (field "input" payload)); reflexivity.
Qed.

Lemma on_function_call_output_effect :
  result_effect on_function_call_output "function_call_output".
Proof.
  intros timestamp payload calls. unfold on_function_call_output.
  destruct (str (field "call_id" payload)) as [call_id|] eqn:Hid; [|right; left; auto].
  destruct (is_str (field "type" payload) "function_call_output") eqn:Ht; [|left; auto].
  right; right. exists call_id. split; [reflexivity|]. split; [reflexivity|].
  destruct (OMap.get call_id calls) as [old|] eqn:G; [right|left; auto].
  eexists _, _. split; [reflexivity|]. split; [reflexivity|].
  destruct (str (field "output" payload)); split; reflexivity.
Qed.

Lemma on_custom_tool_call_output_effect :
  result_effect (on_custom_tool_call_output JSON_parse) "custom_tool_call_output".
Proof.
  intros timestamp payload calls. unfold on_custom_tool_call_output.
  destruct (str (field "call_id" payload)) as [call_id|] eqn:Hid; [|right; left; auto].
  destruct (is_str (field "type" payload) "custom_tool_call_output") eqn:Ht; [|left; auto].
  right; right. exists call_id. split; [reflexivity|]. split; [reflexivity|].
  destruct (OMap.get call_id calls) as [old|] eqn:G; [right|left; auto].
  eexists _, _. split; [reflexivity|]. split; [reflexivity|].
  split; [|reflexivity]. simpl.
  destruct (toRecord (parsed_output JSON_parse payload)) as [p|];
    [destruct (str (field "output" p)) as [text|]; [destruct (Str.truthy text)|]|];
    destruct (str (field "output" payload)); reflexivity.
Qed.

Lemma start_effect_ok f variant timestamp payload calls :
  start_effect f variant -> ledger_ok calls -> ledger_ok (f timestamp payload calls).
Proof.
  intros E [Hnd Hid].
  destruct (E timestamp payload calls)
    as [[_ ->]|[[_ ->]|(cid & c & _ & _ & -> & Hold & Hnew)]]; [split; assumption..|].
  split; [apply keys_set_NoDup; assumption|].
  intros k c'. destruct (string_dec cid k) as [->|Hne].
  - rewrite get_set_eq. intros [= <-].
    destruct (OMap.get k calls) as [old|] eqn:G.
    + destruct (Hold old eq_refl) as [-> _]. apply Hid. exact G.
    + apply Hnew. reflexivity.
  - rewrite get_set_ne by assumption. apply Hid.
Qed.

Lemma result_effect_ok f variant timestamp payload calls :
  result_effect f variant -> ledger_ok calls -> ledger_ok (f timestamp payload calls).
Proof.
  intros E [Hnd Hid].
  destruct (E timestamp payload calls)
    as [[_ ->]|[[_ ->]|(cid & _ & _ & [[_ ->]|(old & c & G & -> & Hc & _)])]];
    [split; assumption..|].
  split; [apply keys_set_NoDup; assumption|].
  intros k c'. destruct (string_dec cid k) as [->|Hne].
  - rewrite get_set_eq. intros [= <-]. rewrite Hc. apply Hid. exact G.
  - rewrite get_set_ne by assumption. apply Hid.
Qed.

Lemma tool_step_ok calls event :
  ledger_ok calls -> ledger_ok (tool_step JSON_parse calls event).
Proof.
  intros H. unfold tool_step. destruct (payload_of "response_item" event); [|exact H].
  eapply result_effect_ok; [apply on_custom_tool_call_output_effect|].
  eapply start_effect_ok; [apply on_custom_tool_call_effect|].
  eapply result_effect_ok; [apply on_function_call_output_effect|].
  eapply start_effect_ok; [apply on_function_call_effect|]. exact H.
Qed.

Lemma fold_tool_step_ok events calls :
  ledger_ok calls -> ledger_ok (fold_left (tool_step JSON_parse) events calls).
Proof.
  revert calls. induction events as [|e events IH]; intros calls H; simpl; [exact H|].
  apply IH, tool_step_ok, H.
Qed.

Lemma reconcile_ok events : ledger_ok (reconcile JSON_parse events).
Proof.
  apply fold_tool_step_ok. split; [constructor|]. intros k c. discriminate.
Qed.

(** *** Completed records *)





Lemma finalize_keeps (c : ToolCall) :
  tc_id (finalize Date_getTime c) = tc_id c
  /\ tc_status (finalize Date_getTime c) = tc_status c
  /\ tc_startedAt (finalize Date_getTime c) = tc_startedAt c.
Proof.
  unfold finalize. destruct (tc_startedAt c) as [s|] eqn:Hs; [|auto].
  destruct (tc_completedAt c) as [t|]; [|auto].
  destruct (Str.truthy s && Str.truthy t); simpl; auto.
Qed.

(** The records returned are the finalized records of the ledger. *)
Lemma In_buildToolCalls events c :
  In c (toolCalls (buildToolCalls JSON_parse Date_getTime events))
  <-> exists c0, In c0 (OMap.values (reconcile JSON_parse events))
                 /\ c = finalize Date_getTime c0.
Proof.
  unfold buildToolCalls. simpl. rewrite Array_sort_In, in_map_iff.
  split; intros (c0 & H1 & H2); exists c0; auto.
Qed.

(** *** One envelope at a time *)

Lemma start_effect_off f variant timestamp payload calls :
  start_effect f variant -> is_str (field "type" payload) variant = false ->
  f timestamp payload calls = calls.
Proof.
  intros E Ht.
  destruct (E timestamp payload calls) as [[_ H]|[[_ H]|(k & c & Ht' & _)]];
    [exact H|exact H|congruence].
Qed.

Lemma result_effect_off f variant timestamp payload calls :
  result_effect f variant -> is_str (field "type" payload) variant = false ->
  f timestamp payload calls = calls.
Proof.
  intros E Ht.
  destruct (E timestamp payload calls) as [[_ H]|[[_ H]|(k & Ht' & _)]];
    [exact H|exact H|congruence].
Qed.

Lemma start_effect_on f variant timestamp payload calls cid :
  start_effect f variant -> is_str (field "type" payload) variant = true ->
  str (field "call_id" payload) = Some cid ->
  exists c, f timestamp payload calls = OMap.set cid c calls
    /\ (forall old, OMap.get cid calls = Some old ->
          tc_id c = tc_id old
          /\ tc_status c = default (tc_status old) (str (field "status" payload)))
    /\ (OMap.get cid calls = None -> tc_id c = cid).
Proof.
  intros E Ht Hid.
  destruct (E timestamp payload calls) as [[H _]|[[H _]|(k & c & _ & Hk & H)]];
    [congruence|congruence|].
  assert (k = cid) by congruence. subst k. exists c. exact H.
Qed.

Lemma result_effect_on f variant timestamp payload calls cid :
  result_effect f variant -> is_str (field "type" payload) variant = true ->
  str (field "call_id" payload) = Some cid ->
  (OMap.get cid calls = None /\ f timestamp payload calls = calls)
  \/ (exists old c, OMap.get cid calls = Some old
        /\ f timestamp payload calls = OMap.set cid c calls
        /\ tc_id c = tc_id old /\ tc_status c = "completed").
Proof.
  intros E Ht Hid.
  destruct (E timestamp payload calls) as [[H _]|[[H _]|(k & _ & Hk & H)]];
    [congruence|congruence|].
  assert (k = cid) by congruence. subst k. exact H.
Qed.

(** The variant of a payload decides the four tests of a turn. *)
Lemma variant_tests (payload : JsonRecord) (variant : string) :
  str (field "type" payload) = Some variant ->
  forall lit, is_str (field "type" payload) lit = String.eqb variant lit.
Proof. intros H lit. unfold is_str. rewrite H. reflexivity. Qed.

Lemma call_start_inv cid event :
  is_call_start cid event = true ->
  exists payload,
    payload_of "response_item" event = Some payload
    /\ str (field "call_id" payload) = Some cid
    /\ (str (field "type" payload) = Some "function_call"
        \/ str (field "type" payload) = Some "custom_tool_call").
Proof.
  unfold is_call_start. destruct (payload_of "response_item" event) as [p|]; [|discriminate].
  intros H. apply andb_true_iff in H as [Ht Hid]. exists p.
  split; [reflexivity|]. split; [apply is_str_true; exact Hid|].
  apply orb_true_iff in Ht as [Ht|Ht]; apply is_str_true in Ht; auto.
Qed.

Lemma call_result_inv cid event :
  is_call_result cid event = true ->
  exists payload,
    payload_of "response_item" event = Some payload
    /\ str (field "call_id" payload) = Some cid
    /\ (str (field "type" payload) = Some "function_call_output"
        \/ str (field "type" payload) = Some "custom_tool_call_output").
Proof.
  unfold is_call_result. destruct (payload_of "response_item" event) as [p|]; [|discriminate].
  intros H. apply andb_true_iff in H as [Ht Hid]. exists p.
  split; [reflexivity|]. split; [apply is_str_true; exact Hid|].
  apply orb_true_iff in Ht as [Ht|Ht]; apply is_str_true in Ht; auto.
Qed.

(** A call-start for an id without a record files a new record, last. *)
Lemma start_step_new calls event cid :
  is_call_start cid event = true -> OMap.get cid calls = None ->
  exists c, tool_step JSON_parse calls event = (calls ++ [(cid, c)])%list /\ tc_id c = cid.
Proof.
  intros Hs G. destruct (call_start_inv _ _ Hs) as (p & Hp & Hid & Ht).
  unfold tool_step. rewrite Hp.
  pose proof (variant_tests p) as V.
  destruct Ht as [Ht|Ht]; specialize (V _ Ht).
  - destruct (start_effect_on _ _ (event_timestamp event) p calls cid
                on_function_call_effect) as (c & -> & _ & Hnew);
      [rewrite V; reflexivity|exact Hid|].
    rewrite (result_effect_off _ _ _ _ _ on_function_call_output_effect)
      by (rewrite V; reflexivity).
    rewrite (start_effect_off _ _ _ _ _ on_custom_tool_call_effect)
      by (rewrite V; reflexivity).
    rewrite (result_effect_off _ _ _ _ _ on_custom_tool_call_output_effect)
      by (rewrite V; reflexivity).
    exists c. rewrite set_new by exact G. auto.
  - rewrite (start_effect_off _ _ _ _ _ on_function_call_effect)
      by (rewrite V; reflexivity).
    rewrite (result_effect_off _ _ _ _ _ on_function_call_output_effect)
      by (rewrite V; reflexivity).
    destruct (start_effect_on _ _ (event_timestamp event) p calls cid
                on_custom_tool_call_effect) as (c & -> & _ & Hnew);
      [rewrite V; reflexivity|exact Hid|].
    rewrite (result_effect_off _ _ _ _ _ on_custom_tool_call_output_effect)
      by (rewrite V; reflexivity).
    exists c. rewrite set_new by exact G. auto.
Qed.

(** What a call-result does, by whether the ledger has a record of
    its id: nothing without one, completion with one. *)
Lemma result_step calls event cid :
  is_call_result cid event = true ->
  (OMap.get cid calls = None /\ tool_step JSON_parse calls event = calls)
  \/ (exists old c, OMap.get cid calls = Some old
        /\ tool_step JSON_parse calls event = OMap.set cid c calls
        /\ tc_id c = tc_id old /\ tc_status c = "completed").
Proof.
  intros Hr. destruct (call_result_inv _ _ Hr) as (p & Hp & Hid & Ht).
  unfold tool_step. rewrite Hp.
  pose proof (variant_tests p) as V.
  destruct Ht as [Ht|Ht]; specialize (V _ Ht).
  - rewrite (start_effect_off _ _ _ _ _ on_function_call_effect)
      by (rewrite V; reflexivity).
    destruct (result_effect_on _ _ (event_timestamp event) p calls cid
                on_function_call_output_effect) as [[G E]|(old & c & G & E & H)];
      [rewrite V; reflexivity|exact Hid| |]; rewrite E.
    + rewrite (start_effect_off _ _ _ _ _ on_custom_tool_call_effect)
        by (rewrite V; reflexivity).
      rewrite (result_effect_off _ _ _ _ _ on_custom_tool_call_output_effect)
        by (rewrite V; reflexivity).
      left. auto.
    + rewrite (start_effect_off _ _ _ _ _ on_custom_tool_call_effect)
        by (rewrite V; reflexivity).
      rewrite (result_effect_off _ _ _ _ _ on_custom_tool_call_output_effect)
        by (rewrite V; reflexivity).
      right. exists old, c. auto.
  - rewrite (start_effect_off _ _ _ _ _ on_function_call_effect)
      by (rewrite V; reflexivity).
    rewrite (result_effect_off _ _ _ _ _ on_function_call_output_effect)
      by (rewrite V; reflexivity).
    rewrite (start_effect_off _ _ _ _ _ on_custom_tool_call_effect)
      by (rewrite V; reflexivity).
    destruct (result_effect_on _ _ (event_timestamp event) p calls cid
                on_custom_tool_call_output_effect) as [[G E]|(old & c & G & E & H)];
      [rewrite V; reflexivity|exact Hid| |]; rewrite E.
    + left. auto.
    + right. exists old, c. auto.
Qed.

(** C1, as amended. For every correlation id, every call-start envelope
    and every call-result envelope of that id: start-then-result yields
    one record, completed; result-then-start yields one record too, and
    it is the record that the call-start alone yields, because a
    call-result that finds no record of its id is ignored (no stub is
    made); a call-result alone yields no record. *)
Theorem reconcile_pair_either_order (cid : string) (s r : CodexEvent) :
  is_call_start cid s = true ->
  is_call_result cid r = true ->
  (exists c, toolCalls (buildToolCalls JSON_parse Date_getTime [s; r]) = [c]
             /\ tc_id c = cid /\ tc_status c = "completed")
  /\ buildToolCalls JSON_parse Date_getTime [r; s] = buildToolCalls JSON_parse Date_getTime [s]
  /\ (exists c, toolCalls (buildToolCalls JSON_parse Date_getTime [r; s]) = [c] /\ tc_id c = cid)
  /\ toolCalls (buildToolCalls JSON_parse Date_getTime [r]) = [].
Proof.
  intros Hs Hr.
  destruct (start_step_new [] s cid Hs eq_refl) as (c0 & E0 & Hc0). simpl in E0.
  assert (Er : tool_step JSON_parse [] r = []).
  { destruct (result_step [] r cid Hr) as [[_ E]|(old & c & G & _)]; [exact E|discriminate]. }
  assert (Esr : exists c1, tool_step JSON_parse [(cid, c0)] r = [(cid, c1)]
                           /\ tc_id c1 = cid /\ tc_status c1 = "completed").
  { destruct (result_step [(cid, c0)] r cid Hr) as [[G _]|(old & c & G & E & Hid & Hst)].
    - simpl in G. rewrite String.eqb_refl in G. discriminate.
    - simpl in G, E. rewrite String.eqb_refl in G, E. injection G as <-.
      exists c. split; [exact E|]. split; [congruence|exact Hst]. }
  destruct Esr as (c1 & E1 & Hid1 & Hst1).
  destruct (finalize_keeps c1) as (Fid1 & Fst1 & _).
  destruct (finalize_keeps c0) as (Fid0 & _ & _).
  assert (Ers : buildToolCalls JSON_parse Date_getTime [r; s]
                = buildToolCalls JSON_parse Date_getTime [s]).
  { unfold buildToolCalls, reconcile. simpl. rewrite Er. reflexivity. }
  split; [|split; [exact Ers|split]].
  - exists (finalize Date_getTime c1).
    unfold buildToolCalls, reconcile. simpl. rewrite E0, E1.
    split; [reflexivity|]. split; congruence.
  - exists (finalize Date_getTime c0). rewrite Ers.
    unfold buildToolCalls, reconcile. simpl. rewrite E0.
    split; [reflexivity|congruence].
  - unfold buildToolCalls, reconcile. simpl. rewrite Er. reflexivity.
Qed.


(** *** The final order *)






End ReconcilerFacts.

(** C1, counterexample. A call-start at [t1] and its call-result at
    [t2]: fed start first, the record is completed, with the output and a
    duration of 2500 ms; fed result first, the record is the one of the
    call-start alone, in progress. The two final records differ. *)
Lemma pair_order_matters :
  let s := Sample.function_call (Some Sample.t1) "c1" in
  let r := Sample.function_call_output (Some Sample.t2) "c1" in
  toolCalls (buildToolCalls Reference.JSON_parse Reference.Date_getTime [s; r])
  = [ {| tc_id := "c1"; tc_name := "shell"; tc_toolKind := KindFunction;
         tc_status := "completed"; tc_input := Some "{}"; tc_output := Some "ok";
         tc_metadata := None; tc_startedAt := Some Sample.t1;
         tc_completedAt := Some Sample.t2; tc_durationMs := Some (Some 2500%Z) |} ]
  /\ toolCalls (buildToolCalls Reference.JSON_parse Reference.Date_getTime [r; s])
     = [ {| tc_id := "c1"; tc_name := "shell"; tc_toolKind := KindFunction;
            tc_status := "in_progress"; tc_input := Some "{}"; tc_output := None;
            tc_metadata := None; tc_startedAt := Some Sample.t1;
            tc_completedAt := None; tc_durationMs := None |} ]
  /\ toolCalls (buildToolCalls Reference.JSON_parse Reference.Date_getTime [s; r])
     <> toolCalls (buildToolCalls Reference.JSON_parse Reference.Date_getTime [r; s]).
Proof.
  split; [vm_compute; reflexivity|]. split; [vm_compute; reflexivity|].
  vm_compute. intros H. discriminate H.
Qed.

(** C1, on a function call at [t1] and its output at [t2]. *)
Lemma reconcile_pair_either_order_witness :
  let s := Sample.function_call (Some Sample.t1) "c1" in
  let r := Sample.function_call_output (Some Sample.t2) "c1" in
  is_call_start "c1" s = true
  /\ is_call_result "c1" r = true
  /\ buildToolCalls Reference.JSON_parse Reference.Date_getTime [r; s]
     = buildToolCalls Reference.JSON_parse Reference.Date_getTime [s]
  /\ toolCalls (buildToolCalls Reference.JSON_parse Reference.Date_getTime [r]) = [].
Proof.
  intros s r.
  assert (Hs : is_call_start "c1" s = true) by reflexivity.
  assert (Hr : is_call_result "c1" r = true) by reflexivity.
  split; [exact Hs|]. split; [exact Hr|].
  destruct (reconcile_pair_either_order Reference.JSON_parse Reference.Date_getTime
              "c1" s r Hs Hr) as (_ & H1 & _ & H2).
  split; [exact H1|exact H2].
Defined.





(** With a record without [startedAt] between two records that have one,
    the comparator is no order (it answers 0 twice along the chain and
    -1 across it): the standard leaves the arrangement to the engine, and
    the sort as rendered here leaves the three records as they stand. *)
Example untimestamped_record_between :
  map tc_id
    (toolCalls (buildToolCalls Reference.JSON_parse Reference.Date_getTime
                  [Sample.function_call (Some Sample.t2) "c1"; Sample.function_call None "c2";
                   Sample.function_call (Some Sample.t1) "c3"]))
  = ["c1"; "c2"; "c3"].
Proof. vm_compute. reflexivity. Qed.

(** ** Token timeline builder *)

Section TimelineFacts.

Variable Date_getTime : string -> option Z.

Lemma timeline_points_from (events : list CodexEvent) (points : list TokenTimelinePoint) :
  fold_left
    (fun (points : list TokenTimelinePoint) event =>
       match timeline_point Date_getTime event with
       | Some p => (points ++ [p])%list
       | None => points
       end) events points
  = (points ++ omap (timeline_point Date_getTime) events)%list.
Proof.
  revert points. induction events as [|e events IH]; intros points; simpl.
  - rewrite app_nil_r. reflexivity.
  - rewrite IH. destruct (timeline_point Date_getTime e); simpl; [|reflexivity].
    rewrite <- app_assoc. reflexivity.
Qed.

(** The points before the sort: one for each usage report, in log order. *)
Lemma timeline_points_omap (events : list CodexEvent) :
  timeline_points Date_getTime events = omap (timeline_point Date_getTime) events.
Proof. unfold timeline_points. rewrite timeline_points_from. reflexivity. Qed.

Lemma timeline_point_Some (event : CodexEvent) :
  is_usage_report event = true ->
  exists p, timeline_point Date_getTime event = Some p
            /\ tp_timestamp p = timeline_stamp event
            /\ tp_timestampMs p = Date_getTime (timeline_stamp event).
Proof.
  unfold is_usage_report, timeline_point.
  destruct (usage_report event) as [[info total]|]; [|discriminate].
  intros _. eexists. split; [reflexivity|]. split; reflexivity.
Qed.

Lemma timeline_point_None (event : CodexEvent) :
  is_usage_report event = false -> timeline_point Date_getTime event = None.
Proof.
  unfold is_usage_report, timeline_point.
  destruct (usage_report event) as [[info total]|]; [discriminate|reflexivity].
Qed.

Lemma timeline_points_length (events : list CodexEvent) :
  length (omap (timeline_point Date_getTime) events)
  = length (List.filter is_usage_report events).
Proof.
  induction events as [|e events IH]; simpl; [reflexivity|].
  destruct (is_usage_report e) eqn:U.
  - destruct (timeline_point_Some e U) as (p & -> & _). simpl. f_equal. exact IH.
  - rewrite (timeline_point_None e U). exact IH.
Qed.

Lemma by_timestampMs_neg (x e : TokenTimelinePoint) :
  tp_timestampMs x <> None -> tp_timestampMs e <> None ->
  (by_timestampMs x e < 0)%Z -> ms_le x e.
Proof.
  unfold by_timestampMs, ms_le.
  destruct (tp_timestampMs x), (tp_timestampMs e); simpl; try congruence. lia.
Qed.

Lemma by_timestampMs_nonneg (x e : TokenTimelinePoint) :
  tp_timestampMs x <> None -> tp_timestampMs e <> None ->
  ~ (by_timestampMs x e < 0)%Z -> ms_le e x.
Proof.
  unfold by_timestampMs, ms_le.
  destruct (tp_timestampMs x), (tp_timestampMs e); simpl; try congruence. lia.
Qed.

(** C4, as amended. For every event sequence in which the timestamp of
    each usage-report envelope is absent or parses (the runtime reads a
    time from it, as it does from the epoch that stands in for an absent
    one), the timeline returned is non-decreasing in [timestampMs]: each
    point is at or before its right neighbour. *)
Theorem timeline_ascending (events : list CodexEvent) :
  (forall e, In e events -> is_usage_report e = true ->
             Date_getTime (timeline_stamp e) <> None) ->
  Sorted ms_le (buildTokenTimeline Date_getTime events).
Proof.
  intros Hparse. unfold buildTokenTimeline. rewrite timeline_points_omap.
  apply (Array_sort_sorted by_timestampMs (fun p => tp_timestampMs p <> None) ms_le);
    [exact by_timestampMs_neg|exact by_timestampMs_nonneg|].
  apply Forall_forall. intros p Hp.
  apply list_elem_of_omap in Hp as (e & He & Hpe).
  apply (proj1 (list_elem_of_In _ _)) in He.
  destruct (is_usage_report e) eqn:U.
  - destruct (timeline_point_Some e U) as (p' & Hp' & _ & Hms).
    assert (p' = p) by congruence. subst p'. rewrite Hms. apply Hparse; assumption.
  - rewrite (timeline_point_None e U) in Hpe. discriminate.
Qed.

End TimelineFacts.

(** C3, counterexample. A usage report without a timestamp and one whose
    timestamp does not parse: each contributes a point, the first stamped
    with the epoch (time 0), the second with its own text and a NaN
    time. *)
Lemma untimed_usage_report_is_kept :
  buildTokenTimeline Reference.Date_getTime
    [Sample.token_count None (Sample.usage 80 30 20 0 100)]
  = [ {| tp_timestamp := epochISO; tp_timestampMs := Some 0%Z;
         tp_totalTokens := Some 100%Z; tp_inputTokens := Some 80%Z;
         tp_cachedTokens := Some 30%Z; tp_userTokens := Some 50%Z;
         tp_outputTokens := Some 20%Z; tp_reasoningTokens := Some 0%Z;
         tp_contextWindow := Some 272000%Z |} ]
  /\ buildTokenTimeline Reference.Date_getTime
       [Sample.token_count (Some "not a date") (Sample.usage 80 30 20 0 100)]
     = [ {| tp_timestamp := "not a date"; tp_timestampMs := None;
            tp_totalTokens := Some 100%Z; tp_inputTokens := Some 80%Z;
            tp_cachedTokens := Some 30%Z; tp_userTokens := Some 50%Z;
            tp_outputTokens := Some 20%Z; tp_reasoningTokens := Some 0%Z;
            tp_contextWindow := Some 272000%Z |} ].
Proof. split; vm_compute; reflexivity. Qed.

(** C4, counterexample. Two usage reports, one with a timestamp that does
    not parse: the timeline holds a point whose time is NaN beside a point
    with a time, in either order of the log, and no comparison with NaN
    holds. *)
Lemma unparsed_timestamp_breaks_order :
  let bad := Sample.token_count (Some "not a date") (Sample.usage 80 30 20 0 100) in
  let good := Sample.token_count (Some Sample.t1) (Sample.usage 120 30 30 0 150) in
  map tp_timestampMs (buildTokenTimeline Reference.Date_getTime [bad; good])
  = [None; Some 1735787045000%Z]
  /\ ~ Sorted ms_le (buildTokenTimeline Reference.Date_getTime [bad; good])
  /\ map tp_timestampMs (buildTokenTimeline Reference.Date_getTime [good; bad])
     = [Some 1735787045000%Z; None]
  /\ ~ Sorted ms_le (buildTokenTimeline Reference.Date_getTime [good; bad]).
Proof.
  split; [vm_compute; reflexivity|]. split.
  { intros H. vm_compute in H. inversion H as [|? ? _ Hhd]. inversion Hhd as [|? ? Hle].
    exact Hle. }
  split; [vm_compute; reflexivity|].
  intros H. vm_compute in H. inversion H as [|? ? _ Hhd]. inversion Hhd as [|? ? Hle].
  exact Hle.
Qed.

(** C4, on three usage reports out of order, one without a timestamp. *)
Lemma timeline_ascending_witness :
  let events := [Sample.token_count (Some Sample.t2) (Sample.usage 120 30 30 0 150);
                 Sample.function_call (Some Sample.t1) "c1";
                 Sample.token_count None (Sample.usage 10 0 5 0 15);
                 Sample.token_count (Some Sample.t1) (Sample.usage 80 30 20 0 100)] in
  map tp_timestampMs (buildTokenTimeline Reference.Date_getTime events)
  = [Some 0%Z; Some 1735787045000%Z; Some 1735787047500%Z]
  /\ Sorted ms_le (buildTokenTimeline Reference.Date_getTime events).
Proof.
  intros events. split; [vm_compute; reflexivity|].
  apply (timeline_ascending Reference.Date_getTime events).
  intros e [<-|[<-|[<-|[<-|[]]]]]; vm_compute; congruence.
Defined.

(** ** Session summary builder *)

Lemma payload_of_other (event : CodexEvent) (a b : string) :
  is_str (field "type" event) a = true -> a <> b -> payload_of b event = None.
Proof.
  intros Ha Hne. unfold payload_of. rewrite (is_str_other _ a b Ha Hne). reflexivity.
Qed.

(** The start branches add the id of the envelope to the keys. *)
Lemma start_effect_keys f variant timestamp payload calls :
  start_effect f variant ->
  (list_to_set (OMap.keys (f timestamp payload calls)) : gset string)
  = (if is_str (field "type" payload) variant
     then match str (field "call_id" payload) with
          | Some call_id => {[ call_id ]}
          | None => ∅
          end
     else ∅) ∪ list_to_set (OMap.keys calls).
Proof.
  intros E.
  destruct (E timestamp payload calls)
    as [[Ht ->]|[[Hid ->]|(cid & c & Ht & Hid & -> & _)]].
  - rewrite Ht. symmetry. apply (left_id_L ∅ (∪)).
  - rewrite Hid. destruct (is_str _ _); symmetry; apply (left_id_L ∅ (∪)).
  - rewrite Ht, Hid. apply keys_set_set.
Qed.

(** The result branches leave the keys as they are. *)
Lemma result_effect_keys f variant timestamp payload calls :
  result_effect f variant ->
  OMap.keys (f timestamp payload calls) = OMap.keys calls.
Proof.
  intros E.
  destruct (E timestamp payload calls)
    as [[_ ->]|[[_ ->]|(cid & _ & _ & [[_ ->]|(old & c & G & -> & _)])]];
    try reflexivity.
  apply set_known. congruence.
Qed.

Section SummaryFacts.

Variable JSON_parse : string -> option json.
Variable Date_getTime : string -> option Z.
Variable path_relative : string -> string -> string.
Variable CODEX_ROOT : string.

Lemma tool_step_keys (calls : OMap.t ToolCall) (event : CodexEvent) :
  (list_to_set (OMap.keys (tool_step JSON_parse calls event)) : gset string)
  = started_ids event ∪ list_to_set (OMap.keys calls).
Proof.
  unfold tool_step, started_ids, call_start_id, is_call_start_type.
  destruct (payload_of "response_item" event) as [p|];
    [|symmetry; apply (left_id_L ∅ (∪))].
  rewrite (result_effect_keys _ _ _ _ _ (on_custom_tool_call_output_effect JSON_parse)).
  rewrite (start_effect_keys _ _ _ _ _ on_custom_tool_call_effect).
  rewrite (result_effect_keys _ _ _ _ _ on_function_call_output_effect).
  rewrite (start_effect_keys _ _ _ _ _ on_function_call_effect).
  destruct (is_str (field "type" p) "function_call"),
           (is_str (field "type" p) "custom_tool_call"),
           (str (field "call_id" p)); simpl; set_solver.
Qed.

Lemma note_timestamp_keeps (st : SummaryState) (event : CodexEvent) :
  st_toolCalls (note_timestamp st event) = st_toolCalls st
  /\ st_preview (note_timestamp st event) = st_preview st
  /\ st_meta (note_timestamp st event) = st_meta st
  /\ st_tokens (note_timestamp st event) = st_tokens st.
Proof.
  unfold note_timestamp. destruct (event_timestamp event) as [ts|]; [|auto].
  destruct (Str.truthy ts); auto.
Qed.

Lemma on_session_meta_keeps (st : SummaryState) (event : CodexEvent) :
  st_toolCalls (on_session_meta st event) = st_toolCalls st
  /\ st_preview (on_session_meta st event) = st_preview st.
Proof.
  unfold on_session_meta. destruct (toRecord (field "payload" event)); auto.
Qed.

Lemma on_event_msg_keeps (st : SummaryState) (event : CodexEvent) :
  st_toolCalls (on_event_msg st event) = st_toolCalls st
  /\ st_preview (on_event_msg st event) = st_preview st
  /\ st_meta (on_event_msg st event) = st_meta st.
Proof.
  unfold on_event_msg. destruct (toRecord (field "payload" event)) as [p|]; [|auto].
  destruct (is_str (field "type" p) "token_count"); [|auto].
  destruct (field "info" p) as [info|]; [|auto].
  destruct (truthy_json info); auto.
Qed.

(** The turn of the summary loop, by the kind of the envelope. *)
Lemma summary_step_cases (st : SummaryState) (event : CodexEvent) :
  let st0 := note_timestamp st event in
  (is_str (field "type" event) "session_meta" = true
   /\ summary_step st event = on_session_meta st0 event)
  \/ (exists payload, payload_of "response_item" event = Some payload
        /\ summary_step st event = on_response_item st0 payload)
  \/ (payload_of "response_item" event = None
      /\ (summary_step st event = st0 \/ summary_step st event = on_event_msg st0 event)).
Proof.
  simpl. unfold summary_step, payload_of.
  destruct (is_str (field "type" event) "session_meta") eqn:Hm; [left; auto|right].
  destruct (is_str (field "type" event) "response_item") eqn:Hr.
  - destruct (toRecord (field "payload" event)) as [p|]; [left|right; auto].
    exists p. split; [reflexivity|].
    rewrite (is_str_other _ "response_item" "event_msg" Hr); [reflexivity|discriminate].
  - right. split; [reflexivity|].
    destruct (is_str (field "type" event) "event_msg"); auto.
Qed.

Lemma summary_step_toolCalls (st : SummaryState) (event : CodexEvent) :
  st_toolCalls (summary_step st event) = started_ids event ∪ st_toolCalls st.
Proof.
  destruct (note_timestamp_keeps st event) as (Hn & _).
  unfold started_ids, call_start_id.
  destruct (summary_step_cases st event) as [[Hm ->]|[(p & Hp & ->)|[Hp [->| ->]]]].
  - rewrite (payload_of_other event "session_meta" "response_item" Hm) by discriminate.
    rewrite (proj1 (on_session_meta_keeps _ _)), Hn. symmetry. apply (left_id_L ∅ (∪)).
  - rewrite Hp. unfold on_response_item. simpl. rewrite Hn.
    destruct (str (field "call_id" p)), (is_call_start_type (field "type" p));
      try reflexivity; symmetry; apply (left_id_L ∅ (∪)).
  - rewrite Hp, Hn. symmetry. apply (left_id_L ∅ (∪)).
  - rewrite Hp, (proj1 (on_event_msg_keeps _ _)), Hn. symmetry. apply (left_id_L ∅ (∪)).
Qed.

(** The set of the summary and the keys of the ledger grow together. *)
Lemma summary_and_ledger (events : list CodexEvent) (st : SummaryState)
    (calls : OMap.t ToolCall) :
  st_toolCalls st = list_to_set (OMap.keys calls) ->
  st_toolCalls (fold_left summary_step events st)
  = list_to_set (OMap.keys (fold_left (tool_step JSON_parse) events calls)).
Proof.
  revert st calls. induction events as [|e events IH]; intros st calls H; simpl; [exact H|].
  apply IH. rewrite summary_step_toolCalls, tool_step_keys, H. reflexivity.
Qed.

Lemma summary_toolCalls_ids (events : list CodexEvent) (st : SummaryState) :
  st_toolCalls (fold_left summary_step events st)
  = list_to_set (omap call_start_id events) ∪ st_toolCalls st.
Proof.
  revert st. induction events as [|e events IH]; intros st; simpl.
  - symmetry. apply (left_id_L ∅ (∪)).
  - rewrite IH, summary_step_toolCalls. unfold started_ids.
    destruct (call_start_id e); simpl; set_solver.
Qed.

(** C9. For every event sequence for which the summary builder yields a
    summary, its [toolCallCount] is the number of records that the
    reconciler returns for the same sequence (and the count it reports),
    and both are the number of distinct ids brought by the
    [function_call] and [custom_tool_call] envelopes. *)
Theorem summary_counts_reconciled_calls (sessionId filePath : string)
    (events : list CodexEvent) (summary : SessionSummary) :
  summarize path_relative CODEX_ROOT sessionId filePath events = Some summary ->
  ss_toolCallCount summary
  = length (toolCalls (buildToolCalls JSON_parse Date_getTime events))
  /\ ss_toolCallCount summary = toolCallCount (buildToolCalls JSON_parse Date_getTime events)
  /\ ss_toolCallCount summary
     = size (list_to_set (omap call_start_id events) : gset string).
Proof.
  unfold summarize.
  destruct (st_meta (fold_left summary_step events initialSummaryState)); [|discriminate].
  intros [= <-]. simpl.
  rewrite Array_sort_length, length_map.
  assert (H : size (st_toolCalls (fold_left summary_step events initialSummaryState))
              = length (OMap.values (reconcile JSON_parse events))).
  { rewrite (summary_and_ledger events initialSummaryState []) by reflexivity.
    rewrite size_list_to_set by apply (reconcile_ok JSON_parse events).
    unfold OMap.keys, OMap.values. rewrite !length_map. reflexivity. }
  split; [exact H|]. split; [exact H|].
  rewrite summary_toolCalls_ids. simpl. rewrite (right_id_L ∅ (∪)). reflexivity.
Qed.

(** *** The preview *)

Lemma length_app_string (a b : string) :
  String.length (a ++ b) = (String.length a + String.length b)%nat.
Proof. induction a as [|c a IH]; simpl; [reflexivity|]. rewrite IH. reflexivity. Qed.

Lemma length_substring_front (m : nat) (s : string) :
  String.length (substring 0 m s) = Nat.min m (String.length s).
Proof.
  revert s. induction m as [|m IH]; intros s; destruct s as [|c s]; simpl; try reflexivity.
  rewrite IH. reflexivity.
Qed.

(** The preview fits the display: 180 code units at most. *)
Lemma composePreview_length (text : string) :
  (String.length (composePreview text) <= 180)%nat.
Proof.
  unfold composePreview. destruct (negb (Str.truthy text)); [simpl; lia|].
  destruct (180 <? String.length (Str.trim (Str.collapse_spaces text)))%nat eqn:E.
  - rewrite length_app_string, length_substring_front.
    change (String.length "...") with 3%nat. lia.
  - apply Nat.ltb_ge in E. exact E.
Qed.

(** A text that is too long is cut to 177 code units and an ellipsis. *)
Lemma composePreview_truncates (text : string) :
  Str.truthy text = true ->
  (180 < String.length (Str.trim (Str.collapse_spaces text)))%nat ->
  composePreview text = substring 0 177 (Str.trim (Str.collapse_spaces text)) ++ "..."
  /\ String.length (composePreview text) = 180%nat.
Proof.
  intros Ht Hlen. unfold composePreview. rewrite Ht. simpl.
  apply Nat.ltb_lt in Hlen as E. rewrite E. split; [reflexivity|].
  rewrite length_app_string, length_substring_front.
  change (String.length "...") with 3%nat. lia.
Qed.

Lemma summary_step_preview_other (st : SummaryState) (event : CodexEvent) :
  user_message_content event = None ->
  st_preview (summary_step st event) = st_preview st.
Proof.
  intros Hu. destruct (note_timestamp_keeps st event) as (_ & Hn & _).
  unfold user_message_content in Hu.
  destruct (summary_step_cases st event) as [[Hm ->]|[(p & Hp & ->)|[Hp [->| ->]]]].
  - rewrite (proj2 (on_session_meta_keeps _ _)). exact Hn.
  - rewrite Hp in Hu. unfold on_response_item. simpl.
    destruct (is_str (field "type" p) "message" && is_str (field "role" p) "user");
      [discriminate|]. simpl. exact Hn.
  - exact Hn.
  - rewrite (proj1 (proj2 (on_event_msg_keeps _ _))). exact Hn.
Qed.

Lemma summary_step_preview_set (st : SummaryState) (event : CodexEvent)
    (content : option json) :
  user_message_content event = Some content ->
  st_preview st = "" ->
  st_preview (summary_step st event) = composePreview (extractText content).
Proof.
  intros Hu He. destruct (note_timestamp_keeps st event) as (_ & Hn & _).
  unfold user_message_content in Hu.
  destruct (summary_step_cases st event) as [[Hm ->]|[(p & Hp & ->)|[Hp _]]].
  - rewrite (payload_of_other event "session_meta" "response_item" Hm) in Hu
      by discriminate. discriminate.
  - rewrite Hp in Hu. unfold on_response_item. simpl.
    destruct (is_str (field "type" p) "message" && is_str (field "role" p) "user");
      [|discriminate].
    injection Hu as <-. rewrite Hn, He. reflexivity.
  - rewrite Hp in Hu. discriminate.
Qed.

Lemma summary_step_preview_sticky (st : SummaryState) (event : CodexEvent) :
  Str.truthy (st_preview st) = true ->
  st_preview (summary_step st event) = st_preview st.
Proof.
  intros Ht. destruct (note_timestamp_keeps st event) as (_ & Hn & _).
  destruct (summary_step_cases st event) as [[Hm ->]|[(p & Hp & ->)|[Hp [->| ->]]]].
  - rewrite (proj2 (on_session_meta_keeps _ _)). exact Hn.
  - unfold on_response_item. simpl. rewrite Hn, Ht, andb_false_r. reflexivity.
  - exact Hn.
  - rewrite (proj1 (proj2 (on_event_msg_keeps _ _))). exact Hn.
Qed.

Lemma fold_preview_other (events : list CodexEvent) (st : SummaryState) :
  (forall e, In e events -> user_message_content e = None) ->
  st_preview (fold_left summary_step events st) = st_preview st.
Proof.
  revert st. induction events as [|e events IH]; intros st H; simpl; [reflexivity|].
  rewrite IH by (intros e' He'; apply H; right; exact He').
  apply summary_step_preview_other, H. left. reflexivity.
Qed.

Lemma fold_preview_sticky (events : list CodexEvent) (st : SummaryState) :
  Str.truthy (st_preview st) = true ->
  st_preview (fold_left summary_step events st) = st_preview st.
Proof.
  revert st. induction events as [|e events IH]; intros st H; simpl; [reflexivity|].
  rewrite IH by (rewrite summary_step_preview_sticky; assumption).
  apply summary_step_preview_sticky, H.
Qed.

(** C8. In a log whose first message of the user has a rich content made
    of the text segments ["  Hello"] and ["world  "], the preview of the
    summary is ["Hello world"]: the texts of the segments are joined, the
    white space is collapsed to single spaces and trimmed. Whatever the
    text, the preview has 180 code units at most, and a text that stays
    longer than that once cleaned is cut to its first 177 code units and
    an ellipsis. *)
Theorem preview_of_first_user_message (sessionId filePath : string)
    (before after : list CodexEvent) (message : CodexEvent) (chunks : list json)
    (summary : SessionSummary) :
  (forall e, In e before -> user_message_content e = None) ->
  user_message_content message = Some (Some (JArr chunks)) ->
  map chunk_text chunks = ["  Hello"; "world  "] ->
  summarize path_relative CODEX_ROOT sessionId filePath (before ++ message :: after)
  = Some summary ->
  ss_preview summary = "Hello world"
  /\ (forall text, (String.length (composePreview text) <= 180)%nat)
  /\ (forall text, Str.truthy text = true ->
        (180 < String.length (Str.trim (Str.collapse_spaces text)))%nat ->
        composePreview text = substring 0 177 (Str.trim (Str.collapse_spaces text)) ++ "...").
Proof.
  intros Hbefore Hmsg Hchunks Hsum.
  split; [|split; [exact composePreview_length|]].
  - unfold summarize in Hsum.
    destruct (st_meta (fold_left summary_step (before ++ message :: after)
                         initialSummaryState)); [|discriminate].
    injection Hsum as <-. simpl.
    rewrite fold_left_app. simpl.
    assert (Hset : st_preview
                     (summary_step (fold_left summary_step before initialSummaryState) message)
                   = "Hello world").
    { rewrite (summary_step_preview_set _ _ _ Hmsg)
        by (rewrite fold_preview_other by exact Hbefore; reflexivity).
      unfold extractText. rewrite Hchunks. vm_compute. reflexivity. }
    rewrite fold_preview_sticky; rewrite Hset; reflexivity.
  - intros text Ht Hlen. apply composePreview_truncates; assumption.
Qed.

(** *** The summary and the timestamps *)

(** Evaluates the right-hand side of an equation among the hypotheses. *)
Ltac compute_rhs H :=
  match type of H with
  | _ = ?r => let v := eval vm_compute in r in change r with v in H
  end.

(** The turn of the loop reads the timestamp of the envelope for the time
    bounds only: what it gathers besides depends on the kind and the
    payload. *)
Lemma summary_step_blind (st st' : SummaryState) (e e' : CodexEvent) :
  content_of st = content_of st' -> same_content e e' ->
  content_of (summary_step st e) = content_of (summary_step st' e').
Proof.
  unfold content_of, same_content. intros Hc [Ht Hp].
  injection Hc as Hmeta Hpreview Htokens Hwindow Hcalls.
  assert (Hn : forall s ev, content_of (note_timestamp s ev) = content_of s).
  { intros s ev. unfold content_of, note_timestamp.
    destruct (event_timestamp ev) as [ts|]; [|reflexivity].
    destruct (Str.truthy ts); reflexivity. }
  pose proof (Hn st e) as H1. pose proof (Hn st' e') as H2.
  unfold content_of in H1, H2.
  injection H1 as M1 P1 T1 W1 C1. injection H2 as M2 P2 T2 W2 C2.
  unfold summary_step, on_session_meta, on_response_item, on_event_msg.
  rewrite <- Ht, <- Hp.
  assert (Hsame : (st_meta (note_timestamp st e), st_preview (note_timestamp st e),
                   st_tokens (note_timestamp st e), st_contextWindow (note_timestamp st e),
                   st_toolCalls (note_timestamp st e))
                  = (st_meta (note_timestamp st' e'), st_preview (note_timestamp st' e'),
                     st_tokens (note_timestamp st' e'),
                     st_contextWindow (note_timestamp st' e'),
                     st_toolCalls (note_timestamp st' e'))).
  { rewrite M1, P1, T1, W1, C1, M2, P2, T2, W2, C2, Hmeta, Hpreview, Htokens, Hwindow, Hcalls.
    reflexivity. }
  assert (Hgo : forall (meta meta' : option JsonRecord) (tokens tokens' : option json)
                       (window window' : option Z),
             meta = meta' -> tokens = tokens' -> window = window' ->
             (meta, st_preview (note_timestamp st e), tokens, window,
              st_toolCalls (note_timestamp st e))
             = (meta', st_preview (note_timestamp st' e'), tokens', window',
                st_toolCalls (note_timestamp st' e'))).
  { intros; subst. rewrite P1, C1, P2, C2, Hpreview, Hcalls. reflexivity. }
  destruct (is_str (field "type" e) "session_meta").
  { destruct (toRecord (field "payload" e)); simpl; [|exact Hsame].
    apply Hgo; [reflexivity|rewrite T1, T2; exact Htokens|rewrite W1, W2; exact Hwindow]. }
  destruct (is_str (field "type" e) "response_item").
  - destruct (toRecord (field "payload" e)) as [p|]; [|exact Hsame].
    assert (Hresp : content_of (on_response_item (note_timestamp st e) p)
                    = content_of (on_response_item (note_timestamp st' e') p)).
    { unfold content_of, on_response_item. simpl.
      rewrite M1, P1, T1, W1, C1, M2, P2, T2, W2, C2, Hmeta, Hpreview, Htokens, Hwindow, Hcalls.
      reflexivity. }
    unfold content_of, on_response_item in Hresp. simpl in Hresp.
    destruct (is_str (field "type" e) "event_msg"); simpl; [|exact Hresp].
    destruct (is_str (field "type" p) "token_count"); [|exact Hresp].
    destruct (field "info" p) as [info|]; [|exact Hresp].
    destruct (truthy_json info); simpl; [|exact Hresp].
    injection Hresp as _ Hpr _ _ Hcl. rewrite Hpr, Hcl.
    rewrite M1, M2, Hmeta. reflexivity.
  - destruct (is_str (field "type" e) "event_msg"); [|exact Hsame].
    destruct (toRecord (field "payload" e)) as [p|]; [|exact Hsame].
    destruct (is_str (field "type" p) "token_count"); [|exact Hsame].
    destruct (field "info" p) as [info|]; [|exact Hsame].
    destruct (truthy_json info); simpl; [|exact Hsame].
    apply Hgo; [rewrite M1, M2; exact Hmeta|reflexivity|reflexivity].
Qed.

Lemma summary_fold_blind (events events' : list CodexEvent) (st st' : SummaryState) :
  Forall2 same_content events events' -> content_of st = content_of st' ->
  content_of (fold_left summary_step events st)
  = content_of (fold_left summary_step events' st').
Proof.
  intros H. revert st st'. induction H as [|e e' events events' He _ IH]; intros st st' Hc.
  - exact Hc.
  - simpl. apply IH. apply summary_step_blind; assumption.
Qed.

(** C6. The log of the scenario (session meta for [/home/u/proj], the
    message of the user ["fix bug"], the function call [c1] followed by
    its output, both timestamped with timestamps that parse, and two
    usage reports with totals 100 then 150 whose timestamps are absent or
    parse) gives: a summary with project id ["home-u-proj"], preview
    ["fix bug"], one tool call and 150 total tokens (the last snapshot);
    one record, completed, whose duration is the time of the output minus
    the time of the call; and a timeline of two points in ascending order
    of time. *)
Theorem end_to_end_scenario (sessionId filePath : string)
    (meta_at message_at : option string) (call_at output_at : string)
    (first_usage_at second_usage_at : option string) (m3 m4 n5 n6 : Z) :
  call_at <> "" -> output_at <> "" ->
  Date_getTime call_at = Some m3 ->
  Date_getTime output_at = Some m4 ->
  Date_getTime (default epochISO first_usage_at) = Some n5 ->
  Date_getTime (default epochISO second_usage_at) = Some n6 ->
  let events :=
    Sample.scenario meta_at message_at call_at output_at first_usage_at second_usage_at in
  (exists summary,
      summarize path_relative CODEX_ROOT sessionId filePath events = Some summary
      /\ ss_projectId summary = "home-u-proj"
      /\ ss_preview summary = "fix bug"
      /\ ss_toolCallCount summary = 1%nat
      /\ ss_totalTokens summary = 150%Z)
  /\ (exists call,
         toolCalls (buildToolCalls JSON_parse Date_getTime events) = [call]
         /\ toolCallCount (buildToolCalls JSON_parse Date_getTime events) = 1%nat
         /\ tc_id call = "c1"
         /\ tc_status call = "completed"
         /\ tc_durationMs call = Some (Some (m4 - m3)%Z))
  /\ (exists p q,
         buildTokenTimeline Date_getTime events = [p; q]
         /\ ms_le p q
         /\ Permutation [tp_totalTokens p; tp_totalTokens q] [Some 100%Z; Some 150%Z]).
Proof.
  intros Hcall Hout H3 H4 H5 H6 events. split; [|split].
  - unfold summarize.
    remember (fold_left summary_step events initialSummaryState) as st eqn:Est.
    assert (Hc : content_of st
                 = content_of (fold_left summary_step
                                 (Sample.scenario None None "" "" None None)
                                 initialSummaryState)).
    { rewrite Est. apply summary_fold_blind; [|reflexivity].
      unfold events, Sample.scenario. repeat constructor. }
    unfold content_of in Hc. injection Hc as Hm Hp Ht _ Hcl.
    compute_rhs Hm. compute_rhs Hp. compute_rhs Ht.
    rewrite Hm. eexists. split; [reflexivity|]. simpl.
    rewrite Hp, Ht, Hcl. repeat split; vm_compute; reflexivity.
  - destruct call_at as [|c3 r3]; [congruence|].
    destruct output_at as [|c4 r4]; [congruence|].
    remember (buildToolCalls JSON_parse Date_getTime events) as built eqn:Eb.
    vm_compute in Eb. rewrite H3, H4 in Eb. subst built. simpl.
    eexists. split; [reflexivity|]. repeat split.
  - remember (timeline_points Date_getTime events) as points eqn:Ep.
    unfold buildTokenTimeline. rewrite <- Ep.
    assert (Hsame : first_usage_at = second_usage_at -> n5 = n6) by (intros ->; congruence).
    destruct first_usage_at as [t5|], second_usage_at as [t6|];
      cbv in H5, H6; vm_compute in Ep;
      try (specialize (Hsame eq_refl); subst n6);
      rewrite ?H5, ?H6 in Ep; subst points;
      unfold Array_sort; simpl;
      unfold by_timestampMs at 1; simpl;
      match goal with
      | |- context [(?a - ?b <? 0)%Z] => destruct (a - b <? 0)%Z eqn:E
      end; simpl;
      eexists _, _; (split; [reflexivity|]); unfold ms_le; simpl;
      (split; [lia|]); try apply perm_swap; reflexivity.
Qed.

End SummaryFacts.

(** C9, on the scenario followed by a second call, a result without a
    call, and a repeated call-start. *)
Lemma summary_counts_reconciled_calls_witness :
  let events :=
    (Sample.scenario (Some Sample.t1) None Sample.t1 Sample.t2 None (Some Sample.t3)
     ++ [Sample.function_call None "c2"; Sample.function_call_output None "c3";
         Sample.function_call (Some Sample.t3) "c1"])%list in
  exists summary,
    summarize Reference.path_relative Reference.CODEX_ROOT "abc" "/root/.codex/sessions/a.jsonl"
      events = Some summary
    /\ ss_toolCallCount summary = 2%nat
    /\ ss_toolCallCount summary
       = length (toolCalls (buildToolCalls Reference.JSON_parse Reference.Date_getTime events)).
Proof.
  intros events.
  destruct (summarize Reference.path_relative Reference.CODEX_ROOT "abc"
              "/root/.codex/sessions/a.jsonl" events) as [summary|] eqn:E;
    [|vm_compute in E; discriminate E].
  exists summary. split; [reflexivity|]. split.
  - vm_compute in E. injection E as <-. reflexivity.
  - exact (proj1 (summary_counts_reconciled_calls Reference.JSON_parse Reference.Date_getTime
                    Reference.path_relative Reference.CODEX_ROOT _ _ events summary E)).
Defined.

(** C8, on a log with a session meta, a function call, the message and
    a later message. *)
Lemma preview_of_first_user_message_witness :
  let before := [Sample.session_meta (Some Sample.t1) "/home/u/proj";
                 Sample.function_call (Some Sample.t1) "c1"] in
  let message := Sample.user_message (Some Sample.t2) ["  Hello"; "world  "] in
  let after := [Sample.user_message (Some Sample.t3) ["a later prompt"]] in
  exists summary,
    summarize Reference.path_relative Reference.CODEX_ROOT "abc" "/root/.codex/sessions/a.jsonl"
      (before ++ message :: after)%list = Some summary
    /\ ss_preview summary = "Hello world".
Proof.
  intros before message after.
  destruct (summarize Reference.path_relative Reference.CODEX_ROOT "abc"
              "/root/.codex/sessions/a.jsonl" (before ++ message :: after)%list)
    as [summary|] eqn:E; [|vm_compute in E; discriminate E].
  exists summary. split; [reflexivity|].
  refine (proj1 (preview_of_first_user_message Reference.path_relative Reference.CODEX_ROOT
                   _ _ before after message _ summary _ eq_refl eq_refl E)).
  intros e [<-|[<-|[]]]; reflexivity.
Defined.

(** C6, with the timestamps [t1], [t2], [t3] and a first usage report
    without a timestamp. *)
Lemma end_to_end_scenario_witness :
  let events :=
    Sample.scenario (Some Sample.t1) (Some Sample.t1) Sample.t1 Sample.t2 None (Some Sample.t3) in
  Reference.Date_getTime Sample.t1 = Some 1735787045000%Z
  /\ Reference.Date_getTime Sample.t2 = Some 1735787047500%Z
  /\ (exists call,
         toolCalls (buildToolCalls Reference.JSON_parse Reference.Date_getTime events) = [call]
         /\ toolCallCount (buildToolCalls Reference.JSON_parse Reference.Date_getTime events)
            = 1%nat
         /\ tc_id call = "c1"
         /\ tc_status call = "completed"
         /\ tc_durationMs call = Some (Some (1735787047500 - 1735787045000)%Z)).
Proof.
  intros events.
  assert (H3 : Reference.Date_getTime Sample.t1 = Some 1735787045000%Z)
    by (vm_compute; reflexivity).
  assert (H4 : Reference.Date_getTime Sample.t2 = Some 1735787047500%Z)
    by (vm_compute; reflexivity).
  assert (H5 : Reference.Date_getTime (default epochISO None) = Some 0%Z)
    by (vm_compute; reflexivity).
  assert (H6 : Reference.Date_getTime (default epochISO (Some Sample.t3))
               = Some 1735787049000%Z) by (vm_compute; reflexivity).
  split; [exact H3|]. split; [exact H4|].
  refine (proj1 (proj2 (end_to_end_scenario Reference.JSON_parse Reference.Date_getTime
                          Reference.path_relative Reference.CODEX_ROOT
                          "abc" "/root/.codex/sessions/a.jsonl"
                          (Some Sample.t1) (Some Sample.t1) Sample.t1 Sample.t2
                          None (Some Sample.t3) _ _ _ _ _ _ H3 H4 H5 H6)));
    discriminate.
Defined.

(** ** The timeline and the other builders *)

Section UsageReports.

Variable Date_getTime : string -> option Z.

(** C3, as amended. The timeline builder drops no usage-report envelope,
    whatever its timestamp: the timeline has one point for each of them;
    the point of an envelope without a timestamp is stamped with the
    epoch, and the point of an envelope with a timestamp carries that
    timestamp and the time the runtime reads from it, NaN when the
    timestamp does not parse. Such an envelope contributes to the other
    builders as any other: what the summary gathers besides its time
    bounds (the meta, the preview, the last usage snapshot, the context
    window, the set of tool calls) is the same for two logs whose
    envelopes differ by their timestamps only. *)
Theorem timeline_keeps_every_usage_report (events : list CodexEvent) :
  length (buildTokenTimeline Date_getTime events) = length (List.filter is_usage_report events)
  /\ (forall e, In e events -> is_usage_report e = true ->
       exists p, In p (buildTokenTimeline Date_getTime events)
         /\ timeline_point Date_getTime e = Some p
         /\ (event_timestamp e = None ->
             tp_timestamp p = epochISO /\ tp_timestampMs p = Date_getTime epochISO)
         /\ (forall ts, event_timestamp e = Some ts ->
             tp_timestamp p = ts /\ tp_timestampMs p = Date_getTime ts))
  /\ (forall events', Forall2 same_content events events' ->
       content_of (fold_left summary_step events initialSummaryState)
       = content_of (fold_left summary_step events' initialSummaryState)).
Proof.
  unfold buildTokenTimeline. rewrite timeline_points_omap. split; [|split].
  - rewrite Array_sort_length. apply timeline_points_length.
  - intros e Hin U. destruct (timeline_point_Some Date_getTime e U) as (p & Hp & Hts & Hms).
    exists p. split; [|split; [exact Hp|]].
    + apply Array_sort_In. apply list_elem_of_In. apply list_elem_of_omap.
      exists e. split; [apply list_elem_of_In; exact Hin|exact Hp].
    + unfold timeline_stamp in Hts, Hms. split.
      * intros E. rewrite E in Hts, Hms. auto.
      * intros ts E. rewrite E in Hts, Hms. auto.
  - intros events' H. apply summary_fold_blind; [exact H|reflexivity].
Qed.

End UsageReports.

(** C3, on a log with a usage report without a timestamp and one whose
    timestamp does not parse. *)
Lemma timeline_keeps_every_usage_report_witness :
  let untimed := Sample.token_count None (Sample.usage 80 30 20 0 100) in
  let events := [Sample.function_call (Some Sample.t1) "c1"; untimed;
                 Sample.token_count (Some "not a date") (Sample.usage 120 30 30 0 150)] in
  length (buildTokenTimeline Reference.Date_getTime events) = 2%nat
  /\ (exists p, In p (buildTokenTimeline Reference.Date_getTime events)
                /\ tp_timestamp p = epochISO /\ tp_timestampMs p = Some 0%Z)
  /\ st_tokens (fold_left summary_step events initialSummaryState)
     = Some (JObj (Sample.usage 120 30 30 0 150)).
Proof.
  intros untimed events.
  destruct (timeline_keeps_every_usage_report Reference.Date_getTime events)
    as (Hlen & Hpts & _).
  split; [rewrite Hlen; reflexivity|]. split; [|vm_compute; reflexivity].
  destruct (Hpts untimed) as (p & Hin & _ & Habsent & _);
    [right; left; reflexivity|reflexivity|].
  exists p. split; [exact Hin|]. destruct (Habsent eq_refl) as [Hts Hms].
  split; [exact Hts|]. rewrite Hms. vm_compute. reflexivity.
Defined.

(** ** Event reader *)

Section ReaderFacts.

Variable JSON_parse : string -> option json.

Lemma readJsonl_from (lines : list string) (events : list CodexEvent) :
  fold_left
    (fun (events : list CodexEvent) line =>
       match decode_line JSON_parse line with
       | Some event => (events ++ [event])%list
       | None => events
       end) lines events
  = (events ++ omap (decode_line JSON_parse) lines)%list.
Proof.
  revert events. induction lines as [|l lines IH]; intros events; simpl.
  - rewrite app_nil_r. reflexivity.
  - rewrite IH. destruct (decode_line JSON_parse l); simpl; [|reflexivity].
    rewrite <- app_assoc. reflexivity.
Qed.

(** Each line is decoded on its own, and the envelopes come in the order
    of the lines. *)
Lemma readJsonl_text_lines (raw : string) :
  readJsonl_text JSON_parse raw = omap (decode_line JSON_parse) (Str.split_lines raw).
Proof. unfold readJsonl_text. rewrite readJsonl_from. reflexivity. Qed.

Lemma lineFilter_cases (line : string) : lineFilter line = line \/ lineFilter line = "".
Proof. unfold lineFilter. destruct (_ && _); auto. Qed.

Lemma malformed_line_skipped (line : string) :
  malformed_line JSON_parse line -> decode_line JSON_parse line = None.
Proof.
  unfold decode_line. intros H.
  destruct (lineFilter_cases (Str.trim line)) as [-> | ->]; [|reflexivity].
  destruct H as [-> | [-> | (v & -> & Hv)]].
  - reflexivity.
  - destruct (negb _); reflexivity.
  - destruct (negb _); [reflexivity|].
    destruct v; try reflexivity. exfalso. exact (Hv _ eq_refl).
Qed.

Lemma readJsonl_log_text (lines : list string) :
  Forall (fun l => Str.has_newline l = false) lines ->
  readJsonl_text JSON_parse (log_text lines) = omap (decode_line JSON_parse) lines.
Proof.
  intros H. rewrite readJsonl_text_lines. destruct lines as [|l lines]; [reflexivity|].
  rewrite split_lines_log_text; [reflexivity|exact H|discriminate].
Qed.

(** C7. A log is decoded line by line. A line that is empty, white space
    only, or no parseable JSON object is skipped and nothing else changes:
    the log with such a line among its lines decodes to the same envelopes
    as the log without it, namely the envelopes of the lines before it
    followed by those of the lines after it. The decoding itself never
    fails: it returns a list for every text. *)
Theorem one_bad_line_is_skipped (before after : list string) (bad : string) :
  Forall (fun l => Str.has_newline l = false) (before ++ bad :: after) ->
  malformed_line JSON_parse bad ->
  readJsonl_text JSON_parse (log_text (before ++ bad :: after))
  = readJsonl_text JSON_parse (log_text (before ++ after))
  /\ readJsonl_text JSON_parse (log_text (before ++ bad :: after))
     = (omap (decode_line JSON_parse) before ++ omap (decode_line JSON_parse) after)%list.
Proof.
  intros Hnl Hbad.
  assert (Hnl' : Forall (fun l => Str.has_newline l = false) (before ++ after)).
  { apply Forall_app in Hnl as [Hb Ha]. apply Forall_app. split; [exact Hb|].
    inversion Ha; assumption. }
  rewrite !readJsonl_log_text by assumption.
  rewrite !omap_app. simpl. rewrite (malformed_line_skipped bad Hbad). auto.
Qed.

End ReaderFacts.

(** C7, on a log of three lines whose second line is cut short. *)
Lemma one_bad_line_is_skipped_witness :
  let first := Reference.quotes "{'type':'session_meta','payload':{'cwd':'/home/u/proj'}}" in
  let bad := Reference.quotes "  {'type':'response_item','payload':{'type':'mess" in
  let last := Reference.quotes "{'type':'event_msg','payload':null}" in
  malformed_line Reference.JSON_parse bad
  /\ readJsonl_text Reference.JSON_parse (log_text [first; bad; last])
     = readJsonl_text Reference.JSON_parse (log_text [first; last])
  /\ length (readJsonl_text Reference.JSON_parse (log_text [first; bad; last])) = 2%nat.
Proof.
  intros first bad last.
  assert (Hbad : malformed_line Reference.JSON_parse bad).
  { right. left. vm_compute. reflexivity. }
  split; [exact Hbad|]. split.
  - refine (proj1 (one_bad_line_is_skipped Reference.JSON_parse [first] [last] bad _ Hbad)).
    repeat constructor.
  - vm_compute. reflexivity.
Defined.

(** ** Session detail *)

Section DetailFacts.

Variable JSON_parse : string -> option json.
Variable Date_getTime : string -> option Z.
Variable path_relative : string -> string -> string.
Variable CODEX_ROOT : string.

Lemma on_response_item_meta (st : SummaryState) (payload : JsonRecord) :
  st_meta (on_response_item st payload) = st_meta st.
Proof. reflexivity. Qed.

(** Without a session-meta envelope the loop never finds a meta. *)
Lemma summary_step_no_meta (st : SummaryState) (event : CodexEvent) :
  is_str (field "type" event) "session_meta" = false ->
  st_meta (summary_step st event) = st_meta st.
Proof.
  intros Hm. destruct (note_timestamp_keeps st event) as (_ & _ & Hn & _).
  destruct (summary_step_cases st event) as [[Hm' _]|[(p & Hp & ->)|[Hp [->| ->]]]].
  - congruence.
  - rewrite on_response_item_meta. exact Hn.
  - exact Hn.
  - rewrite (proj2 (proj2 (on_event_msg_keeps _ _))). exact Hn.
Qed.

Lemma fold_no_meta (events : list CodexEvent) (st : SummaryState) :
  (forall e, In e events -> is_str (field "type" e) "session_meta" = false) ->
  st_meta (fold_left summary_step events st) = st_meta st.
Proof.
  revert st. induction events as [|e events IH]; intros st H; simpl; [reflexivity|].
  rewrite IH by (intros e' He'; apply H; right; exact He').
  apply summary_step_no_meta, H. left. reflexivity.
Qed.

(** A session without a session-meta envelope has no summary. *)
Lemma summarize_no_meta (sessionId filePath : string) (events : list CodexEvent) :
  (forall e, In e events -> is_str (field "type" e) "session_meta" = false) ->
  summarize path_relative CODEX_ROOT sessionId filePath events = None.
Proof.
  intros H. unfold summarize. rewrite (fold_no_meta events _ H). reflexivity.
Qed.

(** On an empty cache the summary is computed afresh. *)
Lemma parseSessionSummary_fresh (fs : FileSystem) (filePath : string) :
  fst (parseSessionSummary JSON_parse path_relative CODEX_ROOT fs filePath ∅)
  = match extractSessionId filePath, OMap.get filePath fs with
    | Some sessionId, Some stat =>
        if negb (Str.truthy sessionId) then None
        else summarize path_relative CODEX_ROOT sessionId filePath
               (readJsonl_text JSON_parse (content stat))
    | _, _ => None
    end.
Proof.
  unfold parseSessionSummary.
  destruct (extractSessionId filePath) as [sid|]; [|reflexivity].
  destruct (negb (Str.truthy sid)); [destruct (OMap.get filePath fs); reflexivity|].
  destruct (OMap.get filePath fs) as [stat|]; [|reflexivity].
  rewrite lookup_empty.
  destruct (summarize _ _ _ _ _); reflexivity.
Qed.

(** With a coherent cache the summary returned is the fresh one, and the
    cache stays coherent. *)
Lemma parseSessionSummary_coherent (fs : FileSystem) (filePath : string)
    (summaryCache : gmap string (Z * SessionSummary)) :
  cache_coherent JSON_parse path_relative CODEX_ROOT fs summaryCache ->
  fst (parseSessionSummary JSON_parse path_relative CODEX_ROOT fs filePath summaryCache)
  = fst (parseSessionSummary JSON_parse path_relative CODEX_ROOT fs filePath ∅)
  /\ cache_coherent JSON_parse path_relative CODEX_ROOT fs
       (snd (parseSessionSummary JSON_parse path_relative CODEX_ROOT fs filePath summaryCache)).
Proof.
  intros Hco. rewrite parseSessionSummary_fresh. unfold parseSessionSummary.
  destruct (extractSessionId filePath) as [sid|] eqn:X; [|auto].
  destruct (negb (Str.truthy sid)) eqn:T; [destruct (OMap.get filePath fs); auto|].
  destruct (OMap.get filePath fs) as [stat|] eqn:G; [|auto].
  assert (Hnew : forall summary,
             summarize path_relative CODEX_ROOT sid filePath
               (readJsonl_text JSON_parse (content stat)) = Some summary ->
             cache_coherent JSON_parse path_relative CODEX_ROOT fs
               (<[filePath := (mtimeMs stat, summary)]> summaryCache)).
  { intros summary Hs p m s f Hl Gp Hm.
    destruct (decide (filePath = p)) as [<-|Hne].
    - rewrite lookup_insert_eq in Hl. injection Hl as <- <-.
      rewrite parseSessionSummary_fresh, X, G, T. exact Hs.
    - rewrite lookup_insert_ne in Hl by exact Hne. exact (Hco p m s f Hl Gp Hm). }
  destruct (summaryCache !! filePath) as [[mtime cached]|] eqn:L.
  - destruct (mtime =? mtimeMs stat)%Z eqn:E.
    + apply Z.eqb_eq in E. simpl. split; [|exact Hco].
      pose proof (Hco filePath mtime cached stat L G (eq_sym E)) as H.
      rewrite parseSessionSummary_fresh, X, G, T in H. symmetry. exact H.
    + destruct (summarize _ _ _ _ _) as [summary|] eqn:S; simpl; split; auto.
  - destruct (summarize _ _ _ _ _) as [summary|] eqn:S; simpl; split; auto.
Qed.

Lemma cache_coherent_empty (fs : FileSystem) :
  cache_coherent JSON_parse path_relative CODEX_ROOT fs ∅.
Proof. intros p m s f H. rewrite lookup_empty in H. discriminate. Qed.

(** A call that yields no summary leaves the cache as it is. *)
Lemma parseSessionSummary_none (fs : FileSystem) (filePath : string)
    (summaryCache : gmap string (Z * SessionSummary)) :
  fst (parseSessionSummary JSON_parse path_relative CODEX_ROOT fs filePath summaryCache) = None ->
  snd (parseSessionSummary JSON_parse path_relative CODEX_ROOT fs filePath summaryCache)
  = summaryCache.
Proof.
  unfold parseSessionSummary.
  destruct (extractSessionId filePath) as [sid|]; [|reflexivity].
  destruct (negb (Str.truthy sid)); [reflexivity|].
  destruct (OMap.get filePath fs) as [stat|]; [|reflexivity].
  destruct (summaryCache !! filePath) as [[mtime cached]|].
  - destruct (mtime =? mtimeMs stat)%Z; [reflexivity|].
    destruct (summarize _ _ _ _ _); [discriminate|reflexivity].
  - destruct (summarize _ _ _ _ _); [discriminate|reflexivity].
Qed.

(** The file that is found is one of the files, and it is named after
    the session. *)
Lemma findSessionFile_found (fs : FileSystem) (sessionId filePath : string) :
  findSessionFile fs sessionId = Some filePath ->
  OMap.get filePath fs <> None /\ extractSessionId filePath = Some sessionId.
Proof.
  unfold findSessionFile, listSessionFiles. intros H.
  apply List.find_some in H as [Hin Hid]. apply Array_sort_In in Hin. split.
  - intros G. apply get_None_keys in G. exact (G Hin).
  - destruct (extractSessionId filePath) as [found|]; [|discriminate].
    apply String.eqb_eq in Hid. congruence.
Qed.

(** C10. For a session whose log exists and holds no session-meta
    envelope, [getSessionDetail] returns (it neither throws nor returns
    null) a detail whose summary is the empty summary, with the messages,
    the token timeline and the tool calls built from the decoded
    envelopes; the cache of summaries, which holds nothing stale, is left
    as it was. *)
Theorem detail_without_session_meta (fs : FileSystem) (sessionId filePath : string)
    (file : File) (summaryCache : gmap string (Z * SessionSummary)) :
  cache_coherent JSON_parse path_relative CODEX_ROOT fs summaryCache ->
  findSessionFile fs sessionId = Some filePath ->
  OMap.get filePath fs = Some file ->
  (forall e, In e (readJsonl_text JSON_parse (content file)) ->
             is_str (field "type" e) "session_meta" = false) ->
  getSessionDetail JSON_parse Date_getTime path_relative CODEX_ROOT fs sessionId summaryCache
  = (Returns
       (Some {| sd_summary := emptySummary;
                sd_messages := buildMessages (readJsonl_text JSON_parse (content file));
                sd_tokenTimeline :=
                  buildTokenTimeline Date_getTime (readJsonl_text JSON_parse (content file));
                sd_toolCalls :=
                  toolCalls (buildToolCalls JSON_parse Date_getTime
                               (readJsonl_text JSON_parse (content file))) |}),
     summaryCache).
Proof.
  intros Hco Hfind Hget Hmeta.
  unfold getSessionDetail, readJsonl. rewrite Hfind, Hget.
  destruct (parseSessionSummary_coherent fs filePath summaryCache Hco) as [Hfst _].
  rewrite parseSessionSummary_fresh, Hget in Hfst.
  assert (Hnone : fst (parseSessionSummary JSON_parse path_relative CODEX_ROOT
                         fs filePath summaryCache) = None).
  { rewrite Hfst. destruct (extractSessionId filePath) as [sid|]; [|reflexivity].
    destruct (negb (Str.truthy sid)); [reflexivity|].
    apply summarize_no_meta. exact Hmeta. }
  pose proof (parseSessionSummary_none fs filePath summaryCache Hnone) as Hsnd.
  destruct (parseSessionSummary JSON_parse path_relative CODEX_ROOT fs filePath summaryCache)
    as [parsed cache']. simpl in Hnone, Hsnd. subst parsed cache'. reflexivity.
Qed.

(** On the files as they are listed, [getSessionDetail] never throws: the
    file it reads is one of those it has found. *)
Lemma getSessionDetail_returns (fs : FileSystem) (sessionId : string)
    (summaryCache : gmap string (Z * SessionSummary)) :
  fst (getSessionDetail JSON_parse Date_getTime path_relative CODEX_ROOT fs sessionId
         summaryCache) <> Throws.
Proof.
  unfold getSessionDetail, readJsonl.
  destruct (findSessionFile fs sessionId) as [filePath|] eqn:F; [|discriminate].
  destruct (findSessionFile_found fs sessionId filePath F) as [G _].
  destruct (OMap.get filePath fs); [|congruence].
  destruct (parseSessionSummary _ _ _ _ _ _). discriminate.
Qed.

(** The calls keep the cache coherent. *)
Lemma getSessionDetail_coherent (fs : FileSystem) (sessionId : string)
    (summaryCache : gmap string (Z * SessionSummary)) :
  cache_coherent JSON_parse path_relative CODEX_ROOT fs summaryCache ->
  cache_coherent JSON_parse path_relative CODEX_ROOT fs
    (snd (getSessionDetail JSON_parse Date_getTime path_relative CODEX_ROOT fs sessionId
            summaryCache)).
Proof.
  intros Hco. unfold getSessionDetail.
  destruct (findSessionFile fs sessionId) as [filePath|]; [|exact Hco].
  destruct (readJsonl JSON_parse fs filePath); [exact Hco|].
  destruct (parseSessionSummary_coherent fs filePath summaryCache Hco) as [_ H].
  destruct (parseSessionSummary _ _ _ _ _ _). exact H.
Qed.

End DetailFacts.

(** C10, on the log without a session meta of [SampleFiles], with an
    empty cache. *)
Lemma detail_without_session_meta_witness :
  cache_coherent Reference.JSON_parse Reference.path_relative Reference.CODEX_ROOT
    SampleFiles.fs ∅
  /\ findSessionFile SampleFiles.fs "abc-123" = Some SampleFiles.headless_path
  /\ length (readJsonl_text Reference.JSON_parse SampleFiles.headless_log) = 4%nat
  /\ exists detail,
       getSessionDetail Reference.JSON_parse Reference.Date_getTime Reference.path_relative
         Reference.CODEX_ROOT SampleFiles.fs "abc-123" ∅ = (Returns (Some detail), ∅)
       /\ sd_summary detail = emptySummary
       /\ map cm_text (sd_messages detail) = ["fix bug"]
       /\ map tp_totalTokens (sd_tokenTimeline detail) = [Some 100%Z]
       /\ map tc_status (sd_toolCalls detail) = ["completed"].
Proof.
  assert (Hco : cache_coherent Reference.JSON_parse Reference.path_relative
                  Reference.CODEX_ROOT SampleFiles.fs ∅)
    by apply cache_coherent_empty.
  assert (Hfind : findSessionFile SampleFiles.fs "abc-123" = Some SampleFiles.headless_path)
    by (vm_compute; reflexivity).
  assert (Hget : OMap.get SampleFiles.headless_path SampleFiles.fs
                 = Some {| mtimeMs := 1735787050000; content := SampleFiles.headless_log |})
    by (vm_compute; reflexivity).
  assert (Hmeta : forall e,
             In e (readJsonl_text Reference.JSON_parse SampleFiles.headless_log) ->
             is_str (field "type" e) "session_meta" = false).
  { intros e He. vm_compute in He.
    destruct He as [<-|[<-|[<-|[<-|[]]]]]; reflexivity. }
  split; [exact Hco|]. split; [exact Hfind|]. split; [vm_compute; reflexivity|].
  eexists. split.
  - exact (detail_without_session_meta Reference.JSON_parse Reference.Date_getTime
             Reference.path_relative Reference.CODEX_ROOT SampleFiles.fs "abc-123"
             SampleFiles.headless_path _ ∅ Hco Hfind Hget Hmeta).
  - repeat split; vm_compute; reflexivity.
Defined.

(** The scenario, from the text of the log to the detail of the session,
    with the reference instances of the runtime. *)
Example scenario_from_text :
  match getSessionDetail Reference.JSON_parse Reference.Date_getTime Reference.path_relative
          Reference.CODEX_ROOT SampleFiles.fs "abc-124" ∅ with
  | (Returns (Some detail), cache) =>
      ss_id (sd_summary detail) = "abc-124"
      /\ ss_projectId (sd_summary detail) = "home-u-proj"
      /\ ss_projectName (sd_summary detail) = "proj"
      /\ ss_relativePath (sd_summary detail)
         = "sessions/2025/01/02/rollout-2025-01-02T03-04-04-abc-124.jsonl"
      /\ ss_startedAt (sd_summary detail) = "2025-01-02T03:04:03.000Z"
      /\ ss_lastActivityAt (sd_summary detail) = "2025-01-02T03:04:11.000Z"
      /\ ss_preview (sd_summary detail) = "fix bug"
      /\ ss_toolCallCount (sd_summary detail) = 1%nat
      /\ ss_totalTokens (sd_summary detail) = 150%Z
      /\ ss_userTokens (sd_summary detail) = Some 90%Z
      /\ map tc_status (sd_toolCalls detail) = ["completed"]
      /\ map tc_durationMs (sd_toolCalls detail) = [Some (Some 1500%Z)]
      /\ map tp_timestampMs (sd_tokenTimeline detail)
         = [Some 1735787050000%Z; Some 1735787051000%Z]
      /\ map cm_id (sd_messages detail) = ["2025-01-02T03:04:05.000Z-message-0"]
      /\ option_map fst (cache !! SampleFiles.scenario_path) = Some 1735787051000%Z
  | _ => False
  end.
Proof. vm_compute. repeat split. Qed.

(** * Further properties *)

(** ** Shapes of strings *)

#[local] Arguments String.append !_ _ : simpl nomatch.

Lemma string_app_assoc (a b c : string) : (a ++ b) ++ c = a ++ (b ++ c).
Proof. induction a as [|x a IH]; simpl; [reflexivity|]. rewrite IH. reflexivity. Qed.

Lemma string_app_nil_r (a : string) : a ++ "" = a.
Proof. induction a as [|x a IH]; simpl; [reflexivity|]. rewrite IH. reflexivity. Qed.

Lemma all_chars_app (p : ascii -> bool) (a b : string) :
  all_chars p (a ++ b) = all_chars p a && all_chars p b.
Proof.
  induction a as [|x a IH]; simpl; [reflexivity|].
  rewrite IH, andb_assoc. reflexivity.
Qed.

Lemma all_chars_impl (p q : ascii -> bool) (s : string) :
  (forall c, p c = true -> q c = true) -> all_chars p s = true -> all_chars q s = true.
Proof.
  intros Hpq. induction s as [|x s IH]; simpl; [reflexivity|].
  intros H. apply andb_true_iff in H as [Hx Hs].
  rewrite (Hpq x Hx), (IH Hs). reflexivity.
Qed.

Lemma apart_app_l (p : ascii -> bool) (a b : string) :
  apart p (a ++ b) = true -> apart p a = true.
Proof.
  induction a as [|x a IH]; simpl; [reflexivity|].
  intros H. apply andb_true_iff in H as [Hx Ha].
  rewrite (IH Ha), andb_true_r.
  destruct a as [|y a]; [reflexivity|exact Hx].
Qed.

Lemma apart_app_r (p : ascii -> bool) (a b : string) :
  apart p (a ++ b) = true -> apart p b = true.
Proof.
  induction a as [|x a IH]; simpl; [auto|].
  intros H. apply andb_true_iff in H as [_ Ha]. exact (IH Ha).
Qed.

(** Appending a text without code units of the class keeps them apart. *)
Lemma apart_app_clean (p : ascii -> bool) (a b : string) :
  apart p a = true -> all_chars (fun c => negb (p c)) b = true -> apart p (a ++ b) = true.
Proof.
  intros Ha Hb. induction a as [|x a IH]; simpl.
  - induction b as [|y b IHb]; simpl; [reflexivity|].
    simpl in Hb. apply andb_true_iff in Hb as [Hy Hb].
    rewrite (IHb Hb), andb_true_r. destruct b as [|z b]; [reflexivity|].
    apply negb_true_iff in Hy. rewrite Hy. reflexivity.
  - simpl in Ha. apply andb_true_iff in Ha as [Hx Ha]. rewrite (IH Ha), andb_true_r.
    destruct a as [|y a]; simpl; [|exact Hx].
    destruct b as [|z b]; [reflexivity|].
    simpl in Hb. apply andb_true_iff in Hb as [Hz _].
    apply negb_true_iff in Hz. rewrite Hz, andb_false_r. reflexivity.
Qed.

Lemma part_of_refl (s : string) : part_of s s.
Proof. exists "", "". simpl. rewrite string_app_nil_r. reflexivity. Qed.

Lemma part_of_trans (a b c : string) : part_of a b -> part_of b c -> part_of a c.
Proof.
  intros (x & y & Hb) (u & v & Hc). subst b c. exists (u ++ x), (y ++ v).
  rewrite !string_app_assoc. reflexivity.
Qed.

Lemma part_of_front (t b : string) : part_of t (t ++ b).
Proof. exists "", b. reflexivity. Qed.

Lemma part_of_back (a t : string) : part_of t (a ++ t).
Proof. exists a, "". rewrite string_app_nil_r. reflexivity. Qed.

Lemma part_of_all_chars (p : ascii -> bool) (t s : string) :
  part_of t s -> all_chars p s = true -> all_chars p t = true.
Proof.
  intros (a & b & ->). rewrite !all_chars_app. intros H.
  apply andb_true_iff in H as [_ H]. apply andb_true_iff in H as [H _]. exact H.
Qed.

Lemma part_of_apart (p : ascii -> bool) (t s : string) :
  part_of t s -> apart p s = true -> apart p t = true.
Proof.
  intros (a & b & ->) H. apply apart_app_r in H. apply apart_app_l in H. exact H.
Qed.

Lemma trimStart_back (s : string) : exists a, s = a ++ Str.trimStart s.
Proof.
  induction s as [|c r [a IH]]; [exists ""; reflexivity|]. simpl.
  destruct (Str.is_space c).
  - exists (String c a). simpl. rewrite <- IH. reflexivity.
  - exists "". reflexivity.
Qed.

Lemma trimEnd_front (s : string) : exists b, s = Str.trimEnd s ++ b.
Proof.
  induction s as [|c r [b IH]]; [exists ""; reflexivity|]. simpl.
  destruct (Str.trimEnd r) as [|x y] eqn:E.
  - simpl in IH. subst b. destruct (Str.is_space c).
    + exists (String c r). reflexivity.
    + exists r. reflexivity.
  - exists b. simpl in *. rewrite <- IH. reflexivity.
Qed.

Lemma trim_part_of (s : string) : part_of (Str.trim s) s.
Proof.
  unfold Str.trim. destruct (trimStart_back s) as [a Ha].
  destruct (trimEnd_front (Str.trimStart s)) as [b Hb].
  exists a, b. rewrite <- Hb. exact Ha.
Qed.

Lemma substring_front (n : nat) (s : string) : exists b, s = substring 0 n s ++ b.
Proof.
  revert s. induction n as [|n IH]; intros s.
  - exists s. destruct s; reflexivity.
  - destruct s as [|c r]; [exists ""; reflexivity|].
    destruct (IH r) as [b Hb]. exists b. simpl. rewrite <- Hb. reflexivity.
Qed.

Lemma substring_part_of (n : nat) (s : string) : part_of (substring 0 n s) s.
Proof. destruct (substring_front n s) as [b Hb]. exists "", b. exact Hb. Qed.

(** White space at the ends. *)
Lemma trimStart_first (s : string) : first_is Str.is_space (Str.trimStart s) = false.
Proof.
  induction s as [|c r IH]; [reflexivity|]. simpl.
  destruct (Str.is_space c) eqn:E; [exact IH|]. simpl. exact E.
Qed.

Lemma trimEnd_first (s : string) :
  first_is Str.is_space s = false -> first_is Str.is_space (Str.trimEnd s) = false.
Proof.
  destruct s as [|c r]; [reflexivity|]. simpl. intros Hc.
  destruct (Str.trimEnd r); [rewrite Hc|]; simpl; [exact Hc|exact Hc].
Qed.

Lemma trimEnd_last (s : string) : last_is Str.is_space (Str.trimEnd s) = false.
Proof.
  induction s as [|c r IH]; [reflexivity|]. simpl.
  destruct (Str.trimEnd r) as [|x y] eqn:E.
  - destruct (Str.is_space c) eqn:Hc; [reflexivity|]. simpl. exact Hc.
  - exact IH.
Qed.

Lemma trimStart_fixed (s : string) :
  first_is Str.is_space s = false -> Str.trimStart s = s.
Proof. destruct s as [|c r]; [reflexivity|]. simpl. intros ->. reflexivity. Qed.

Lemma trimEnd_fixed (s : string) :
  last_is Str.is_space s = false -> Str.trimEnd s = s.
Proof.
  induction s as [|c r IH]; [reflexivity|]. simpl.
  destruct r as [|x y].
  - intros ->. reflexivity.
  - intros H. rewrite (IH H). reflexivity.
Qed.

(** A text is its own trimmed form exactly when no white space stands
    at its ends. *)
Lemma trim_fixed (s : string) :
  first_is Str.is_space s = false -> last_is Str.is_space s = false -> Str.trim s = s.
Proof.
  intros Hf Hl. unfold Str.trim. rewrite (trimStart_fixed s Hf). apply trimEnd_fixed, Hl.
Qed.

Lemma trim_ends (s : string) :
  first_is Str.is_space (Str.trim s) = false /\ last_is Str.is_space (Str.trim s) = false.
Proof.
  unfold Str.trim. split; [|apply trimEnd_last].
  apply trimEnd_first, trimStart_first.
Qed.

Lemma trim_idempotent (s : string) : Str.trim (Str.trim s) = Str.trim s.
Proof. destruct (trim_ends s) as [Hf Hl]. apply trim_fixed; assumption. Qed.

Lemma last_is_app (p : ascii -> bool) (a b : string) :
  b <> "" -> last_is p (a ++ b) = last_is p b.
Proof.
  intros Hb. induction a as [|x a IH]; [reflexivity|]. simpl.
  destruct (a ++ b) as [|y z] eqn:E; [|exact IH].
  destruct a; simpl in E; [contradiction|discriminate].
Qed.

Lemma first_is_app (p : ascii -> bool) (a b : string) :
  a <> "" -> first_is p (a ++ b) = first_is p a.
Proof. destruct a; [contradiction|reflexivity]. Qed.

(** ** Squeezing the runs of a class of code units *)

Section Squeeze.

Variables (q : ascii -> bool) (d : ascii).

Lemma squeeze_chars (b : bool) (s : string) :
  all_chars (fun c => negb (q c) || Ascii.eqb c d) (squeeze q d b s) = true.
Proof.
  revert b. induction s as [|c r IH]; intros b; simpl; [reflexivity|].
  destruct (q c) eqn:Hc.
  - destruct b; [apply IH|]. simpl. rewrite Ascii.eqb_refl, orb_true_r. apply IH.
  - simpl. rewrite Hc. simpl. apply IH.
Qed.

Lemma squeeze_first (s : string) : first_is q (squeeze q d true s) = false.
Proof.
  induction s as [|c r IH]; simpl; [reflexivity|].
  destruct (q c) eqn:Hc; [exact IH|]. simpl. exact Hc.
Qed.

Lemma squeeze_apart (b : bool) (s : string) : apart q (squeeze q d b s) = true.
Proof.
  revert b. induction s as [|c r IH]; intros b; simpl; [reflexivity|].
  destruct (q c) eqn:Hc.
  - destruct b; [apply IH|]. simpl. rewrite IH, andb_true_r.
    pose proof (squeeze_first r) as F.
    destruct (squeeze q d true r) as [|x y]; [reflexivity|].
    simpl in F. rewrite F, andb_false_r. reflexivity.
  - simpl. rewrite IH, andb_true_r, Hc.
    destruct (squeeze q d false r); reflexivity.
Qed.

Lemma squeeze_fixed (b : bool) (s : string) :
  all_chars (fun c => negb (q c) || Ascii.eqb c d) s = true ->
  apart q s = true ->
  (b = true -> first_is q s = false) ->
  squeeze q d b s = s.
Proof.
  revert b. induction s as [|c r IH]; intros b Hall Hap Hb; simpl; [reflexivity|].
  simpl in Hall, Hap. apply andb_true_iff in Hall as [Hc Hall].
  apply andb_true_iff in Hap as [Hcc Hap].
  destruct (q c) eqn:Q.
  - simpl in Hc. apply Ascii.eqb_eq in Hc. subst c.
    destruct b; [specialize (Hb eq_refl); simpl in Hb; congruence|].
    rewrite IH; [reflexivity|exact Hall|exact Hap|].
    intros _. destruct r as [|x y]; [reflexivity|]. simpl.
    apply negb_true_iff in Hcc. simpl in Hcc. exact Hcc.
  - rewrite IH; [reflexivity|exact Hall|exact Hap|discriminate].
Qed.

End Squeeze.

Lemma dash_runs_squeeze (b : bool) (s : string) :
  Str.dash_runs b s = squeeze (fun c => negb (Str.is_lower c || Str.is_digit c)) "-" b s.
Proof.
  revert b. induction s as [|c r IH]; intros b; simpl; [reflexivity|].
  destruct (Str.is_lower c || Str.is_digit c); simpl; rewrite ?IH; reflexivity.
Qed.

Lemma collapse_from_squeeze (b : bool) (s : string) :
  Str.collapse_from b s = squeeze Str.is_space " " b s.
Proof.
  revert b. induction s as [|c r IH]; intros b; simpl; [reflexivity|].
  rewrite !IH. reflexivity.
Qed.

Lemma apart_on (a p q : ascii -> bool) (s : string) :
  (forall c, a c = true -> q c = p c) ->
  all_chars a s = true -> apart q s = apart p s.
Proof.
  intros Hpq. induction s as [|c r IH]; simpl; [reflexivity|].
  intros H. apply andb_true_iff in H as [Hc Hr]. rewrite (IH Hr).
  destruct r as [|x y]; [reflexivity|].
  simpl in Hr. apply andb_true_iff in Hr as [Hx _].
  rewrite (Hpq c Hc), (Hpq x Hx). reflexivity.
Qed.

Lemma first_is_rev (p : ascii -> bool) (s : string) :
  first_is p (Str.rev s) = last_is p s.
Proof.
  induction s as [|c r IH]; [reflexivity|]. simpl.
  destruct r as [|x y]; [reflexivity|].
  rewrite first_is_app; [exact IH|].
  simpl. destruct (Str.rev y); discriminate.
Qed.

Lemma startsWith_dash (s : string) : Str.startsWith "-" s = first_is is_dash s.
Proof.
  destruct s as [|c r]; [reflexivity|].
  destruct c as [[] [] [] [] [] [] [] []]; reflexivity.
Qed.

Lemma endsWith_dash (s : string) : Str.endsWith "-" s = last_is is_dash s.
Proof.
  unfold Str.endsWith. change (Str.rev "-") with "-".
  rewrite startsWith_dash. apply first_is_rev.
Qed.

(** ** The slug of a project *)

Lemma strip_front_dash_back (s : string) : exists a, s = a ++ Str.strip_front_dash s.
Proof.
  destruct s as [|c r]; [exists ""; reflexivity|].
  unfold Str.strip_front_dash.
  destruct (Ascii.eqb_spec c "-") as [->|Hne].
  - exists "-". reflexivity.
  - exists "". destruct c as [[] [] [] [] [] [] [] []]; try reflexivity. congruence.
Qed.

Lemma strip_front_dash_first (s : string) :
  apart is_dash s = true -> first_is is_dash (Str.strip_front_dash s) = false.
Proof.
  destruct s as [|c r]; [reflexivity|].
  destruct (Ascii.eqb_spec c "-") as [->|Hne].
  - simpl. intros H. apply andb_true_iff in H as [H _].
    destruct r as [|x y]; [reflexivity|]. simpl.
    apply negb_true_iff in H. exact H.
  - intros _.
    assert (E : Str.strip_front_dash (String c r) = String c r).
    { destruct c as [[] [] [] [] [] [] [] []]; try reflexivity. congruence. }
    rewrite E. simpl. unfold is_dash. apply Ascii.eqb_neq. exact Hne.
Qed.

Lemma strip_front_dash_fixed (s : string) :
  first_is is_dash s = false -> Str.strip_front_dash s = s.
Proof.
  destruct s as [|c r]; [reflexivity|]. simpl. unfold is_dash. intros H.
  apply Ascii.eqb_neq in H.
  destruct c as [[] [] [] [] [] [] [] []]; try reflexivity. congruence.
Qed.

Lemma strip_back_dash_front (s : string) : exists b, s = Str.strip_back_dash s ++ b.
Proof.
  induction s as [|c r [b IH]]; [exists ""; reflexivity|]. simpl.
  destruct r as [|x y].
  - destruct (Ascii.eqb c "-"); [exists (String c "")|exists ""]; reflexivity.
  - exists b. simpl in *. rewrite <- IH. reflexivity.
Qed.

Lemma strip_back_dash_empty (s : string) :
  Str.strip_back_dash s = "" -> s = "" \/ s = "-".
Proof.
  destruct s as [|c r]; [auto|]. simpl. destruct r as [|x y]; [|discriminate].
  destruct (Ascii.eqb_spec c "-") as [->|]; [auto|discriminate].
Qed.

Lemma strip_back_dash_first (s : string) :
  first_is is_dash s = false -> first_is is_dash (Str.strip_back_dash s) = false.
Proof.
  destruct s as [|c r]; [reflexivity|]. simpl. intros H.
  destruct r as [|x y]; [|exact H].
  destruct (Ascii.eqb c "-"); [reflexivity|exact H].
Qed.

Lemma strip_back_dash_last (s : string) :
  apart is_dash s = true -> last_is is_dash (Str.strip_back_dash s) = false.
Proof.
  induction s as [|c r IH]; [reflexivity|].
  intros H. simpl in H. apply andb_true_iff in H as [Hc Hr].
  destruct r as [|x y].
  - simpl. destruct (Ascii.eqb c "-") eqn:E; [reflexivity|]. simpl. exact E.
  - change (Str.strip_back_dash (String c (String x y)))
      with (String c (Str.strip_back_dash (String x y))).
    specialize (IH Hr).
    destruct (Str.strip_back_dash (String x y)) as [|u v] eqn:E.
    + apply strip_back_dash_empty in E as [E|E]; [discriminate|].
      injection E as -> ->. simpl. apply negb_true_iff in Hc.
      rewrite andb_true_r in Hc. exact Hc.
    + exact IH.
Qed.

Lemma strip_back_dash_fixed (s : string) :
  last_is is_dash s = false -> Str.strip_back_dash s = s.
Proof.
  induction s as [|c r IH]; [reflexivity|]. simpl.
  destruct r as [|x y].
  - unfold is_dash. intros ->. reflexivity.
  - intros H. rewrite (IH H). reflexivity.
Qed.

Lemma slug_char_class (c : ascii) :
  negb (negb (Str.is_lower c || Str.is_digit c)) || Ascii.eqb c "-" = is_slug_char c.
Proof. unfold is_slug_char, is_dash. rewrite negb_involutive. reflexivity. Qed.

Lemma slug_char_dash (c : ascii) :
  is_slug_char c = true -> negb (Str.is_lower c || Str.is_digit c) = is_dash c.
Proof. destruct c as [[] [] [] [] [] [] [] []]; vm_compute; congruence. Qed.

Lemma slug_char_lower (c : ascii) : is_slug_char c = true -> Str.lower_char c = c.
Proof. destruct c as [[] [] [] [] [] [] [] []]; vm_compute; congruence. Qed.

Lemma toLowerCase_fixed (s : string) :
  all_chars is_slug_char s = true -> Str.toLowerCase s = s.
Proof.
  induction s as [|c r IH]; [reflexivity|]. simpl. intros H.
  apply andb_true_iff in H as [Hc Hr]. rewrite (slug_char_lower c Hc), (IH Hr). reflexivity.
Qed.

(** A text in the shape of a slug is left as it is by each step of
    [slugify]. *)
Lemma slugify_fixed (s : string) :
  all_chars is_slug_char s = true ->
  apart is_dash s = true ->
  first_is is_dash s = false ->
  last_is is_dash s = false ->
  slugify s = s.
Proof.
  intros Hchars Hapart Hfirst Hlast. unfold slugify.
  rewrite (toLowerCase_fixed s Hchars), dash_runs_squeeze.
  rewrite squeeze_fixed; [| | |discriminate].
  - rewrite (strip_front_dash_fixed s Hfirst). apply strip_back_dash_fixed, Hlast.
  - apply (all_chars_impl is_slug_char); [|exact Hchars].
    intros c Hc. rewrite slug_char_class. exact Hc.
  - rewrite (apart_on is_slug_char is_dash _ s slug_char_dash Hchars). exact Hapart.
Qed.

(** X1. The slug of a project path is made of lower-case letters, digits
    and dashes only; no two dashes stand next to each other, and no dash
    stands at its front or at its end. Making the slug of a slug changes
    nothing. *)
Theorem slugify_shape (value : string) :
  all_chars is_slug_char (slugify value) = true
  /\ apart is_dash (slugify value) = true
  /\ Str.startsWith "-" (slugify value) = false
  /\ Str.endsWith "-" (slugify value) = false
  /\ slugify (slugify value) = slugify value.
Proof.
  rewrite startsWith_dash, endsWith_dash.
  assert (Hshape : all_chars is_slug_char (slugify value) = true
                   /\ apart is_dash (slugify value) = true
                   /\ first_is is_dash (slugify value) = false
                   /\ last_is is_dash (slugify value) = false).
  { unfold slugify. set (d := Str.dash_runs false (Str.toLowerCase value)).
    assert (Hchars : all_chars is_slug_char d = true).
    { unfold d. rewrite dash_runs_squeeze.
      apply (all_chars_impl (fun c => negb (negb (Str.is_lower c || Str.is_digit c))
                                      || Ascii.eqb c "-")).
      - intros c. rewrite slug_char_class. auto.
      - apply squeeze_chars. }
    assert (Hapart : apart is_dash d = true).
    { rewrite <- (apart_on is_slug_char is_dash
                    (fun c => negb (Str.is_lower c || Str.is_digit c)) d
                    slug_char_dash Hchars).
      unfold d. rewrite dash_runs_squeeze. apply squeeze_apart. }
    assert (Hpart : part_of (Str.strip_back_dash (Str.strip_front_dash d)) d).
    { destruct (strip_front_dash_back d) as [a Ha].
      destruct (strip_back_dash_front (Str.strip_front_dash d)) as [b Hb].
      exists a, b. rewrite <- Hb. exact Ha. }
    assert (Hapart' : apart is_dash (Str.strip_front_dash d) = true).
    { destruct (strip_front_dash_back d) as [a Ha].
      apply (apart_app_r is_dash a). rewrite <- Ha. exact Hapart. }
    repeat split.
    - exact (part_of_all_chars _ _ _ Hpart Hchars).
    - exact (part_of_apart _ _ _ Hpart Hapart).
    - apply strip_back_dash_first, strip_front_dash_first, Hapart.
    - apply strip_back_dash_last, Hapart'. }
  destruct Hshape as (Hchars & Hapart & Hfirst & Hlast).
  repeat split; try assumption. apply slugify_fixed; assumption.
Qed.

(** ** The preview *)

Lemma first_is_substring (p : ascii -> bool) (n : nat) (s : string) :
  first_is p s = false -> first_is p (substring 0 n s) = false.
Proof. destruct s as [|c r], n as [|n]; simpl; auto. Qed.

Lemma first_is_app_false (p : ascii -> bool) (a b : string) :
  first_is p a = false -> first_is p b = false -> first_is p (a ++ b) = false.
Proof. destruct a; simpl; auto. Qed.

Lemma truthy_false (s : string) : Str.truthy s = false -> s = "".
Proof.
  unfold Str.truthy. intros H. apply negb_false_iff in H. apply String.eqb_eq in H. exact H.
Qed.

Lemma truthy_true (s : string) : Str.truthy s = true <-> s <> "".
Proof.
  unfold Str.truthy. rewrite negb_true_iff. split.
  - intros H. apply String.eqb_neq. exact H.
  - intros H. apply String.eqb_neq. exact H.
Qed.

(** X2. The preview of a prompt is one line of plain text: its only white
    space are single spaces, none at its front or at its end, and it has
    180 code units at most. *)
Theorem composePreview_one_line (text : string) :
  all_chars is_plain (composePreview text) = true
  /\ apart Str.is_space (composePreview text) = true
  /\ Str.trim (composePreview text) = composePreview text
  /\ (String.length (composePreview text) <= 180)%nat.
Proof.
  split; [|split; [|split; [|apply composePreview_length]]];
    unfold composePreview; (destruct (negb (Str.truthy text)); [reflexivity|]);
    set (cleaned := Str.trim (Str.collapse_spaces text));
    (assert (Hpart : part_of cleaned (squeeze Str.is_space " " false text))
       by (unfold cleaned, Str.collapse_spaces; rewrite collapse_from_squeeze;
           apply trim_part_of));
    (assert (Hchars : all_chars is_plain cleaned = true)
       by (exact (part_of_all_chars _ _ _ Hpart (squeeze_chars Str.is_space " " false text))));
    (assert (Hapart : apart Str.is_space cleaned = true)
       by (exact (part_of_apart _ _ _ Hpart (squeeze_apart Str.is_space " " false text))));
    destruct (trim_ends (Str.collapse_spaces text)) as [Hfirst Hlast]; fold cleaned in Hfirst, Hlast;
    destruct (180 <? String.length cleaned)%nat; try assumption.
  - rewrite all_chars_app, andb_true_r.
    apply (part_of_all_chars _ _ cleaned); [|exact Hchars].
    apply substring_part_of.
  - apply apart_app_clean; [|reflexivity].
    apply (part_of_apart _ _ cleaned); [|exact Hapart].
    apply substring_part_of.
  - apply trim_fixed.
    + apply first_is_app_false; [|reflexivity]. apply first_is_substring, Hfirst.
    + rewrite last_is_app by discriminate. reflexivity.
  - apply trim_fixed; assumption.
Qed.

(** ** The name of a session file *)

Lemma rev_app (a b : string) : Str.rev (a ++ b) = Str.rev b ++ Str.rev a.
Proof.
  induction a as [|x a IH]; simpl.
  - rewrite string_app_nil_r. reflexivity.
  - rewrite IH, string_app_assoc. reflexivity.
Qed.

Lemma startsWith_app (p x : string) : Str.startsWith p (p ++ x) = true.
Proof.
  induction p as [|c p IH]; simpl; [reflexivity|].
  rewrite Ascii.eqb_refl. exact IH.
Qed.

Lemma endsWith_app (x p : string) : Str.endsWith p (x ++ p) = true.
Proof. unfold Str.endsWith. rewrite rev_app. apply startsWith_app. Qed.

Lemma substring_app_front (a b : string) : substring 0 (String.length a) (a ++ b) = a.
Proof.
  induction a as [|x a IH]; simpl.
  - destruct b; reflexivity.
  - rewrite IH. reflexivity.
Qed.

Lemma no_slash_existsb (s : string) :
  existsb (Ascii.eqb "/") (list_ascii_of_string s) = negb (all_chars (fun c => negb (is_slash c)) s).
Proof.
  induction s as [|c r IH]; [reflexivity|].
  cbn [list_ascii_of_string existsb all_chars]. rewrite IH.
  unfold is_slash. rewrite (Ascii.eqb_sym c "/").
  destruct (Ascii.eqb "/" c); reflexivity.
Qed.

Lemma last_segment_back (s : string) : exists a, s = a ++ Path.last_segment s.
Proof.
  induction s as [|c r [a IH]]; [exists ""; reflexivity|]. simpl.
  destruct (existsb _ _).
  - exists (String c a). simpl. rewrite <- IH. reflexivity.
  - destruct (Ascii.eqb c "/"); [exists (String c "")|exists ""]; reflexivity.
Qed.

Lemma last_segment_no_slash (s : string) :
  all_chars (fun c => negb (is_slash c)) (Path.last_segment s) = true.
Proof.
  induction s as [|c r IH]; [reflexivity|]. simpl.
  destruct (existsb _ _) eqn:E; [exact IH|].
  rewrite no_slash_existsb in E. apply negb_false_iff in E.
  destruct (Ascii.eqb c "/") eqn:C; [exact E|].
  simpl. unfold is_slash at 1. rewrite C, E. reflexivity.
Qed.

Lemma last_segment_of (dir name : string) :
  all_chars (fun c => negb (is_slash c)) name = true ->
  Path.last_segment (dir ++ "/" ++ name) = name.
Proof.
  intros Hname. induction dir as [|c dir IH]; simpl.
  - rewrite no_slash_existsb, Hname. reflexivity.
  - rewrite no_slash_existsb, all_chars_app. simpl.
    rewrite andb_false_r. simpl. exact IH.
Qed.

Lemma drop_end_slashes_fixed (s : string) :
  last_is is_slash s = false -> Path.drop_end_slashes s = s.
Proof.
  induction s as [|c r IH]; [reflexivity|]. simpl.
  destruct r as [|x y].
  - unfold is_slash. intros ->. reflexivity.
  - intros H. rewrite (IH H). reflexivity.
Qed.

Lemma drop_end_slashes_front (s : string) : exists b, s = Path.drop_end_slashes s ++ b.
Proof.
  induction s as [|c r [b IH]]; [exists ""; reflexivity|]. simpl.
  destruct (Path.drop_end_slashes r) as [|x y] eqn:E.
  - simpl in IH. subst b. destruct (Ascii.eqb c "/").
    + exists (String c r). reflexivity.
    + exists r. reflexivity.
  - exists b. simpl in *. rewrite <- IH. reflexivity.
Qed.

Lemma basename_no_slash (p : string) :
  all_chars (fun c => negb (is_slash c)) (Path.basename p) = true.
Proof. apply last_segment_no_slash. Qed.

Lemma basename_ext_no_slash (p ext : string) :
  all_chars (fun c => negb (is_slash c)) (Path.basename_ext p ext) = true.
Proof.
  unfold Path.basename_ext. destruct (String.eqb p ext); [reflexivity|].
  destruct (_ && _); [|apply basename_no_slash].
  apply (part_of_all_chars _ _ (Path.basename p)); [|apply basename_no_slash].
  apply substring_part_of.
Qed.

Lemma match_shape_back (shape : list (ascii -> bool)) (s rest : string) :
  match_shape shape s = Some rest -> exists a, s = a ++ rest.
Proof.
  revert s. induction shape as [|p shape IH]; intros s; simpl.
  - intros [= ->]. exists "". reflexivity.
  - destruct s as [|c r]; [discriminate|]. destruct (p c); [|discriminate].
    intros H. destruct (IH r H) as [a ->]. exists (String c a). reflexivity.
Qed.

Lemma match_shape_app (shape : list (ascii -> bool)) (s t : string) :
  match_shape shape s = Some "" -> match_shape shape (s ++ t) = Some t.
Proof.
  revert s. induction shape as [|p shape IH]; intros s; simpl.
  - intros [= ->]. reflexivity.
  - destruct s as [|c r]; [discriminate|]. simpl. destruct (p c); [|discriminate].
    apply IH.
Qed.

Lemma match_shape_chars (a : ascii -> bool) (shape : list (ascii -> bool)) (s : string) :
  Forall (fun p => forall c, p c = true -> a c = true) shape ->
  match_shape shape s = Some "" -> all_chars a s = true.
Proof.
  intros Hall. revert s. induction Hall as [|p shape Hp _ IH]; intros s; simpl.
  - intros [= ->]. reflexivity.
  - destruct s as [|c r]; [discriminate|]. destruct (p c) eqn:E; [|discriminate].
    intros H. simpl. rewrite (Hp c E), (IH r H). reflexivity.
Qed.

Lemma rollout_shape_no_slash :
  Forall (fun p : ascii -> bool => forall c, p c = true -> negb (is_slash c) = true)
    rollout_shape.
Proof.
  assert (Hd : forall c, Str.is_digit c = true -> negb (is_slash c) = true)
    by (intros c; destruct c as [[] [] [] [] [] [] [] []]; vm_compute; congruence).
  assert (Hl : forall x c, is_slash x = false -> Ascii.eqb x c = true -> negb (is_slash c) = true)
    by (intros x c Hx Hc; apply Ascii.eqb_eq in Hc; subst c; rewrite Hx; reflexivity).
  unfold rollout_shape. simpl.
  repeat (constructor;
          [intros c Hc; first [exact (Hd c Hc) | refine (Hl _ c _ Hc); reflexivity]|]).
  constructor.
Qed.

Lemma dot_run_front (s : string) : exists b, s = dot_run s ++ b.
Proof.
  induction s as [|c r [b IH]]; [exists ""; reflexivity|]. simpl.
  destruct (Str.is_dot c).
  - exists b. simpl. rewrite <- IH. reflexivity.
  - exists (String c r). reflexivity.
Qed.

Lemma dot_run_chars (s : string) : all_chars Str.is_dot (dot_run s) = true.
Proof.
  induction s as [|c r IH]; [reflexivity|]. simpl.
  destruct (Str.is_dot c) eqn:E; [|reflexivity]. simpl. rewrite E, IH. reflexivity.
Qed.

Lemma dot_run_fixed (s : string) : all_chars Str.is_dot s = true -> dot_run s = s.
Proof.
  induction s as [|c r IH]; [reflexivity|]. simpl. intros H.
  apply andb_true_iff in H as [Hc Hr]. rewrite Hc, (IH Hr). reflexivity.
Qed.

Lemma match_rollout_eq (base : string) :
  match_rollout base
  = match match_shape rollout_shape base with
    | Some rest =>
        if Str.truthy (dot_run rest) then Some (dot_run rest)
        else match base with String _ r => match_rollout r | "" => None end
    | None => match base with String _ r => match_rollout r | "" => None end
    end.
Proof.
  destruct base as [|c r].
  - reflexivity.
  - change (match_rollout (String c r))
      with (match
              match match_shape rollout_shape (String c r) with
              | Some rest => if Str.truthy (dot_run rest) then Some (dot_run rest) else None
              | None => None
              end
            with
            | Some g => Some g
            | None => match_rollout r
            end).
    destruct (match_shape rollout_shape (String c r)) as [rest|]; [|reflexivity].
    destruct (Str.truthy (dot_run rest)); reflexivity.
Qed.

Lemma match_rollout_found (base g : string) :
  match_rollout base = Some g ->
  g <> "" /\ part_of g base /\ all_chars Str.is_dot g = true.
Proof.
  induction base as [|c r IH]; rewrite match_rollout_eq.
  - destruct (match_shape rollout_shape "") as [rest|] eqn:M; [|discriminate].
    destruct (Str.truthy (dot_run rest)) eqn:T; [|discriminate].
    intros [= <-]. split; [apply truthy_true, T|]. split; [|apply dot_run_chars].
    destruct (match_shape_back _ _ _ M) as [a Ha]. destruct (dot_run_front rest) as [b Hb].
    exists a, b. rewrite <- Hb. exact Ha.
  - assert (Hrec : match_rollout r = Some g ->
                   g <> "" /\ part_of g (String c r) /\ all_chars Str.is_dot g = true).
    { intros H. destruct (IH H) as (Hne & Hpart & Hdot). split; [exact Hne|]. split; [|exact Hdot].
      apply (part_of_trans _ r); [exact Hpart|]. exists (String c ""), "".
      simpl. rewrite string_app_nil_r. reflexivity. }
    destruct (match_shape rollout_shape (String c r)) as [rest|] eqn:M; [|exact Hrec].
    destruct (Str.truthy (dot_run rest)) eqn:T; [|exact Hrec].
    intros [= <-]. split; [apply truthy_true, T|]. split; [|apply dot_run_chars].
    destruct (match_shape_back _ _ _ M) as [a Ha]. destruct (dot_run_front rest) as [b Hb].
    exists a, b. rewrite <- Hb. exact Ha.
Qed.

Lemma all_chars_and (p q : ascii -> bool) (s : string) :
  all_chars p s = true -> all_chars q s = true -> all_chars (fun c => p c && q c) s = true.
Proof.
  induction s as [|c r IH]; simpl; [reflexivity|]. intros Hp Hq.
  apply andb_true_iff in Hp as [Hp Hp']. apply andb_true_iff in Hq as [Hq Hq'].
  rewrite Hp, Hq, (IH Hp' Hq'). reflexivity.
Qed.

(** X3. A session id read off a file name is never empty and holds
    neither a slash nor a line terminator. *)
Theorem extractSessionId_shape (filePath id : string) :
  extractSessionId filePath = Some id ->
  id <> "" /\ all_chars is_id_char id = true.
Proof.
  unfold extractSessionId. intros H.
  destruct (match_rollout_found _ _ H) as (Hne & Hpart & Hdot). split; [exact Hne|].
  apply all_chars_and; [exact Hdot|].
  exact (part_of_all_chars _ _ _ Hpart (basename_ext_no_slash filePath ".jsonl")).
Qed.

(** X4. The id of a session is read back from the name of its file: a
    file named [rollout-], a stamp of the shape
    [dddd-dd-ddTdd-dd-dd-], an id and [.jsonl], in any directory, yields
    that id, as long as the id is not empty and holds neither a slash nor
    a line terminator. *)
Theorem extractSessionId_round_trip (dir stamp id : string) :
  match_shape rollout_shape stamp = Some "" ->
  id <> "" ->
  all_chars is_id_char id = true ->
  extractSessionId (dir ++ "/" ++ stamp ++ id ++ ".jsonl") = Some id.
Proof.
  intros Hstamp Hne Hid.
  assert (Hdot : all_chars Str.is_dot id = true).
  { apply (all_chars_impl is_id_char); [|exact Hid].
    unfold is_id_char. intros c Hc. apply andb_true_iff in Hc as [Hc _]. exact Hc. }
  assert (Hslash : all_chars (fun c => negb (is_slash c)) id = true).
  { apply (all_chars_impl is_id_char); [|exact Hid].
    unfold is_id_char. intros c Hc. apply andb_true_iff in Hc as [_ Hc]. exact Hc. }
  pose proof (match_shape_chars _ _ _ rollout_shape_no_slash Hstamp) as Hstamp_slash.
  set (name := stamp ++ id ++ ".jsonl").
  assert (Hname : all_chars (fun c => negb (is_slash c)) name = true).
  { unfold name. rewrite !all_chars_app, Hstamp_slash, Hslash. reflexivity. }
  assert (Hlen : (6 < String.length name)%nat).
  { unfold name. rewrite !length_app_string. change (String.length ".jsonl") with 6%nat.
    destruct id; [contradiction|]. simpl. lia. }
  unfold extractSessionId, Path.basename_ext.
  assert (E1 : String.eqb (dir ++ "/" ++ name) ".jsonl" = false).
  { apply String.eqb_neq. intros E. apply (f_equal String.length) in E.
    rewrite !length_app_string in E. simpl in E. lia. }
  rewrite E1. unfold Path.basename.
  rewrite drop_end_slashes_fixed, (last_segment_of dir name Hname).
  - assert (E2 : Str.endsWith ".jsonl" name = true).
    { unfold name. rewrite <- string_app_assoc. apply endsWith_app. }
    assert (E3 : String.eqb name ".jsonl" = false).
    { apply String.eqb_neq. intros E. rewrite E in Hlen. simpl in Hlen. lia. }
    rewrite E2, E3. simpl andb. cbv iota.
    assert (E4 : substring 0 (String.length name - String.length ".jsonl") name = stamp ++ id).
    { unfold name. rewrite <- string_app_assoc, length_app_string.
      replace (String.length (stamp ++ id) + String.length ".jsonl" - String.length ".jsonl")%nat
        with (String.length (stamp ++ id)) by lia.
      apply substring_app_front. }
    rewrite E4, match_rollout_eq, (match_shape_app _ _ id Hstamp), (dot_run_fixed id Hdot).
    rewrite (proj2 (truthy_true id) Hne). reflexivity.
  - unfold name. rewrite <- !string_app_assoc. rewrite last_is_app by discriminate. reflexivity.
Qed.

(** X3, on the path of the sample scenario. *)
Lemma extractSessionId_shape_witness :
  extractSessionId SampleFiles.scenario_path = Some "abc-124"
  /\ "abc-124" <> "" /\ all_chars is_id_char "abc-124" = true.
Proof.
  split; [reflexivity|].
  apply (extractSessionId_shape SampleFiles.scenario_path). reflexivity.
Defined.

(** X4, on the name of the sample scenario. *)
Lemma extractSessionId_round_trip_witness :
  match_shape rollout_shape "rollout-2025-01-02T03-04-04-" = Some ""
  /\ extractSessionId
       ("/root/.codex/sessions/2025/01/02" ++ "/" ++ "rollout-2025-01-02T03-04-04-"
        ++ "abc-124" ++ ".jsonl") = Some "abc-124".
Proof.
  split; [reflexivity|].
  apply extractSessionId_round_trip; [reflexivity|discriminate|reflexivity].
Defined.

(** ** The reader, part by part *)

Lemma split_lines_app (a b : string) :
  Str.split_lines (a ++ String "010" b) = (Str.split_lines a ++ Str.split_lines b)%list.
Proof.
  induction a as [|c r IH]; [reflexivity|].
  simpl. rewrite IH. destruct (Str.is_newline c); [reflexivity|].
  destruct (Str.split_lines r) as [|h t] eqn:E; [|reflexivity].
  destruct r as [|x y]; [discriminate|]. simpl in E.
  destruct (Str.is_newline x); [discriminate|].
  destruct (Str.split_lines y); discriminate.
Qed.

(** X5. A log is read part by part: the envelopes of two texts joined by
    a line break are the envelopes of the first followed by those of the
    second. Lines appended to a log add envelopes at the end and change
    none of those read before; a line break at the end adds nothing. *)
Theorem readJsonl_text_app (JSON_parse : string -> option json) (a b : string) :
  readJsonl_text JSON_parse (a ++ String "010" b)
  = (readJsonl_text JSON_parse a ++ readJsonl_text JSON_parse b)%list
  /\ readJsonl_text JSON_parse (a ++ String "010" "") = readJsonl_text JSON_parse a.
Proof.
  rewrite !readJsonl_text_lines, !split_lines_app, !omap_app. split; [reflexivity|].
  change (Str.split_lines "") with [""]. simpl. 
  change (decode_line JSON_parse "") with (@None CodexEvent).
  apply app_nil_r.
Qed.

(** ** The ledger of tool calls, envelope after envelope *)

Section LedgerFacts.

Variable JSON_parse : string -> option json.
Variable Date_getTime : string -> option Z.

Lemma keeps_refl (c : ToolCall) : keeps c c.
Proof. unfold keeps. auto. Qed.

Lemma keeps_trans (a b c : ToolCall) : keeps a b -> keeps b c -> keeps a c.
Proof.
  intros (I1 & K1 & S1 & D1) (I2 & K2 & S2 & D2). unfold keeps.
  repeat split; try congruence.
  - intros H. rewrite <- (S1 H). apply S2. rewrite (S1 H). exact H.
  - auto.
Qed.

Ltac break_matches :=
  repeat match goal with
         | |- context [match ?x with _ => _ end] => destruct x eqn:?; simpl
         end.

Lemma on_function_call_update timestamp payload calls :
  ledger_update calls (on_function_call timestamp payload calls).
Proof.
  unfold on_function_call.
  destruct (str (field "call_id" payload)) as [cid|]; [|left; reflexivity].
  destruct (is_str _ _); [|left; reflexivity].
  right. eexists cid, _. split; [reflexivity|]. split.
  - intros e ->. unfold keeps, backfill_startedAt. simpl.
    break_matches; repeat split; congruence.
  - intros ->. unfold backfill_startedAt. simpl. break_matches; reflexivity.
Qed.

Lemma on_custom_tool_call_update timestamp payload calls :
  ledger_update calls (on_custom_tool_call timestamp payload calls).
Proof.
  unfold on_custom_tool_call.
  destruct (str (field "call_id" payload)) as [cid|]; [|left; reflexivity].
  destruct (is_str _ _); [|left; reflexivity].
  right. eexists cid, _. split; [reflexivity|]. split.
  - intros e ->. unfold keeps, backfill_startedAt. simpl.
    break_matches; repeat split; congruence.
  - intros ->. unfold backfill_startedAt. simpl. break_matches; reflexivity.
Qed.

Lemma on_function_call_output_update timestamp payload calls :
  ledger_update calls (on_function_call_output timestamp payload calls).
Proof.
  unfold on_function_call_output.
  destruct (str (field "call_id" payload)) as [cid|]; [|left; reflexivity].
  destruct (is_str _ _); [|left; reflexivity].
  destruct (OMap.get cid calls) as [existing|] eqn:G; [|left; reflexivity].
  right. eexists cid, _. split; [reflexivity|]. split; [|rewrite G; discriminate].
  rewrite G. intros e [= <-]. unfold keeps, stamp_completedAt. simpl.
  break_matches; repeat split; congruence.
Qed.

Lemma on_custom_tool_call_output_update timestamp payload calls :
  ledger_update calls (on_custom_tool_call_output JSON_parse timestamp payload calls).
Proof.
  unfold on_custom_tool_call_output.
  destruct (str (field "call_id" payload)) as [cid|]; [|left; reflexivity].
  destruct (is_str _ _); [|left; reflexivity].
  destruct (OMap.get cid calls) as [existing|] eqn:G; [|left; reflexivity].
  right. eexists cid, _. split; [reflexivity|]. split; [|rewrite G; discriminate].
  rewrite G. intros e [= <-]. unfold keeps, stamp_completedAt. simpl.
  break_matches; repeat split; congruence.
Qed.

Lemma ledger_update_get (calls after : OMap.t ToolCall) (k : string) (old : ToolCall) :
  ledger_update calls after ->
  OMap.get k calls = Some old ->
  exists new, OMap.get k after = Some new /\ keeps old new.
Proof.
  intros [->|(cid & c & -> & Hk & _)] G.
  - exists old. split; [exact G|apply keeps_refl].
  - destruct (string_dec cid k) as [->|Hne].
    + exists c. split; [apply get_set_eq|apply Hk, G].
    + exists old. rewrite (get_set_ne _ _ _ _ Hne). split; [exact G|apply keeps_refl].
Qed.

Lemma ledger_update_no_duration (calls after : OMap.t ToolCall) :
  ledger_update calls after -> no_duration calls -> no_duration after.
Proof.
  intros [->|(cid & c & -> & Hk & Hn)] H; [exact H|].
  intros k x G. destruct (string_dec cid k) as [->|Hne].
  - rewrite get_set_eq in G. injection G as <-.
    destruct (OMap.get k calls) as [e|] eqn:E.
    + destruct (Hk e eq_refl) as (_ & _ & _ & D). apply D. exact (H k e E).
    + apply Hn. reflexivity.
  - rewrite (get_set_ne _ _ _ _ Hne) in G. exact (H k x G).
Qed.

Lemma ledger_update_keys (calls after : OMap.t ToolCall) :
  ledger_update calls after ->
  exists added, OMap.keys after = (OMap.keys calls ++ added)%list.
Proof.
  intros [->|(cid & c & -> & _)].
  - exists []. rewrite app_nil_r. reflexivity.
  - destruct (OMap.get cid calls) as [e|] eqn:E.
    + exists []. rewrite app_nil_r. apply set_known. congruence.
    + exists [cid]. rewrite (set_new _ _ _ E). unfold OMap.keys. rewrite map_app. reflexivity.
Qed.

(** The four branches of one turn, one after the other. *)
Lemma tool_step_updates (calls : OMap.t ToolCall) (event : CodexEvent) :
  exists c1 c2 c3,
    ledger_update calls c1 /\ ledger_update c1 c2 /\ ledger_update c2 c3
    /\ ledger_update c3 (tool_step JSON_parse calls event).
Proof.
  unfold tool_step. destruct (payload_of "response_item" event) as [payload|].
  - eexists _, _, _. split; [apply on_function_call_update|].
    split; [apply on_function_call_output_update|].
    split; [apply on_custom_tool_call_update|apply on_custom_tool_call_output_update].
  - exists calls, calls, calls. repeat split; left; reflexivity.
Qed.

Lemma tool_step_get (calls : OMap.t ToolCall) (event : CodexEvent) (k : string)
    (old : ToolCall) :
  OMap.get k calls = Some old ->
  exists new, OMap.get k (tool_step JSON_parse calls event) = Some new /\ keeps old new.
Proof.
  intros G. destruct (tool_step_updates calls event) as (c1 & c2 & c3 & U1 & U2 & U3 & U4).
  destruct (ledger_update_get _ _ _ _ U1 G) as (n1 & G1 & K1).
  destruct (ledger_update_get _ _ _ _ U2 G1) as (n2 & G2 & K2).
  destruct (ledger_update_get _ _ _ _ U3 G2) as (n3 & G3 & K3).
  destruct (ledger_update_get _ _ _ _ U4 G3) as (n4 & G4 & K4).
  exists n4. split; [exact G4|].
  exact (keeps_trans _ _ _ (keeps_trans _ _ _ (keeps_trans _ _ _ K1 K2) K3) K4).
Qed.

Lemma tool_step_no_duration (calls : OMap.t ToolCall) (event : CodexEvent) :
  no_duration calls -> no_duration (tool_step JSON_parse calls event).
Proof.
  intros H. destruct (tool_step_updates calls event) as (c1 & c2 & c3 & U1 & U2 & U3 & U4).
  eauto using ledger_update_no_duration.
Qed.

Lemma tool_step_keys_grow (calls : OMap.t ToolCall) (event : CodexEvent) :
  exists added,
    OMap.keys (tool_step JSON_parse calls event) = (OMap.keys calls ++ added)%list.
Proof.
  destruct (tool_step_updates calls event) as (c1 & c2 & c3 & U1 & U2 & U3 & U4).
  destruct (ledger_update_keys _ _ U1) as [a1 E1].
  destruct (ledger_update_keys _ _ U2) as [a2 E2].
  destruct (ledger_update_keys _ _ U3) as [a3 E3].
  destruct (ledger_update_keys _ _ U4) as [a4 E4].
  exists (a1 ++ a2 ++ a3 ++ a4)%list. rewrite E4, E3, E2, E1, <- !app_assoc. reflexivity.
Qed.

Lemma fold_tool_step_get (more : list CodexEvent) (calls : OMap.t ToolCall) (k : string)
    (old : ToolCall) :
  OMap.get k calls = Some old ->
  exists new, OMap.get k (fold_left (tool_step JSON_parse) more calls) = Some new
              /\ keeps old new.
Proof.
  revert calls old. induction more as [|e more IH]; intros calls old G; simpl.
  - exists old. split; [exact G|apply keeps_refl].
  - destruct (tool_step_get calls e k old G) as (n1 & G1 & K1).
    destruct (IH _ _ G1) as (n2 & G2 & K2).
    exists n2. split; [exact G2|exact (keeps_trans _ _ _ K1 K2)].
Qed.

Lemma fold_tool_step_no_duration (events : list CodexEvent) (calls : OMap.t ToolCall) :
  no_duration calls -> no_duration (fold_left (tool_step JSON_parse) events calls).
Proof.
  revert calls. induction events as [|e events IH]; intros calls H; simpl; [exact H|].
  apply IH, tool_step_no_duration, H.
Qed.

Lemma fold_tool_step_keys_grow (more : list CodexEvent) (calls : OMap.t ToolCall) :
  exists added,
    OMap.keys (fold_left (tool_step JSON_parse) more calls)
    = (OMap.keys calls ++ added)%list.
Proof.
  revert calls. induction more as [|e more IH]; intros calls; simpl.
  - exists []. rewrite app_nil_r. reflexivity.
  - destruct (IH (tool_step JSON_parse calls e)) as [a2 E2].
    destruct (tool_step_keys_grow calls e) as [a1 E1].
    exists (a1 ++ a2)%list. rewrite E2, E1, <- app_assoc. reflexivity.
Qed.

Lemma reconcile_no_duration (events : list CodexEvent) :
  no_duration (reconcile JSON_parse events).
Proof. apply fold_tool_step_no_duration. intros k c. discriminate. Qed.

Lemma values_ids (calls : OMap.t ToolCall) :
  ledger_ok calls -> map tc_id (OMap.values calls) = OMap.keys calls.
Proof.
  induction calls as [|[k v] rest IH]; intros [Hnd Hid]; [reflexivity|].
  simpl. f_equal.
  - apply Hid. simpl. rewrite String.eqb_refl. reflexivity.
  - apply IH. simpl in Hnd. apply NoDup_cons in Hnd as [Hk Hnd]. split; [exact Hnd|].
    intros k' c G. apply Hid. simpl.
    destruct (String.eqb k' k) eqn:E; [|exact G].
    apply String.eqb_eq in E. subst k'. exfalso. apply Hk.
    apply list_elem_of_In.
    destruct (in_dec string_dec k (OMap.keys rest)) as [H|H]; [exact H|].
    apply get_None_keys in H. congruence.
Qed.

Lemma finalize_fields (c : ToolCall) :
  tc_id (finalize Date_getTime c) = tc_id c
  /\ tc_toolKind (finalize Date_getTime c) = tc_toolKind c
  /\ tc_startedAt (finalize Date_getTime c) = tc_startedAt c
  /\ tc_completedAt (finalize Date_getTime c) = tc_completedAt c
  /\ (tc_durationMs c = None ->
      tc_durationMs (finalize Date_getTime c) = duration_of Date_getTime c).
Proof.
  unfold finalize, duration_of. destruct (tc_startedAt c) as [s|] eqn:Hs; [|auto 6].
  destruct (tc_completedAt c) as [t|] eqn:Ht; [|auto 6].
  destruct (Str.truthy s && Str.truthy t); simpl; auto 6.
Qed.

(** X6. The tool calls of a growing log: every call returned for a log
    is still returned when envelopes are appended to the log, under the
    same id, with the same kind and, once it has one, the same
    [startedAt]; and the count of calls never goes down. *)
Theorem tool_calls_persist (events more : list CodexEvent) (c : ToolCall) :
  In c (toolCalls (buildToolCalls JSON_parse Date_getTime events)) ->
  (exists c', In c' (toolCalls (buildToolCalls JSON_parse Date_getTime (events ++ more)))
              /\ tc_id c' = tc_id c
              /\ tc_toolKind c' = tc_toolKind c
              /\ (tc_startedAt c <> None -> tc_startedAt c' = tc_startedAt c))
  /\ (toolCallCount (buildToolCalls JSON_parse Date_getTime events)
      <= toolCallCount (buildToolCalls JSON_parse Date_getTime (events ++ more)))%nat.
Proof.
  intros Hin. split.
  - apply In_buildToolCalls in Hin as (c0 & Hin & ->).
    destruct (In_get _ _ (proj1 (reconcile_ok JSON_parse events)) Hin) as [k G].
    destruct (fold_tool_step_get more _ k c0 G) as (n & Gn & I & K & S & _).
    exists (finalize Date_getTime n). split.
    + apply In_buildToolCalls. exists n. split; [|reflexivity].
      apply (get_In _ k). unfold reconcile. rewrite fold_left_app. exact Gn.
    + destruct (finalize_fields n) as (In' & Kn & Sn & _).
      destruct (finalize_fields c0) as (I0 & K0 & S0 & _).
      rewrite In', Kn, Sn, I0, K0, S0. auto.
  - unfold buildToolCalls. simpl. rewrite !length_map. unfold OMap.values.
    rewrite !length_map. unfold reconcile. rewrite fold_left_app.
    destruct (fold_tool_step_keys_grow more (fold_left (tool_step JSON_parse) events []))
      as [added E].
    apply (f_equal (@length string)) in E. unfold OMap.keys in E.
    rewrite length_app, !length_map in E. lia.
Qed.

(** X7. The ids of the tool calls returned are pairwise distinct, and the
    count returned with them is their number. *)
Theorem tool_call_ids_distinct (events : list CodexEvent) :
  NoDup (map tc_id (toolCalls (buildToolCalls JSON_parse Date_getTime events)))
  /\ toolCallCount (buildToolCalls JSON_parse Date_getTime events)
     = length (toolCalls (buildToolCalls JSON_parse Date_getTime events)).
Proof.
  unfold buildToolCalls. simpl. split; [|rewrite Array_sort_length; reflexivity].
  rewrite (Permutation_map tc_id
             (Array_sort_perm by_startedAt
                (map (finalize Date_getTime) (OMap.values (reconcile JSON_parse events))))).
  rewrite map_map.
  rewrite (map_ext _ tc_id (fun c => proj1 (finalize_fields c))).
  rewrite (values_ids _ (reconcile_ok JSON_parse events)).
  exact (proj1 (reconcile_ok JSON_parse events)).
Qed.

(** X8. A call is returned with a duration exactly when it has both a
    [startedAt] and a [completedAt] that are not empty, and the duration
    is then the time of [completedAt] less the time of [startedAt] (NaN
    when one of them does not parse). *)
Theorem tool_call_duration (events : list CodexEvent) (c : ToolCall) :
  In c (toolCalls (buildToolCalls JSON_parse Date_getTime events)) ->
  tc_durationMs c = duration_of Date_getTime c.
Proof.
  intros Hin. apply In_buildToolCalls in Hin as (c0 & Hin & ->).
  destruct (In_get _ _ (proj1 (reconcile_ok JSON_parse events)) Hin) as [k G].
  pose proof (reconcile_no_duration events k c0 G) as D.
  destruct (finalize_fields c0) as (_ & _ & S & T & Hd).
  rewrite (Hd D). unfold duration_of. rewrite S, T. reflexivity.
Qed.

(** X9. For a call returned with a duration that is a number, the view
    of the session stamps the call with the time of its completion
    ([getCallTimestamp]), the chart falls back on the time of its start
    ([toMs] without a preferred time), and the two differ by the
    duration. *)
Theorem tool_call_times (events : list CodexEvent) (c : ToolCall) (d : Z) :
  In c (toolCalls (buildToolCalls JSON_parse Date_getTime events)) ->
  tc_durationMs c = Some (Some d) ->
  exists started completed,
    toMs Date_getTime None c = Some started
    /\ getCallTimestamp Date_getTime c = Some completed
    /\ d = (completed - started)%Z.
Proof.
  intros Hin Hd. apply In_buildToolCalls in Hin as (c0 & Hin & ->).
  destruct (In_get _ _ (proj1 (reconcile_ok JSON_parse events)) Hin) as [k G].
  destruct (finalize_fields c0) as (_ & _ & S & T & Hfin).
  rewrite (Hfin (reconcile_no_duration events k c0 G)) in Hd.
  unfold duration_of in Hd. unfold toMs, getCallTimestamp, time_of. rewrite S, T.
  destruct (tc_startedAt c0) as [s|]; [|discriminate].
  destruct (tc_completedAt c0) as [t|]; [|discriminate].
  destruct (Str.truthy s); [|discriminate]. destruct (Str.truthy t); [|discriminate].
  simpl in Hd. destruct (Date_getTime t) as [tm|]; [|discriminate].
  destruct (Date_getTime s) as [sm|]; [|discriminate].
  injection Hd as <-. exists sm, tm. auto.
Qed.

End LedgerFacts.

(** X6, on a call whose output is appended to the log. *)
Lemma tool_calls_persist_witness :
  let events := [Sample.function_call (Some Sample.t1) "c1"] in
  let more := [Sample.function_call_output (Some Sample.t2) "c1"] in
  exists c,
    toolCalls (buildToolCalls Reference.JSON_parse Reference.Date_getTime events) = [c]
    /\ (exists c',
          In c' (toolCalls (buildToolCalls Reference.JSON_parse Reference.Date_getTime
                              (events ++ more)))
          /\ tc_id c' = tc_id c
          /\ tc_toolKind c' = tc_toolKind c
          /\ (tc_startedAt c <> None -> tc_startedAt c' = tc_startedAt c)).
Proof.
  intros events more.
  destruct (toolCalls (buildToolCalls Reference.JSON_parse Reference.Date_getTime events))
    as [|c [|]] eqn:E; try (vm_compute in E; discriminate E).
  exists c. split; [reflexivity|].
  refine (proj1 (tool_calls_persist Reference.JSON_parse Reference.Date_getTime
                   events more c _)).
  rewrite E. left. reflexivity.
Defined.

(** X8, on a call at [t1] with its output at [t2]. *)
Lemma tool_call_duration_witness :
  let events := [Sample.function_call (Some Sample.t1) "c1";
                 Sample.function_call_output (Some Sample.t2) "c1"] in
  exists c,
    toolCalls (buildToolCalls Reference.JSON_parse Reference.Date_getTime events) = [c]
    /\ duration_of Reference.Date_getTime c = Some (Some 2500%Z)
    /\ tc_durationMs c = duration_of Reference.Date_getTime c.
Proof.
  intros events.
  destruct (toolCalls (buildToolCalls Reference.JSON_parse Reference.Date_getTime events))
    as [|c [|]] eqn:E; try (vm_compute in E; discriminate E).
  exists c. split; [reflexivity|]. split.
  - vm_compute in E. injection E as <-. vm_compute. reflexivity.
  - apply (tool_call_duration Reference.JSON_parse Reference.Date_getTime events c).
    rewrite E. left. reflexivity.
Defined.

(** X9, on the same call. *)
Lemma tool_call_times_witness :
  let events := [Sample.function_call (Some Sample.t1) "c1";
                 Sample.function_call_output (Some Sample.t2) "c1"] in
  exists c,
    toolCalls (buildToolCalls Reference.JSON_parse Reference.Date_getTime events) = [c]
    /\ tc_durationMs c = Some (Some 2500%Z)
    /\ exists started completed,
         toMs Reference.Date_getTime None c = Some started
         /\ getCallTimestamp Reference.Date_getTime c = Some completed
         /\ 2500%Z = (completed - started)%Z.
Proof.
  intros events.
  destruct (toolCalls (buildToolCalls Reference.JSON_parse Reference.Date_getTime events))
    as [|c [|]] eqn:E; try (vm_compute in E; discriminate E).
  assert (D : tc_durationMs c = Some (Some 2500%Z)).
  { vm_compute in E. injection E as <-. reflexivity. }
  exists c. split; [reflexivity|]. split; [exact D|].
  apply (tool_call_times Reference.JSON_parse Reference.Date_getTime events c 2500%Z);
    [|exact D].
  rewrite E. left. reflexivity.
Defined.

(** ** The transcript *)

Lemma extractText_trimmed (content : option json) :
  Str.trim (extractText content) = extractText content.
Proof.
  unfold extractText. destruct content as [[]|]; try reflexivity. apply trim_idempotent.
Qed.

Lemma reasoning_text_not_empty (summary : option json) : reasoning_text summary <> "".
Proof.
  unfold reasoning_text, or_else.
  match goal with |- (if Str.truthy ?x then _ else _) <> _ => destruct (Str.truthy x) eqn:T end.
  - apply truthy_true, T.
  - discriminate.
Qed.

Lemma message_of_index (event : CodexEvent) (n : nat) :
  message_of event n = None <-> is_message event = false.
Proof.
  unfold is_message, message_of.
  destruct (is_str (field "type" event) "response_item").
  - destruct (toRecord (field "payload" event)) as [payload|]; [|tauto].
    destruct (is_str (field "type" payload) "message"); [split; discriminate|].
    destruct (is_str (field "type" payload) "reasoning"); [split; discriminate|tauto].
  - destruct (is_str (field "type" event) "event_msg"); [|tauto].
    destruct (toRecord (field "payload" event)) as [payload|]; [|tauto].
    destruct (is_str (field "type" payload) "agent_reasoning"); [split; discriminate|tauto].
Qed.

(** What a message owes to its envelope and to its place. *)
Lemma message_of_shape (event : CodexEvent) (n : nat) (m : ChatMessage) :
  message_of event n = Some m ->
  id_index (cm_id m) n
  /\ cm_timestamp m = message_timestamp event
  /\ ((cm_kind m = "text" /\ Str.trim (cm_text m) = cm_text m)
      \/ (cm_kind m = "reasoning" /\ cm_role m = "assistant" /\ cm_text m <> "")
      \/ (cm_kind m = "status" /\ cm_role m = "assistant")).
Proof.
  assert (Hid : forall tag, id_index (message_id event tag n) n).
  { intros tag. unfold id_index, message_id.
    exists (default "undefined" (event_timestamp event) ++ "-" ++ tag).
    rewrite !string_app_assoc. reflexivity. }
  unfold message_of.
  destruct (is_str (field "type" event) "response_item").
  - destruct (toRecord (field "payload" event)) as [payload|]; [|discriminate].
    destruct (is_str (field "type" payload) "message").
    + intros [= <-]. simpl. split; [apply Hid|]. split; [reflexivity|].
      left. split; [reflexivity|apply extractText_trimmed].
    + destruct (is_str (field "type" payload) "reasoning"); [|discriminate].
      intros [= <-]. simpl. split; [apply Hid|]. split; [reflexivity|].
      right. left. split; [reflexivity|]. split; [reflexivity|apply reasoning_text_not_empty].
  - destruct (is_str (field "type" event) "event_msg"); [|discriminate].
    destruct (toRecord (field "payload" event)) as [payload|]; [|discriminate].
    destruct (is_str (field "type" payload) "agent_reasoning"); [|discriminate].
    intros [= <-]. simpl. split; [apply Hid|]. split; [reflexivity|].
    right. right. split; reflexivity.
Qed.

Lemma pushed_length (events : list CodexEvent) (acc : list ChatMessage) :
  length
    (fold_left
       (fun (messages : list ChatMessage) event =>
          match message_of event (length messages) with
          | Some m => (messages ++ [m])%list
          | None => messages
          end) events acc)
  = (length acc + length (List.filter is_message events))%nat.
Proof.
  revert acc. induction events as [|e events IH]; intros acc; simpl; [lia|].
  rewrite IH. destruct (message_of e (length acc)) as [m|] eqn:M.
  - assert (I : is_message e = true).
    { destruct (is_message e) eqn:I; [reflexivity|].
      apply (message_of_index e (length acc)) in I. congruence. }
    rewrite I, length_app. simpl. lia.
  - apply message_of_index in M. rewrite M. reflexivity.
Qed.

Lemma pushed_from (events : list CodexEvent) (acc : list ChatMessage) (m : ChatMessage) :
  In m (fold_left
          (fun (messages : list ChatMessage) event =>
             match message_of event (length messages) with
             | Some m => (messages ++ [m])%list
             | None => messages
             end) events acc) ->
  In m acc \/ exists e n, In e events /\ message_of e n = Some m.
Proof.
  revert acc. induction events as [|e events IH]; intros acc; simpl; [auto|].
  intros H. destruct (IH _ H) as [Hacc|(e' & n & He' & Hm)].
  - destruct (message_of e (length acc)) as [m'|] eqn:M; [|auto].
    apply in_app_or in Hacc as [Hacc|[<-|[]]]; [auto|].
    right. exists e, (length acc). auto.
  - right. exists e', n. auto.
Qed.

Lemma digits_no_dash (d : Decimal.uint) :
  all_chars (fun c => negb (is_dash c)) (NilEmpty.string_of_uint d) = true.
Proof. induction d; simpl; try rewrite IHd; reflexivity. Qed.

Lemma of_nat_no_dash (n : nat) : all_chars (fun c => negb (is_dash c)) (Str.of_nat n) = true.
Proof.
  unfold Str.of_nat, NilZero.string_of_uint.
  destruct (Nat.to_uint n); try reflexivity; apply digits_no_dash.
Qed.

Lemma of_nat_inj (a b : nat) : Str.of_nat a = Str.of_nat b -> a = b.
Proof.
  assert (Hnil : forall n, Nat.to_uint n <> Decimal.Nil).
  { intros n H. pose proof (Unsigned.of_to n) as E. rewrite H in E. simpl in E. subst n.
    discriminate H. }
  unfold Str.of_nat. intros H.
  apply (f_equal NilZero.uint_of_string) in H.
  rewrite !NilZero.usu in H by apply Hnil. injection H as H.
  apply (f_equal Nat.of_uint) in H. rewrite !Unsigned.of_to in H. exact H.
Qed.

(** After the last dash of a text stands what has no dash. *)
Lemma after_last_dash (p1 p2 d1 d2 : string) :
  all_chars (fun c => negb (is_dash c)) d1 = true ->
  all_chars (fun c => negb (is_dash c)) d2 = true ->
  p1 ++ "-" ++ d1 = p2 ++ "-" ++ d2 -> d1 = d2.
Proof.
  intros H1 H2. revert p2. induction p1 as [|c p1 IH]; intros [|c' p2]; simpl; intros E.
  - injection E as E. exact E.
  - injection E as <- E. rewrite E, all_chars_app in H1. simpl in H1.
    rewrite andb_false_r in H1. discriminate.
  - injection E as -> E. rewrite <- E, all_chars_app in H2. simpl in H2.
    rewrite andb_false_r in H2. discriminate.
  - injection E as _ E. exact (IH p2 E).
Qed.

Lemma id_index_inj (id : string) (i j : nat) : id_index id i -> id_index id j -> i = j.
Proof.
  intros [p1 E1] [p2 E2]. apply of_nat_inj.
  apply (after_last_dash p1 p2); [apply of_nat_no_dash|apply of_nat_no_dash|congruence].
Qed.

Lemma pushed_ids (events : list CodexEvent) (acc : list ChatMessage) :
  NoDup (map cm_id acc) ->
  (forall m, In m acc -> exists i, (i < length acc)%nat /\ id_index (cm_id m) i) ->
  NoDup (map cm_id
           (fold_left
              (fun (messages : list ChatMessage) event =>
                 match message_of event (length messages) with
                 | Some m => (messages ++ [m])%list
                 | None => messages
                 end) events acc)).
Proof.
  revert acc. induction events as [|e events IH]; intros acc Hnd Hidx; simpl; [exact Hnd|].
  destruct (message_of e (length acc)) as [m|] eqn:M; [|apply IH; assumption].
  destruct (message_of_shape e _ m M) as (Hm & _).
  apply IH.
  - rewrite map_app. simpl. apply NoDup_app. split; [exact Hnd|]. split.
    + intros id Hin Hid. apply list_elem_of_singleton in Hid. subst id.
      apply list_elem_of_In, in_map_iff in Hin as (m' & Hid & Hin).
      destruct (Hidx m' Hin) as (i & Hi & Hidx').
      rewrite Hid in Hidx'. pose proof (id_index_inj _ _ _ Hidx' Hm). lia.
    + apply NoDup_singleton.
  - intros m' Hin. rewrite length_app. simpl.
    apply in_app_or in Hin as [Hin|[<-|[]]].
    + destruct (Hidx m' Hin) as (i & Hi & Hidx'). exists i. split; [lia|exact Hidx'].
    + exists (length acc). split; [lia|exact Hm].
Qed.

Lemma buildMessages_pushed (events : list CodexEvent) :
  buildMessages events = Array_sort by_timestamp (pushed_messages events).
Proof. reflexivity. Qed.

(** X10. The transcript has one message for each envelope that is a
    message, a reasoning turn or an agent-reasoning notice, and none for
    any other envelope; each message is stamped with the timestamp of its
    envelope, or with the epoch when the envelope has none. *)
Theorem messages_one_per_envelope (events : list CodexEvent) :
  length (buildMessages events) = length (List.filter is_message events)
  /\ forall m, In m (buildMessages events) ->
       exists e, In e events /\ is_message e = true
                 /\ cm_timestamp m = default epochISO (event_timestamp e).
Proof.
  rewrite buildMessages_pushed. split.
  - rewrite Array_sort_length. unfold pushed_messages. rewrite pushed_length. reflexivity.
  - intros m Hin. apply Array_sort_In in Hin.
    apply pushed_from in Hin as [[]|(e & n & He & Hm)].
    exists e. split; [exact He|]. split.
    + destruct (is_message e) eqn:I; [reflexivity|].
      apply (message_of_index e n) in I. congruence.
    + exact (proj1 (proj2 (message_of_shape e n m Hm))).
Qed.

(** X11. The ids of the messages of a transcript are pairwise distinct. *)
Theorem message_ids_distinct (events : list CodexEvent) :
  NoDup (map cm_id (buildMessages events)).
Proof.
  rewrite buildMessages_pushed.
  rewrite (Permutation_map cm_id (Array_sort_perm by_timestamp (pushed_messages events))).
  apply pushed_ids; [constructor|intros m []].
Qed.

(** X12. The transcript is in the order of the timestamps: the timestamp
    of each message is at most that of the message after it, as strings
    (the sort of the runtime being rendered as an insertion sort). *)
Theorem messages_in_time_order (events : list CodexEvent) :
  Sorted stamped_le (buildMessages events).
Proof.
  rewrite buildMessages_pushed.
  apply (Array_sort_sorted by_timestamp (fun _ => True) stamped_le).
  - intros x e _ _. unfold by_timestamp, stamped_le, Str.le, Str.gtb.
    destruct (String.compare (cm_timestamp x) (cm_timestamp e));
      cbv iota; intros H; [discriminate|discriminate|exfalso; lia].
  - intros x e _ _. unfold by_timestamp, stamped_le, Str.le, Str.gtb.
    rewrite (String.compare_antisym (cm_timestamp e) (cm_timestamp x)).
    destruct (String.compare (cm_timestamp x) (cm_timestamp e));
      cbv iota; cbn [CompOpp]; intros H; try discriminate; exfalso; apply H; lia.
  - apply Forall_forall. auto.
Qed.

(** X13. In a transcript, the text of a message of kind [text] has no
    white space at its ends, a message of kind [reasoning] is of the
    assistant and its text is never empty, a message of kind [status] is
    of the assistant, and there is no other kind. *)
Theorem message_kinds (events : list CodexEvent) (m : ChatMessage) :
  In m (buildMessages events) ->
  (cm_kind m = "text" /\ Str.trim (cm_text m) = cm_text m)
  \/ (cm_kind m = "reasoning" /\ cm_role m = "assistant" /\ cm_text m <> "")
  \/ (cm_kind m = "status" /\ cm_role m = "assistant").
Proof.
  rewrite buildMessages_pushed. intros Hin. apply Array_sort_In in Hin.
  apply pushed_from in Hin as [[]|(e & n & He & Hm)].
  exact (proj2 (proj2 (message_of_shape e n m Hm))).
Qed.

(** X13, on a user message and a reasoning turn whose summary is hidden. *)
Lemma message_kinds_witness :
  let events := [Sample.user_message (Some Sample.t1) ["  Hello"; "world  "];
                 Sample.envelope (Some Sample.t2) "response_item" [("type", JStr "reasoning")]] in
  map cm_text (buildMessages events) = ["Hello" ++ String "010" "world"; "Reasoning log hidden"]
  /\ Forall (fun m =>
               (cm_kind m = "text" /\ Str.trim (cm_text m) = cm_text m)
               \/ (cm_kind m = "reasoning" /\ cm_role m = "assistant" /\ cm_text m <> "")
               \/ (cm_kind m = "status" /\ cm_role m = "assistant"))
            (buildMessages events).
Proof.
  intros events. split; [vm_compute; reflexivity|].
  apply Forall_forall. intros m Hm. apply (message_kinds events m).
  apply list_elem_of_In. exact Hm.
Defined.

(** ** The order of strings *)

Lemma ascii_compare_trans (a b c : ascii) (r : comparison) :
  Ascii.compare a b = r -> Ascii.compare b c = r -> Ascii.compare a c = r.
Proof.
  unfold Ascii.compare. intros <- H.
  destruct (N.compare_spec (N_of_ascii a) (N_of_ascii b)) as [E|E|E];
    destruct (N.compare_spec (N_of_ascii b) (N_of_ascii c)) as [E'|E'|E']; try discriminate;
    [apply N.compare_eq_iff|apply N.compare_lt_iff|apply N.compare_gt_iff]; lia.
Qed.

Lemma ascii_compare_eq (a b : ascii) : Ascii.compare a b = Eq -> a = b.
Proof. apply Ascii.compare_eq_iff. Qed.

Lemma string_compare_refl (a : string) : String.compare a a = Eq.
Proof.
  induction a as [|x a IH]; [reflexivity|]. simpl.
  unfold Ascii.compare. rewrite N.compare_refl. exact IH.
Qed.

Lemma string_compare_trans (a b c : string) (r : comparison) :
  String.compare a b = r -> String.compare b c = r -> String.compare a c = r.
Proof.
  revert b c. induction a as [|x a IH]; intros [|y b] [|z c]; simpl; try congruence.
  destruct (Ascii.compare x y) eqn:Exy; destruct (Ascii.compare y z) eqn:Eyz.
  - rewrite (ascii_compare_trans x y z Eq Exy Eyz). apply IH.
  - apply ascii_compare_eq in Exy. subst y. rewrite Eyz. congruence.
  - apply ascii_compare_eq in Exy. subst y. rewrite Eyz. congruence.
  - apply ascii_compare_eq in Eyz. subst z. rewrite Exy. congruence.
  - rewrite (ascii_compare_trans x y z Lt Exy Eyz). congruence.
  - congruence.
  - apply ascii_compare_eq in Eyz. subst z. rewrite Exy. congruence.
  - congruence.
  - rewrite (ascii_compare_trans x y z Gt Exy Eyz). congruence.
Qed.

Lemma str_le_refl (a : string) : Str.le a a.
Proof. unfold Str.le. rewrite string_compare_refl. discriminate. Qed.

Lemma str_le_trans (a b c : string) : Str.le a b -> Str.le b c -> Str.le a c.
Proof.
  unfold Str.le. intros Hab Hbc.
  destruct (String.compare a b) eqn:Eab; [| |congruence].
  - apply String.compare_eq_iff in Eab. subst b. exact Hbc.
  - destruct (String.compare b c) eqn:Ebc; [| |congruence].
    + apply String.compare_eq_iff in Ebc. subst c. rewrite Eab. discriminate.
    + rewrite (string_compare_trans a b c Lt Eab Ebc). discriminate.
Qed.

Lemma str_le_empty (a : string) : Str.le "" a.
Proof. unfold Str.le. destruct a; discriminate. Qed.

Lemma ltb_le (a b : string) : String.ltb a b = true -> Str.le a b.
Proof. unfold String.ltb, Str.le. destruct (String.compare a b); congruence. Qed.

Lemma not_ltb_le (a b : string) : String.ltb a b = false -> Str.le b a.
Proof.
  unfold String.ltb, Str.le. rewrite (String.compare_antisym b a).
  destruct (String.compare a b); simpl; congruence.
Qed.

(** ** The files of the sessions *)

Lemma by_code_units_neg (x e : string) : (by_code_units x e < 0)%Z -> Str.le x e.
Proof.
  unfold by_code_units, Str.le.
  destruct (String.compare x e); intros H; try discriminate; exfalso; lia.
Qed.

Lemma by_code_units_nonneg (x e : string) : ~ (by_code_units x e < 0)%Z -> Str.le e x.
Proof.
  unfold by_code_units, Str.le. rewrite (String.compare_antisym e x).
  destruct (String.compare x e); cbn [CompOpp]; intros H; try discriminate;
    exfalso; apply H; lia.
Qed.

(** X14. The session files are listed each once, in the ascending order
    of their paths (by code units). *)
Theorem listSessionFiles_order (fs : FileSystem) :
  Permutation (listSessionFiles fs) (map fst fs)
  /\ Sorted Str.le (listSessionFiles fs).
Proof.
  split; [apply Array_sort_perm|].
  apply (Array_sort_sorted by_code_units (fun _ => True) Str.le).
  - intros x e _ _. apply by_code_units_neg.
  - intros x e _ _. apply by_code_units_nonneg.
  - apply Forall_forall. auto.
Qed.

Lemma find_first {A : Type} (f : A -> bool) (l : list A) (x : A) :
  List.find f l = Some x ->
  exists before after,
    l = (before ++ x :: after)%list /\ f x = true /\ forall y, In y before -> f y = false.
Proof.
  induction l as [|a l IH]; simpl; [discriminate|].
  destruct (f a) eqn:E.
  - intros [= <-]. exists [], l. split; [reflexivity|]. split; [exact E|]. intros y [].
  - intros H. destruct (IH H) as (before & after & -> & Hx & Hb).
    exists (a :: before), after. split; [reflexivity|]. split; [exact Hx|].
    intros y [<-|Hy]; [exact E|exact (Hb y Hy)].
Qed.

Lemma sorted_after (l1 l2 : list string) (x y : string) :
  Sorted Str.le (l1 ++ x :: l2) -> In y l2 -> Str.le x y.
Proof.
  intros H Hy. apply Sorted_StronglySorted in H; [|intros a b c; apply str_le_trans].
  induction l1 as [|a l1 IH]; simpl in H.
  - apply StronglySorted_inv in H as [_ H]. rewrite List.Forall_forall in H. exact (H y Hy).
  - apply StronglySorted_inv in H as [H _]. exact (IH H).
Qed.

Lemma named_after (sessionId p : string) :
  match extractSessionId p with
  | Some found => String.eqb found sessionId
  | None => false
  end = true <-> extractSessionId p = Some sessionId.
Proof.
  destruct (extractSessionId p) as [found|].
  - rewrite String.eqb_eq. split; congruence.
  - split; discriminate.
Qed.

Lemma findSessionFile_none (fs : FileSystem) (sessionId : string) :
  findSessionFile fs sessionId = None
  <-> forall p, In p (map fst fs) -> extractSessionId p <> Some sessionId.
Proof.
  unfold findSessionFile. split.
  - intros H p Hp Hid. apply named_after in Hid.
    rewrite (List.find_none _ _ H p) in Hid; [discriminate|].
    apply Array_sort_In. exact Hp.
  - intros H.
    match goal with |- List.find ?f ?l = None => destruct (List.find f l) as [p|] eqn:F end;
      [|reflexivity].
    apply List.find_some in F as [Hp Hid]. apply Array_sort_In in Hp.
    apply named_after in Hid. destruct (H p Hp Hid).
Qed.

(** X15. A session is looked up by the id in the name of its file: the
    lookup finds nothing exactly when no listed file is named after the
    id; the file it finds is a listed file named after the id, and among
    several such files it is the one whose path comes first. *)
Theorem findSessionFile_first (fs : FileSystem) (sessionId : string) :
  (findSessionFile fs sessionId = None
   <-> forall p, In p (map fst fs) -> extractSessionId p <> Some sessionId)
  /\ (forall filePath, findSessionFile fs sessionId = Some filePath ->
        In filePath (map fst fs)
        /\ extractSessionId filePath = Some sessionId
        /\ forall p, In p (map fst fs) -> extractSessionId p = Some sessionId ->
                     Str.le filePath p).
Proof.
  split; [apply findSessionFile_none|].
  intros filePath F. unfold findSessionFile in F.
  destruct (find_first _ _ _ F) as (before & after & E & Hx & Hb).
  apply List.find_some in F as [Hp Hid]. split; [apply Array_sort_In in Hp; exact Hp|].
  split; [apply named_after, Hid|].
  intros p Hp' Hid'. apply (named_after sessionId) in Hid'.
  apply (Array_sort_In by_code_units) in Hp'. fold (listSessionFiles fs) in Hp'.
  rewrite E in Hp'. apply in_app_or in Hp' as [Hp'|[<-|Hp']].
  - rewrite (Hb p Hp') in Hid'. discriminate.
  - apply str_le_refl.
  - apply (sorted_after before after filePath p); [|exact Hp'].
    rewrite <- E. apply (Array_sort_sorted by_code_units (fun _ => True) Str.le).
    + intros x e _ _. apply by_code_units_neg.
    + intros x e _ _. apply by_code_units_nonneg.
    + apply Forall_forall. auto.
Qed.

(** ** The cache of summaries *)

Section ListingFacts.

Variable JSON_parse : string -> option json.
Variable Date_getTime : string -> option Z.
Variable path_relative : string -> string -> string.
Variable CODEX_ROOT : string.

Lemma extractSessionId_truthy (filePath sessionId : string) :
  extractSessionId filePath = Some sessionId -> Str.truthy sessionId = true.
Proof.
  intros H. apply truthy_true.
  exact (proj1 (match_rollout_found _ _ H)).
Qed.

(** An entry of the cache with the modification time of the file is
    returned as it is. *)
Lemma parseSessionSummary_hit (fs : FileSystem) (filePath : string) (file : File)
    (summary : SessionSummary) (summaryCache : gmap string (Z * SessionSummary)) :
  extractSessionId filePath <> None ->
  OMap.get filePath fs = Some file ->
  summaryCache !! filePath = Some (mtimeMs file, summary) ->
  parseSessionSummary JSON_parse path_relative CODEX_ROOT fs filePath summaryCache
  = (Some summary, summaryCache).
Proof.
  intros Hid Hget Hc. unfold parseSessionSummary.
  destruct (extractSessionId filePath) as [sid|] eqn:X; [|congruence].
  rewrite (extractSessionId_truthy _ _ X), Hget, Hc, Z.eqb_refl. reflexivity.
Qed.

(** The three ways a call can end: without a summary and without a change
    of the cache, with the entry of the cache, or with a summary computed
    from the file and filed in the cache. *)
Lemma parseSessionSummary_cases (fs : FileSystem) (filePath : string)
    (summaryCache : gmap string (Z * SessionSummary)) :
  let result :=
    parseSessionSummary JSON_parse path_relative CODEX_ROOT fs filePath summaryCache in
  result = (None, summaryCache)
  \/ (exists file summary,
        extractSessionId filePath <> None
        /\ OMap.get filePath fs = Some file
        /\ summaryCache !! filePath = Some (mtimeMs file, summary)
        /\ result = (Some summary, summaryCache))
  \/ (exists file summary,
        extractSessionId filePath <> None
        /\ OMap.get filePath fs = Some file
        /\ (forall cached, summaryCache !! filePath <> Some (mtimeMs file, cached))
        /\ fst (parseSessionSummary JSON_parse path_relative CODEX_ROOT fs filePath ∅)
           = Some summary
        /\ result = (Some summary, <[ filePath := (mtimeMs file, summary) ]> summaryCache)).
Proof.
  intros result. subst result. unfold parseSessionSummary.
  destruct (extractSessionId filePath) as [sid|] eqn:X; [|left; reflexivity].
  rewrite (extractSessionId_truthy _ _ X). simpl negb. cbv iota.
  destruct (OMap.get filePath fs) as [file|] eqn:G; [|left; reflexivity].
  rewrite lookup_empty.
  destruct (summarize path_relative CODEX_ROOT sid filePath
              (readJsonl_text JSON_parse (content file))) as [fresh|] eqn:S;
    (destruct (summaryCache !! filePath) as [[mtime cached]|] eqn:L;
     [destruct (mtime =? mtimeMs file)%Z eqn:E;
      [apply Z.eqb_eq in E; subst mtime; right; left; exists file, cached;
       repeat split; congruence|apply Z.eqb_neq in E]|]);
    try (left; reflexivity);
    right; right; exists file, fresh; repeat split; congruence.
Qed.

(** X16. A summary that [parseSessionSummary] returns is in the cache
    afterwards, filed under the path with the modification time of the
    file, and a second call for the same file returns the same summary
    and leaves the cache as it is. *)
Theorem parseSessionSummary_cached (fs : FileSystem) (filePath : string)
    (summaryCache cache' : gmap string (Z * SessionSummary)) (summary : SessionSummary) :
  parseSessionSummary JSON_parse path_relative CODEX_ROOT fs filePath summaryCache
  = (Some summary, cache') ->
  (exists file, OMap.get filePath fs = Some file
                /\ cache' !! filePath = Some (mtimeMs file, summary))
  /\ parseSessionSummary JSON_parse path_relative CODEX_ROOT fs filePath cache'
     = (Some summary, cache').
Proof.
  intros H.
  destruct (parseSessionSummary_cases fs filePath summaryCache)
    as [E|[(file & s & Hid & G & L & E)|(file & s & Hid & G & _ & _ & E)]];
    rewrite H in E; [discriminate E| |].
  - assert (s = summary) by congruence. assert (cache' = summaryCache) by congruence.
    subst s cache'.
    split; [exists file; auto|]. apply (parseSessionSummary_hit fs filePath file); assumption.
  - assert (s = summary) by congruence.
    assert (cache' = <[ filePath := (mtimeMs file, summary) ]> summaryCache) by congruence.
    subst s cache'.
    assert (L : (<[ filePath := (mtimeMs file, summary) ]> summaryCache) !! filePath
                = Some (mtimeMs file, summary)) by apply lookup_insert_eq.
    split; [exists file; auto|]. apply (parseSessionSummary_hit fs filePath file); assumption.
Qed.

(** X17. An entry of the cache is used for as long as the modification
    time of the file is the one it was filed with, whatever the file
    holds by then; once the modification time differs, the entry is not
    looked at: the summary is computed from the file as with an empty
    cache, and it replaces the entry. *)
Theorem parseSessionSummary_entry (fs : FileSystem) (filePath : string) (file : File)
    (mtime : Z) (cached : SessionSummary) (summaryCache : gmap string (Z * SessionSummary)) :
  extractSessionId filePath <> None ->
  OMap.get filePath fs = Some file ->
  summaryCache !! filePath = Some (mtime, cached) ->
  (mtime = mtimeMs file ->
   parseSessionSummary JSON_parse path_relative CODEX_ROOT fs filePath summaryCache
   = (Some cached, summaryCache))
  /\ (mtime <> mtimeMs file ->
      fst (parseSessionSummary JSON_parse path_relative CODEX_ROOT fs filePath summaryCache)
      = fst (parseSessionSummary JSON_parse path_relative CODEX_ROOT fs filePath ∅)
      /\ forall summary,
           fst (parseSessionSummary JSON_parse path_relative CODEX_ROOT fs filePath
                  summaryCache) = Some summary ->
           snd (parseSessionSummary JSON_parse path_relative CODEX_ROOT fs filePath
                  summaryCache) !! filePath = Some (mtimeMs file, summary)).
Proof.
  intros Hid G L. split.
  - intros ->. apply (parseSessionSummary_hit fs filePath file); assumption.
  - intros Hne.
    destruct (parseSessionSummary_cases fs filePath summaryCache)
      as [E|[(file' & s & _ & G' & L' & E)|(file' & s & _ & G' & _ & F & E)]].
    + rewrite E. simpl. split; [|discriminate].
      rewrite parseSessionSummary_fresh.
      revert E. unfold parseSessionSummary.
      destruct (extractSessionId filePath) as [sid|] eqn:X; [|congruence].
      rewrite (extractSessionId_truthy _ _ X), G, L. simpl negb. cbv iota.
      apply Z.eqb_neq in Hne. rewrite Hne.
      destruct (summarize _ _ _ _ _); [discriminate|reflexivity].
    + exfalso. congruence.
    + rewrite E, F. simpl. split; [reflexivity|].
      intros summary [= <-]. rewrite lookup_insert_eq. congruence.
Qed.

End ListingFacts.

(** X16, on the sample scenario, read with an empty cache. *)
Lemma parseSessionSummary_cached_witness :
  match parseSessionSummary Reference.JSON_parse Reference.path_relative Reference.CODEX_ROOT
          SampleFiles.fs SampleFiles.scenario_path ∅ with
  | (Some summary, cache') =>
      ss_id summary = "abc-124"
      /\ parseSessionSummary Reference.JSON_parse Reference.path_relative Reference.CODEX_ROOT
           SampleFiles.fs SampleFiles.scenario_path cache' = (Some summary, cache')
  | (None, _) => False
  end.
Proof.
  assert (Hid : option_map ss_id
                  (fst (parseSessionSummary Reference.JSON_parse Reference.path_relative
                          Reference.CODEX_ROOT SampleFiles.fs SampleFiles.scenario_path ∅))
                = Some "abc-124") by (vm_compute; reflexivity).
  destruct (parseSessionSummary Reference.JSON_parse Reference.path_relative
              Reference.CODEX_ROOT SampleFiles.fs SampleFiles.scenario_path ∅)
    as [[summary|] cache'] eqn:E; [|discriminate Hid].
  split; [injection Hid as Hid; exact Hid|].
  exact (proj2 (parseSessionSummary_cached Reference.JSON_parse Reference.path_relative
                  Reference.CODEX_ROOT _ _ _ _ _ E)).
Defined.

(** X17, on the sample scenario, with an entry of the cache that holds the
    empty summary: the entry is returned under the modification time of
    the file, and dropped under another one. *)
Lemma parseSessionSummary_entry_witness :
  let fresh_cache : gmap string (Z * SessionSummary) :=
    {[ SampleFiles.scenario_path := (1735787051000%Z, emptySummary) ]} in
  let stale_cache : gmap string (Z * SessionSummary) :=
    {[ SampleFiles.scenario_path := (1735787050999%Z, emptySummary) ]} in
  parseSessionSummary Reference.JSON_parse Reference.path_relative Reference.CODEX_ROOT
    SampleFiles.fs SampleFiles.scenario_path fresh_cache = (Some emptySummary, fresh_cache)
  /\ fst (parseSessionSummary Reference.JSON_parse Reference.path_relative Reference.CODEX_ROOT
            SampleFiles.fs SampleFiles.scenario_path stale_cache)
     = fst (parseSessionSummary Reference.JSON_parse Reference.path_relative
              Reference.CODEX_ROOT SampleFiles.fs SampleFiles.scenario_path ∅).
Proof.
  intros fresh_cache stale_cache.
  assert (Hid : extractSessionId SampleFiles.scenario_path <> None) by (vm_compute; discriminate).
  assert (G : OMap.get SampleFiles.scenario_path SampleFiles.fs
              = Some {| mtimeMs := 1735787051000; content := SampleFiles.scenario_log |})
    by reflexivity.
  split.
  - refine (proj1 (parseSessionSummary_entry Reference.JSON_parse Reference.path_relative
                     Reference.CODEX_ROOT SampleFiles.fs SampleFiles.scenario_path _
                     1735787051000%Z emptySummary fresh_cache Hid G _) eq_refl).
    apply lookup_singleton_eq.
  - refine (proj1 (proj2 (parseSessionSummary_entry Reference.JSON_parse
                            Reference.path_relative Reference.CODEX_ROOT SampleFiles.fs
                            SampleFiles.scenario_path _ 1735787050999%Z emptySummary
                            stale_cache Hid G _) _)).
    + apply lookup_singleton_eq.
    + simpl. discriminate.
Defined.

(** ** The route of one session *)

Section RouteFacts.

Variable JSON_parse : string -> option json.
Variable Date_getTime : string -> option Z.
Variable path_relative : string -> string -> string.
Variable CODEX_ROOT : string.


End RouteFacts.

(** ** The listing of the sessions *)

Section SessionListFacts.

Variable JSON_parse : string -> option json.
Variable Date_getTime : string -> option Z.
Variable path_relative : string -> string -> string.
Variable CODEX_ROOT : string.

Lemma or_else_truthy (x y : string) : y <> "" -> or_else x y <> "".
Proof.
  intros Hy. unfold or_else. destruct (Str.truthy x) eqn:T; [apply truthy_true, T|exact Hy].
Qed.

(** What every summary computed from a log has. *)
Lemma summarize_fields (sessionId filePath : string) (events : list CodexEvent)
    (summary : SessionSummary) :
  summarize path_relative CODEX_ROOT sessionId filePath events = Some summary ->
  ss_id summary = sessionId
  /\ ss_startedAt summary <> ""
  /\ ss_lastActivityAt summary <> ""
  /\ ss_preview summary <> "".
Proof.
  unfold summarize. destruct (st_meta _) as [meta|]; [|discriminate].
  intros [= <-]. simpl. split; [reflexivity|].
  repeat split; repeat apply or_else_truthy; discriminate.
Qed.

(** The loop of [getSessionSummaries], with a cache that holds nothing
    stale: the summaries are those that a fresh computation returns, in
    the order of the files. *)
Lemma summaries_fold (fs : FileSystem) (files : list string) (acc : list SessionSummary)
    (summaryCache : gmap string (Z * SessionSummary)) :
  cache_coherent JSON_parse path_relative CODEX_ROOT fs summaryCache ->
  fst (fold_left (summaries_step JSON_parse path_relative CODEX_ROOT fs) files
         (acc, summaryCache))
  = (acc ++ omap (fun file =>
                    fst (parseSessionSummary JSON_parse path_relative CODEX_ROOT fs file ∅))
              files)%list
  /\ cache_coherent JSON_parse path_relative CODEX_ROOT fs
       (snd (fold_left (summaries_step JSON_parse path_relative CODEX_ROOT fs) files
               (acc, summaryCache))).
Proof.
  revert acc summaryCache. induction files as [|file files IH]; intros acc c Hco; simpl.
  - rewrite app_nil_r. auto.
  - destruct (parseSessionSummary_coherent JSON_parse path_relative CODEX_ROOT fs file c Hco)
      as [Hfst Hco'].
    unfold summaries_step at 2 4. simpl.
    destruct (parseSessionSummary JSON_parse path_relative CODEX_ROOT fs file c)
      as [parsed c'] eqn:E.
    simpl in Hfst, Hco'. rewrite <- Hfst.
    destruct parsed as [s|].
    + destruct (IH (acc ++ [s])%list c' Hco') as [H1 H2]. rewrite H1, <- app_assoc. auto.
    + apply IH, Hco'.
Qed.

Lemma getSessionSummaries_eq (fs : FileSystem)
    (summaryCache : gmap string (Z * SessionSummary)) :
  getSessionSummaries JSON_parse path_relative CODEX_ROOT fs summaryCache
  = (Array_sort by_lastActivityAt
       (fst (fold_left (summaries_step JSON_parse path_relative CODEX_ROOT fs)
               (listSessionFiles fs) ([], summaryCache))),
     snd (fold_left (summaries_step JSON_parse path_relative CODEX_ROOT fs)
            (listSessionFiles fs) ([], summaryCache))).
Proof.
  unfold getSessionSummaries. destruct (fold_left _ _ _). reflexivity.
Qed.

Lemma listed_summaries (fs : FileSystem) (summaryCache : gmap string (Z * SessionSummary))
    (summary : SessionSummary) :
  cache_coherent JSON_parse path_relative CODEX_ROOT fs summaryCache ->
  In summary (fst (getSessionSummaries JSON_parse path_relative CODEX_ROOT fs summaryCache))
  <-> exists filePath file sessionId,
        OMap.get filePath fs = Some file
        /\ extractSessionId filePath = Some sessionId
        /\ summarize path_relative CODEX_ROOT sessionId filePath
             (readJsonl_text JSON_parse (content file)) = Some summary.
Proof.
  intros Hco. rewrite getSessionSummaries_eq. simpl. rewrite Array_sort_In.
  rewrite (proj1 (summaries_fold fs (listSessionFiles fs) [] summaryCache Hco)). simpl.
  rewrite <- list_elem_of_In, list_elem_of_omap. split.
  - intros (p & Hp & Hs). rewrite parseSessionSummary_fresh in Hs.
    destruct (extractSessionId p) as [sid|] eqn:X; [|discriminate].
    destruct (OMap.get p fs) as [file|] eqn:G; [|discriminate].
    rewrite (extractSessionId_truthy _ _ X) in Hs. simpl in Hs.
    exists p, file, sid. auto.
  - intros (p & file & sid & G & X & Hs). exists p. split.
    + apply list_elem_of_In, Array_sort_In.
      destruct (in_dec string_dec p (map fst fs)) as [H|H]; [exact H|].
      apply (get_None_keys fs p) in H. congruence.
    + rewrite parseSessionSummary_fresh, X, G, (extractSessionId_truthy _ _ X). exact Hs.
Qed.

(** X19. With a cache that holds nothing stale, the listing of the
    sessions holds exactly the summaries of the listed files whose name
    yields a session id and whose log has a session meta, each computed
    from the log of its file; and it leaves a cache that holds nothing
    stale. *)
Theorem getSessionSummaries_lists (fs : FileSystem)
    (summaryCache : gmap string (Z * SessionSummary)) :
  cache_coherent JSON_parse path_relative CODEX_ROOT fs summaryCache ->
  (forall summary,
     In summary
       (fst (getSessionSummaries JSON_parse path_relative CODEX_ROOT fs summaryCache))
     <-> exists filePath file sessionId,
           OMap.get filePath fs = Some file
           /\ extractSessionId filePath = Some sessionId
           /\ summarize path_relative CODEX_ROOT sessionId filePath
                (readJsonl_text JSON_parse (content file)) = Some summary)
  /\ cache_coherent JSON_parse path_relative CODEX_ROOT fs
       (snd (getSessionSummaries JSON_parse path_relative CODEX_ROOT fs summaryCache)).
Proof.
  intros Hco. split.
  - intros summary. apply listed_summaries, Hco.
  - rewrite getSessionSummaries_eq. simpl.
    exact (proj2 (summaries_fold fs (listSessionFiles fs) [] summaryCache Hco)).
Qed.

Lemma by_lastActivityAt_neg (x e : SessionSummary) :
  (by_lastActivityAt x e < 0)%Z -> later_first x e.
Proof.
  unfold by_lastActivityAt, later_first.
  destruct (String.ltb (ss_lastActivityAt x) (ss_lastActivityAt e)) eqn:E;
    intros H; [exfalso; lia|apply not_ltb_le, E].
Qed.

Lemma by_lastActivityAt_nonneg (x e : SessionSummary) :
  ~ (by_lastActivityAt x e < 0)%Z -> later_first e x.
Proof.
  unfold by_lastActivityAt, later_first.
  destruct (String.ltb (ss_lastActivityAt x) (ss_lastActivityAt e)) eqn:E;
    intros H; [apply ltb_le, E|exfalso; apply H; lia].
Qed.

(** X20. The sessions are listed by their last activity, the latest
    first: the [lastActivityAt] of each session is at least that of the
    session after it, as strings (the sort of the runtime being rendered
    as an insertion sort). *)
Theorem getSessionSummaries_order (fs : FileSystem)
    (summaryCache : gmap string (Z * SessionSummary)) :
  Sorted later_first
    (fst (getSessionSummaries JSON_parse path_relative CODEX_ROOT fs summaryCache)).
Proof.
  rewrite getSessionSummaries_eq. simpl.
  apply (Array_sort_sorted by_lastActivityAt (fun _ => True) later_first).
  - intros x e _ _. apply by_lastActivityAt_neg.
  - intros x e _ _. apply by_lastActivityAt_nonneg.
  - apply Forall_forall. auto.
Qed.

End SessionListFacts.

(** ** The projects *)

Lemma values_keys {V : Type} (f : V -> string) (m : OMap.t V) :
  NoDup (OMap.keys m) ->
  (forall k v, OMap.get k m = Some v -> f v = k) ->
  map f (OMap.values m) = OMap.keys m.
Proof.
  induction m as [|[k v] rest IH]; intros Hnd Hid; [reflexivity|].
  simpl. f_equal.
  - apply Hid. simpl. rewrite String.eqb_refl. reflexivity.
  - simpl in Hnd. apply NoDup_cons in Hnd as [Hk Hnd]. apply IH; [exact Hnd|].
    intros k' c G. apply Hid. simpl.
    destruct (String.eqb k' k) eqn:E; [|exact G].
    apply String.eqb_eq in E. subst k'. exfalso. apply Hk.
    apply list_elem_of_In.
    destruct (in_dec string_dec k (OMap.keys rest)) as [H|H]; [exact H|].
    apply get_None_keys in H. congruence.
Qed.

Lemma of_project_snoc (k : string) (l : list SessionSummary) (s : SessionSummary) :
  of_project k (l ++ [s])
  = (of_project k l ++ if String.eqb (ss_projectId s) k then [s] else [])%list.
Proof. unfold of_project. rewrite List.filter_app. reflexivity. Qed.

Lemma total_tokens_snoc (l : list SessionSummary) (s : SessionSummary) :
  total_tokens (l ++ [s]) = (total_tokens l + ss_totalTokens s)%Z.
Proof.
  induction l as [|x l IH]; simpl; [lia|]. unfold total_tokens in *. simpl. rewrite IH. lia.
Qed.

Lemma of_project_In (k : string) (l : list SessionSummary) (s : SessionSummary) :
  In s (of_project k l) <-> In s l /\ ss_projectId s = k.
Proof. unfold of_project. rewrite List.filter_In, String.eqb_eq. reflexivity. Qed.

Lemma latest_of_step (latest : string) (old : list SessionSummary) (s s0 : SessionSummary) :
  In s0 old ->
  latest = ss_lastActivityAt s0 ->
  (forall s', In s' old -> Str.le (ss_lastActivityAt s') (ss_lastActivityAt s0)) ->
  latest_of
    (if is_later (Some latest) (ss_lastActivityAt s)
     then Some (ss_lastActivityAt s) else Some latest)
    (old ++ [s]).
Proof.
  intros Hin -> Hmax. unfold is_later.
  destruct (negb (Str.truthy (ss_lastActivityAt s0))
            || String.ltb (ss_lastActivityAt s0) (ss_lastActivityAt s)) eqn:E.
  - assert (Hle : Str.le (ss_lastActivityAt s0) (ss_lastActivityAt s)).
    { apply orb_true_iff in E as [E|E].
      - apply negb_true_iff, truthy_false in E. rewrite E. apply str_le_empty.
      - apply ltb_le, E. }
    exists s. split; [apply in_or_app; right; left; reflexivity|]. split; [reflexivity|].
    intros s' Hs'. apply in_app_or in Hs' as [Hs'|[<-|[]]]; [|apply str_le_refl].
    exact (str_le_trans _ _ _ (Hmax s' Hs') Hle).
  - apply orb_false_iff in E as [_ E].
    exists s0. split; [apply in_or_app; left; exact Hin|]. split; [reflexivity|].
    intros s' Hs'. apply in_app_or in Hs' as [Hs'|[<-|[]]]; [exact (Hmax s' Hs')|].
    apply not_ltb_le, E.
Qed.

Lemma project_step_ok (projects : OMap.t ProjectSummary) (seen : list SessionSummary)
    (s : SessionSummary) :
  projects_ok projects seen -> projects_ok (project_step projects s) (seen ++ [s]).
Proof.
  intros (Hnd & Hsome & Hnone). unfold project_step.
  set (k0 := ss_projectId s).
  set (current := default (new_project s) (OMap.get k0 projects)).
  match goal with |- projects_ok (OMap.set k0 ?n projects) _ => set (new := n) end.
  assert (Hnew : ps_id new = k0
                 /\ ps_sessionCount new = length (of_project k0 (seen ++ [s]))
                 /\ ps_totalTokens new = total_tokens (of_project k0 (seen ++ [s]))
                 /\ latest_of (ps_latestActivityAt new) (of_project k0 (seen ++ [s]))).
  { rewrite of_project_snoc. fold k0. rewrite String.eqb_refl.
    rewrite length_app, total_tokens_snoc. subst new current. simpl.
    destruct (OMap.get k0 projects) as [v|] eqn:G; simpl.
    - destruct (Hsome k0 v G) as (Hid & Hcount & Htokens & (s0 & Hin & Hlatest & Hmax)).
      split; [exact Hid|]. split; [lia|]. split; [lia|].
      rewrite Hlatest. apply (latest_of_step _ _ s s0); auto.
    - rewrite (Hnone k0 G). simpl. split; [reflexivity|]. split; [reflexivity|].
      split; [unfold total_tokens; simpl; lia|].
      exists s. split; [left; reflexivity|]. split; [reflexivity|].
      intros s' [<-|[]]. apply str_le_refl. }
  split; [apply keys_set_NoDup, Hnd|]. split.
  - intros k p G. destruct (string_dec k0 k) as [<-|Hne].
    + rewrite get_set_eq in G. injection G as <-. exact Hnew.
    + rewrite (get_set_ne _ _ _ _ Hne) in G. rewrite of_project_snoc.
      apply String.eqb_neq in Hne. fold k0. rewrite Hne, app_nil_r. exact (Hsome k p G).
  - intros k G. destruct (string_dec k0 k) as [<-|Hne].
    + rewrite get_set_eq in G. discriminate.
    + rewrite (get_set_ne _ _ _ _ Hne) in G. rewrite of_project_snoc.
      apply String.eqb_neq in Hne. fold k0. rewrite Hne, app_nil_r. exact (Hnone k G).
Qed.

Lemma fold_projects_ok (sessions seen : list SessionSummary)
    (projects : OMap.t ProjectSummary) :
  projects_ok projects seen ->
  projects_ok (fold_left project_step sessions projects) (seen ++ sessions).
Proof.
  revert seen projects. induction sessions as [|s sessions IH]; intros seen projects H; simpl.
  - rewrite app_nil_r. exact H.
  - replace (seen ++ s :: sessions)%list with ((seen ++ [s]) ++ sessions)%list
      by (rewrite <- app_assoc; reflexivity).
    apply IH, project_step_ok, H.
Qed.

Lemma projects_of_sessions (sessions : list SessionSummary) :
  projects_ok (fold_left project_step sessions []) sessions.
Proof.
  apply (fold_projects_ok sessions [] []). split; [constructor|].
  split; [intros k p; discriminate|reflexivity].
Qed.

Lemma In_group_projects (sessions : list SessionSummary) (p : ProjectSummary) :
  In p (group_projects sessions)
  <-> exists k, OMap.get k (fold_left project_step sessions []) = Some p.
Proof.
  unfold group_projects. rewrite Array_sort_In. split.
  - apply In_get. exact (proj1 (projects_of_sessions sessions)).
  - intros [k G]. exact (get_In _ _ _ G).
Qed.

Section ProjectFacts.

Variable JSON_parse : string -> option json.
Variable Date_getTime : string -> option Z.
Variable path_relative : string -> string -> string.
Variable CODEX_ROOT : string.

Lemma getProjectSummaries_eq (fs : FileSystem)
    (summaryCache : gmap string (Z * SessionSummary)) :
  getProjectSummaries JSON_parse path_relative CODEX_ROOT fs summaryCache
  = (group_projects
       (fst (getSessionSummaries JSON_parse path_relative CODEX_ROOT fs summaryCache)),
     snd (getSessionSummaries JSON_parse path_relative CODEX_ROOT fs summaryCache)).
Proof. unfold getProjectSummaries. destruct (getSessionSummaries _ _ _ _ _). reflexivity. Qed.

Lemma getSessionsForProject_eq (fs : FileSystem) (projectId : string)
    (summaryCache : gmap string (Z * SessionSummary)) :
  getSessionsForProject JSON_parse path_relative CODEX_ROOT fs projectId summaryCache
  = (of_project projectId
       (fst (getSessionSummaries JSON_parse path_relative CODEX_ROOT fs summaryCache)),
     snd (getSessionSummaries JSON_parse path_relative CODEX_ROOT fs summaryCache)).
Proof. unfold getSessionsForProject. destruct (getSessionSummaries _ _ _ _ _). reflexivity. Qed.

(** X21. What a project shows is what its sessions add up to: for every
    project listed, the count of sessions is the number of sessions that
    the listing of the sessions of the project returns, the tokens are
    the sum of their [totalTokens], and the latest activity is the
    [lastActivityAt] of one of them that none of them exceeds. *)
Theorem project_totals (fs : FileSystem) (summaryCache : gmap string (Z * SessionSummary))
    (p : ProjectSummary) :
  In p (fst (getProjectSummaries JSON_parse path_relative CODEX_ROOT fs summaryCache)) ->
  let sessions :=
    fst (getSessionsForProject JSON_parse path_relative CODEX_ROOT fs (ps_id p)
           summaryCache) in
  ps_sessionCount p = length sessions
  /\ ps_totalTokens p = total_tokens sessions
  /\ latest_of (ps_latestActivityAt p) sessions.
Proof.
  rewrite getProjectSummaries_eq, getSessionsForProject_eq. simpl.
  intros Hin. apply In_group_projects in Hin as [k G].
  destruct (proj1 (proj2 (projects_of_sessions _)) k p G) as (-> & Hcount & Htokens & Hlatest).
  auto.
Qed.

(** X22. The projects listed have pairwise distinct ids, every session
    listed belongs to one of them, and none of them is without a
    session. *)
Theorem projects_cover_sessions (fs : FileSystem)
    (summaryCache : gmap string (Z * SessionSummary)) :
  let sessions :=
    fst (getSessionSummaries JSON_parse path_relative CODEX_ROOT fs summaryCache) in
  let projects :=
    fst (getProjectSummaries JSON_parse path_relative CODEX_ROOT fs summaryCache) in
  NoDup (map ps_id projects)
  /\ (forall s, In s sessions -> exists p, In p projects /\ ps_id p = ss_projectId s)
  /\ (forall p, In p projects -> exists s, In s sessions /\ ss_projectId s = ps_id p).
Proof.
  intros sessions projects. subst projects. rewrite getProjectSummaries_eq. simpl.
  fold sessions. destruct (projects_of_sessions sessions) as (Hnd & Hsome & Hnone).
  split; [|split].
  - unfold group_projects.
    rewrite (Permutation_map ps_id (Array_sort_perm by_latestActivityAt _)).
    rewrite (values_keys ps_id _ Hnd); [exact Hnd|].
    intros k v G. exact (proj1 (Hsome k v G)).
  - intros s Hs.
    destruct (OMap.get (ss_projectId s) (fold_left project_step sessions [])) as [p|] eqn:G.
    + exists p. split; [apply In_group_projects; exists (ss_projectId s); exact G|].
      exact (proj1 (Hsome _ p G)).
    + exfalso. pose proof (Hnone _ G) as E.
      assert (Hin : In s (of_project (ss_projectId s) sessions))
        by (apply of_project_In; auto).
      rewrite E in Hin. destruct Hin.
  - intros p Hp. apply In_group_projects in Hp as [k G].
    destruct (Hsome k p G) as (-> & _ & _ & (s & Hs & _)).
    apply of_project_In in Hs as [Hs Hid]. exists s. auto.
Qed.

Lemma by_latestActivityAt_neg (x e : ProjectSummary) :
  has_latest x -> has_latest e -> (by_latestActivityAt x e < 0)%Z -> latest_first x e.
Proof.
  intros (lx & Hx & Tx) (le & He & Te). unfold by_latestActivityAt, latest_first.
  rewrite Hx, He, Tx, Te. simpl andb. cbv iota.
  destruct (String.ltb lx le) eqn:E; intros H; [exfalso; lia|apply not_ltb_le, E].
Qed.

Lemma by_latestActivityAt_nonneg (x e : ProjectSummary) :
  has_latest x -> has_latest e -> ~ (by_latestActivityAt x e < 0)%Z -> latest_first e x.
Proof.
  intros (lx & Hx & Tx) (le & He & Te). unfold by_latestActivityAt, latest_first.
  rewrite Hx, He, Tx, Te. simpl andb. cbv iota.
  destruct (String.ltb lx le) eqn:E; intros H; [apply ltb_le, E|exfalso; apply H; lia].
Qed.

(** X23. With a cache that holds nothing stale, every project listed has
    a latest activity, and the projects are listed by it, the latest
    first (the sort of the runtime being rendered as an insertion
    sort). *)
Theorem getProjectSummaries_order (fs : FileSystem)
    (summaryCache : gmap string (Z * SessionSummary)) :
  cache_coherent JSON_parse path_relative CODEX_ROOT fs summaryCache ->
  Forall has_latest
    (fst (getProjectSummaries JSON_parse path_relative CODEX_ROOT fs summaryCache))
  /\ Sorted latest_first
       (fst (getProjectSummaries JSON_parse path_relative CODEX_ROOT fs summaryCache)).
Proof.
  intros Hco. rewrite getProjectSummaries_eq. simpl.
  set (sessions := fst (getSessionSummaries JSON_parse path_relative CODEX_ROOT fs
                          summaryCache)).
  assert (Hall : Forall has_latest (OMap.values (fold_left project_step sessions []))).
  { apply Forall_forall. intros p Hp. apply list_elem_of_In in Hp.
    apply (In_get _ _ (proj1 (projects_of_sessions sessions))) in Hp as [k G].
    destruct (proj1 (proj2 (projects_of_sessions sessions)) k p G)
      as (_ & _ & _ & (s & Hs & Hlatest & _)).
    apply of_project_In in Hs as [Hs _].
    apply (listed_summaries JSON_parse path_relative CODEX_ROOT fs summaryCache s Hco) in Hs
      as (filePath & file & sid & _ & _ & Hs).
    apply summarize_fields in Hs as (_ & _ & Hlast & _).
    exists (ss_lastActivityAt s). split; [exact Hlatest|apply truthy_true, Hlast]. }
  split.
  - unfold group_projects. rewrite (Array_sort_perm by_latestActivityAt _). exact Hall.
  - apply (Array_sort_sorted by_latestActivityAt has_latest latest_first).
    + exact by_latestActivityAt_neg.
    + exact by_latestActivityAt_nonneg.
    + exact Hall.
Qed.

End ProjectFacts.

(** ** The view of one session and the chart *)

(** X24. The snippet shown for a tool call: when there is one, it is not
    empty, has 203 code units at most, and starts as the output of the
    call, or as its input when the output is missing or blank, up to 200
    code units; there is none exactly when the output is missing or
    blank and the input is missing or empty. *)
Theorem summarizeCall_snippet (call : ToolCall) :
  match summarizeCall call with
  | Some snippet =>
      snippet <> ""
      /\ (String.length snippet <= 203)%nat
      /\ exists source,
           (tc_output call = Some source /\ Str.trim source <> ""
            \/ tc_input call = Some source
               /\ forall output, tc_output call = Some output -> Str.trim output = "")
           /\ substring 0 200 snippet = substring 0 200 source
           /\ ((String.length source <= 200)%nat -> snippet = source)
  | None =>
      (forall output, tc_output call = Some output -> Str.trim output = "")
      /\ (tc_input call = None \/ tc_input call = Some "")
  end.
Proof.
  assert (Htrunc : forall text, Str.truthy text = true ->
            truncate text 200 <> ""
            /\ (String.length (truncate text 200) <= 203)%nat
            /\ substring 0 200 (truncate text 200) = substring 0 200 text
            /\ ((String.length text <= 200)%nat -> truncate text 200 = text)).
  { intros text T. apply truthy_true in T. unfold truncate.
    destruct (200 <? String.length text)%nat eqn:E.
    - apply Nat.ltb_lt in E.
      assert (L : String.length (substring 0 200 text) = 200%nat)
        by (rewrite length_substring_front; lia).
      split; [|split; [|split]].
      + intros H. apply (f_equal String.length) in H.
        rewrite length_app_string, L in H. simpl in H. lia.
      + rewrite length_app_string, L. simpl. lia.
      + rewrite <- L at 1. apply substring_app_front.
      + lia.
    - split; [exact T|]. apply Nat.ltb_ge in E. split; [lia|]. split; reflexivity. }
  assert (Hblank : forall output, (0 <? String.length (Str.trim output))%nat = false ->
                                  Str.trim output = "").
  { intros output H. apply Nat.ltb_ge in H. destruct (Str.trim output); [reflexivity|].
    simpl in H. lia. }
  assert (Hfull : forall output, (0 <? String.length (Str.trim output))%nat = true ->
                                 Str.trim output <> "" /\ Str.truthy output = true).
  { intros output H. apply Nat.ltb_lt in H. split.
    - intros E. rewrite E in H. simpl in H. lia.
    - apply truthy_true. intros ->. simpl in H. lia. }
  unfold summarizeCall.
  destruct (tc_output call) as [output|].
  - destruct (0 <? String.length (Str.trim output))%nat eqn:B.
    + destruct (Hfull output B) as [Hne T]. rewrite T.
      destruct (Htrunc output T) as (H1 & H2 & H3 & H4).
      split; [exact H1|]. split; [exact H2|]. exists output. auto.
    + pose proof (Hblank output B) as Hb.
      destruct (tc_input call) as [input|].
      * destruct (Str.truthy input) eqn:T.
        -- destruct (Htrunc input T) as (H1 & H2 & H3 & H4).
           split; [exact H1|]. split; [exact H2|]. exists input. split; [|auto].
           right. split; [reflexivity|]. intros o [= <-]. exact Hb.
        -- apply truthy_false in T. subst input. split; [|auto].
           intros o [= <-]. exact Hb.
      * split; [|auto]. intros o [= <-]. exact Hb.
  - destruct (tc_input call) as [input|].
    + destruct (Str.truthy input) eqn:T.
      * destruct (Htrunc input T) as (H1 & H2 & H3 & H4).
        split; [exact H1|]. split; [exact H2|]. exists input. split; [|auto].
        right. split; [reflexivity|]. discriminate.
      * apply truthy_false in T. subst input. split; [discriminate|auto].
    + split; [discriminate|auto].
Qed.

Lemma clampToDomain_within (v s e : Z) :
  (s <= e)%Z ->
  exists t, clampToDomain (Some (Some v)) (Some (Some s)) (Some (Some e)) = Some (Some t)
            /\ (s <= t <= e)%Z
            /\ ((s <= v <= e)%Z -> t = v).
Proof.
  intros Hse. unfold clampToDomain, same_number, nan_min, nan_max.
  destruct (s =? e)%Z eqn:E.
  - apply Z.eqb_eq in E. exists s. split; [reflexivity|]. split; lia.
  - exists (Z.min (Z.max v s) e). split; [reflexivity|]. split; lia.
Qed.


Section ChartFacts.

Variable Date_getTime : string -> option Z.

Lemma ms_le_trans (a b c : TokenTimelinePoint) : ms_le a b -> ms_le b c -> ms_le a c.
Proof.
  unfold ms_le. destruct (tp_timestampMs a), (tp_timestampMs b), (tp_timestampMs c);
    try tauto. lia.
Qed.

Lemma timeline_sorted (events : list CodexEvent) :
  (forall e, In e events -> is_usage_report e = true ->
             Date_getTime (timeline_stamp e) <> None) ->
  Forall (fun p => tp_timestampMs p <> None) (buildTokenTimeline Date_getTime events)
  /\ Sorted ms_le (buildTokenTimeline Date_getTime events).
Proof.
  intros Hparse. unfold buildTokenTimeline. rewrite timeline_points_omap.
  assert (Hall : Forall (fun p => tp_timestampMs p <> None)
                   (omap (timeline_point Date_getTime) events)).
  { apply Forall_forall. intros p Hp.
    apply list_elem_of_omap in Hp as (e & He & Hpe).
    apply (proj1 (list_elem_of_In _ _)) in He.
    destruct (is_usage_report e) eqn:U.
    - destruct (timeline_point_Some Date_getTime e U) as (p' & Hp' & _ & Hms).
      assert (p' = p) by congruence. subst p'. rewrite Hms. apply Hparse; assumption.
    - rewrite (timeline_point_None Date_getTime e U) in Hpe. discriminate. }
  split.
  - rewrite (Array_sort_perm by_timestampMs _). exact Hall.
  - apply (Array_sort_sorted by_timestampMs (fun p => tp_timestampMs p <> None) ms_le);
      [exact by_timestampMs_neg|exact by_timestampMs_nonneg|exact Hall].
Qed.

(** X26. What a point of the timeline holds: every point comes from a
    usage report of the log and carries its timestamp (the epoch when it
    has none) and the time read from it; its user tokens are the input
    tokens less the cached ones, never less than 0 (NaN when a count is
    missing). *)
Theorem timeline_point_counts (events : list CodexEvent) (p : TokenTimelinePoint) :
  In p (buildTokenTimeline Date_getTime events) ->
  (exists e, In e events /\ is_usage_report e = true
             /\ tp_timestamp p = timeline_stamp e
             /\ tp_timestampMs p = Date_getTime (timeline_stamp e))
  /\ tp_userTokens p = max0_sub (tp_inputTokens p) (tp_cachedTokens p)
  /\ (forall u, tp_userTokens p = Some u -> (0 <= u)%Z)
  /\ (forall i c, tp_inputTokens p = Some i -> tp_cachedTokens p = Some c ->
                  (c <= i)%Z -> tp_userTokens p = Some (i - c)%Z).
Proof.
  unfold buildTokenTimeline. rewrite Array_sort_In, timeline_points_omap.
  rewrite <- list_elem_of_In, list_elem_of_omap. intros (e & He & Hp).
  apply list_elem_of_In in He. unfold timeline_point in Hp.
  destruct (usage_report e) as [[info total]|] eqn:U; [|discriminate].
  injection Hp as <-. simpl. split; [|split; [reflexivity|split]].
  - exists e. unfold is_usage_report. rewrite U. auto.
  - unfold max0_sub. intros u.
    destruct (num (prop "input_tokens" total)), (num (prop "cached_input_tokens" total));
      try discriminate.
    intros [= <-]. lia.
  - intros i c -> -> Hle. unfold max0_sub. f_equal. lia.
Qed.

Lemma last_In {A : Type} (l : list A) (d : A) : l <> [] -> In (List.last l d) l.
Proof.
  induction l as [|a l IH]; [congruence|]. intros _.
  destruct l as [|y l]; [left; reflexivity|].
  right. apply IH. discriminate.
Qed.

Lemma sorted_domain (timeline : list TokenTimelinePoint) :
  timeline <> [] ->
  Forall (fun p => tp_timestampMs p <> None) timeline ->
  Sorted ms_le timeline ->
  exists start finish, domain_of timeline start finish.
Proof.
  intros Hne Hall Hsorted. destruct timeline as [|first rest]; [congruence|].
  apply Sorted_StronglySorted in Hsorted; [|intros a b c; apply ms_le_trans].
  apply StronglySorted_inv in Hsorted as [_ Hfirst].
  unfold domain_of, chart_domain.
  assert (Hlast : List.last (first :: rest) first = first
                  \/ In (List.last (first :: rest) first) rest).
  { destruct rest as [|x rest]; [left; reflexivity|]. right.
    change (List.last (first :: x :: rest) first) with (List.last (x :: rest) first).
    apply last_In. discriminate. }
  inversion Hall as [|? ? Hf Hrest]; subst.
  destruct (tp_timestampMs first) as [s|] eqn:Es; [|congruence].
  destruct Hlast as [->|Hin].
  - exists s, s. rewrite Es. split; [reflexivity|lia].
  - rewrite List.Forall_forall in Hfirst. pose proof (Hfirst _ Hin) as Hle.
    unfold ms_le in Hle. rewrite Es in Hle.
    destruct (tp_timestampMs (List.last (first :: rest) first)) as [e|]; [|destruct Hle].
    exists s, e. split; [reflexivity|exact Hle].
Qed.

(** X27. The markers of the chart of a session stand within the chart:
    with the timeline that [buildTokenTimeline] returns for a log whose
    usage reports have timestamps that are absent or parse, and that has
    a usage report at all, the chart has a domain (the times of its first
    and last point are numbers in that order) and the time of the marker
    of any call is a number within that domain. *)
Theorem markers_within_chart (events : list CodexEvent) (anchor event : option (option Z))
    (call : ToolCall) :
  (forall e, In e events -> is_usage_report e = true ->
             Date_getTime (timeline_stamp e) <> None) ->
  buildTokenTimeline Date_getTime events <> [] ->
  exists start finish,
    domain_of (buildTokenTimeline Date_getTime events) start finish
    /\ forall time,
         marker_time Date_getTime (buildTokenTimeline Date_getTime events) anchor event call
         = Some time ->
         exists t, time = Some t /\ (start <= t <= finish)%Z.
Proof.
  intros Hparse Hne. destruct (timeline_sorted events Hparse) as [Hall Hsorted].
  destruct (sorted_domain _ Hne Hall Hsorted) as (start & finish & Hdom).
  exists start, finish. split; [exact Hdom|].
  intros time Hm. destruct Hdom as [Hdom Hse]. unfold marker_time in Hm. rewrite Hdom in Hm.
  simpl fst in Hm. simpl snd in Hm.
  destruct (toMs Date_getTime anchor call) as [a|].
  - destruct (clampToDomain_within a start finish Hse) as (t & E & Ht & _).
    exists t. split; [congruence|exact Ht].
  - destruct (toMs Date_getTime event call) as [d|]; [|discriminate].
    destruct (clampToDomain_within d start finish Hse) as (t & E & Ht & _).
    exists t. split; [congruence|exact Ht].
Qed.

End ChartFacts.

(** ** The totals of the summary and the timeline *)

Section TotalsFacts.

Variable JSON_parse : string -> option json.
Variable Date_getTime : string -> option Z.
Variable path_relative : string -> string -> string.
Variable CODEX_ROOT : string.

Lemma note_timestamp_tokens (st : SummaryState) (event : CodexEvent) :
  st_tokens (note_timestamp st event) = st_tokens st
  /\ st_contextWindow (note_timestamp st event) = st_contextWindow st.
Proof.
  unfold note_timestamp. destruct (event_timestamp event) as [ts|]; [|auto].
  destruct (Str.truthy ts); auto.
Qed.

(** The totals change with the envelopes that carry an [info], and with
    no other. *)
Lemma summary_step_tokens (st : SummaryState) (event : CodexEvent) :
  st_tokens (summary_step st event)
  = match token_info event with
    | Some info => prop "total_token_usage" info
    | None => st_tokens st
    end
  /\ st_contextWindow (summary_step st event)
     = match token_info event with
       | Some info => num (prop "model_context_window" info)
       | None => st_contextWindow st
       end.
Proof.
  destruct (note_timestamp_tokens st event) as [Ht Hc].
  unfold summary_step, token_info, payload_of.
  destruct (is_str (field "type" event) "session_meta") eqn:Hm.
  - rewrite (is_str_other _ "session_meta" "event_msg" Hm) by discriminate.
    unfold on_session_meta. destruct (toRecord (field "payload" event)); simpl; auto.
  - destruct (is_str (field "type" event) "response_item") eqn:Hr.
    + rewrite (is_str_other _ "response_item" "event_msg" Hr) by discriminate.
      destruct (toRecord (field "payload" event)); simpl; auto.
    + destruct (is_str (field "type" event) "event_msg"); [|auto].
      unfold on_event_msg. destruct (toRecord (field "payload" event)) as [payload|]; [|auto].
      destruct (is_str (field "type" payload) "token_count"); [|auto].
      destruct (field "info" payload) as [info|]; [|auto].
      destruct (truthy_json info); simpl; auto.
Qed.

Lemma usage_report_info (event : CodexEvent) (info : JsonRecord) (total : json) :
  usage_report event = Some (info, total) ->
  token_info event = Some (JObj info)
  /\ field "total_token_usage" info = Some total
  /\ truthy_json total = true.
Proof.
  unfold usage_report, token_info.
  destruct (payload_of "event_msg" event) as [payload|]; [|discriminate].
  destruct (is_str (field "type" payload) "token_count"); [|discriminate].
  destruct (field "info" payload) as [[]|]; simpl; try discriminate.
  destruct (field "total_token_usage" fields) as [t|] eqn:F; [|discriminate].
  destruct (truthy_json t) eqn:T; [|discriminate].
  intros [= <- <-]. auto.
Qed.

Lemma fold_tokens_kept (events : list CodexEvent) (st : SummaryState) :
  (forall e, In e events -> token_info e = None) ->
  st_tokens (fold_left summary_step events st) = st_tokens st
  /\ st_contextWindow (fold_left summary_step events st) = st_contextWindow st.
Proof.
  revert st. induction events as [|e events IH]; intros st H; simpl; [auto|].
  destruct (IH (summary_step st e)) as [H1 H2]; [intros e' He'; apply H; right; exact He'|].
  destruct (summary_step_tokens st e) as [H3 H4].
  rewrite (H e) in H3, H4 by (left; reflexivity). split; congruence.
Qed.

(** X28. The totals of a summary are those of the last usage report of
    the log: when every [token_count] envelope that has an [info] has a
    cumulative usage in it, the summary shows the counts of the point
    that the timeline holds for the last usage report (0 for a count the
    report leaves out), with the same user tokens and the same context
    window. *)
Theorem summary_totals_of_last_usage_report (sessionId filePath : string)
    (before after : list CodexEvent) (report : CodexEvent) (summary : SessionSummary) :
  (forall e, In e (before ++ report :: after) -> token_info e <> None ->
             is_usage_report e = true) ->
  is_usage_report report = true ->
  (forall e, In e after -> is_usage_report e = false) ->
  summarize path_relative CODEX_ROOT sessionId filePath (before ++ report :: after)
  = Some summary ->
  exists point,
    timeline_point Date_getTime report = Some point
    /\ In point (buildTokenTimeline Date_getTime (before ++ report :: after))
    /\ ss_totalTokens summary = default 0%Z (tp_totalTokens point)
    /\ ss_cachedTokens summary = default 0%Z (tp_cachedTokens point)
    /\ ss_userTokens summary = tp_userTokens point
    /\ ss_outputTokens summary = default 0%Z (tp_outputTokens point)
    /\ ss_reasoningTokens summary = default 0%Z (tp_reasoningTokens point)
    /\ ss_contextWindow summary = tp_contextWindow point.
Proof.
  intros Hall Hreport Hafter Hsum.
  unfold is_usage_report in Hreport.
  destruct (usage_report report) as [[info total]|] eqn:U; [|discriminate].
  destruct (usage_report_info report info total U) as (Hinfo & Htotal & Htruthy).
  assert (Hst : st_tokens (fold_left summary_step (before ++ report :: after)
                             initialSummaryState) = Some total
                /\ st_contextWindow (fold_left summary_step (before ++ report :: after)
                                       initialSummaryState)
                   = num (field "model_context_window" info)).
  { rewrite fold_left_app. simpl.
    destruct (fold_tokens_kept after
                (summary_step (fold_left summary_step before initialSummaryState) report))
      as [H1 H2].
    - intros e He. destruct (token_info e) eqn:T; [|reflexivity].
      assert (is_usage_report e = true).
      { apply Hall; [apply in_or_app; right; right; exact He|congruence]. }
      rewrite (Hafter e He) in H. discriminate.
    - destruct (summary_step_tokens (fold_left summary_step before initialSummaryState) report)
        as [H3 H4].
      rewrite Hinfo in H3, H4. simpl in H3, H4. split; congruence. }
  destruct Hst as [Htokens Hcw].
  unfold summarize in Hsum. rewrite Htokens, Hcw in Hsum.
  destruct (st_meta _) as [meta|]; [|discriminate]. injection Hsum as <-.
  eexists. unfold timeline_point. rewrite U. split; [reflexivity|]. simpl.
  rewrite Htruthy. split; [|auto 10].
  unfold buildTokenTimeline. apply Array_sort_In. rewrite timeline_points_omap.
  apply list_elem_of_In, list_elem_of_omap. exists report. split.
  - apply list_elem_of_In, in_or_app. right. left. reflexivity.
  - unfold timeline_point. rewrite U. reflexivity.
Qed.

End TotalsFacts.

(** ** The detail of a session and its summary *)

Section DetailSummaryFacts.

Variable JSON_parse : string -> option json.
Variable Date_getTime : string -> option Z.
Variable path_relative : string -> string -> string.
Variable CODEX_ROOT : string.


End DetailSummaryFacts.

(** ** Listing twice *)

Section RefreshFacts.

Variable JSON_parse : string -> option json.
Variable Date_getTime : string -> option Z.
Variable path_relative : string -> string -> string.
Variable CODEX_ROOT : string.

(** [parseSessionSummary] looks at the cache under the path of the file
    and nowhere else, and what it computes, it computes as with an empty
    cache. *)
Lemma parseSessionSummary_lookup (fs : FileSystem) (filePath : string)
    (summaryCache : gmap string (Z * SessionSummary)) :
  parseSessionSummary JSON_parse path_relative CODEX_ROOT fs filePath summaryCache
  = match extractSessionId filePath, OMap.get filePath fs with
    | Some _, Some file =>
        let fresh :=
          match fst (parseSessionSummary JSON_parse path_relative CODEX_ROOT fs filePath ∅)
          with
          | Some summary =>
              (Some summary, <[ filePath := (mtimeMs file, summary) ]> summaryCache)
          | None => (None, summaryCache)
          end in
        match summaryCache !! filePath with
        | Some (mtime, summary) =>
            if (mtime =? mtimeMs file)%Z then (Some summary, summaryCache) else fresh
        | None => fresh
        end
    | _, _ => (None, summaryCache)
    end.
Proof.
  rewrite parseSessionSummary_fresh. unfold parseSessionSummary.
  destruct (extractSessionId filePath) as [sid|] eqn:X; [|reflexivity].
  rewrite (extractSessionId_truthy _ _ X). simpl negb. cbv iota.
  destruct (OMap.get filePath fs) as [file|]; reflexivity.
Qed.

(** A call leaves the other entries of the cache as they are. *)
Lemma parseSessionSummary_frame (fs : FileSystem) (filePath other : string)
    (summaryCache : gmap string (Z * SessionSummary)) :
  filePath <> other ->
  snd (parseSessionSummary JSON_parse path_relative CODEX_ROOT fs filePath summaryCache)
    !! other = summaryCache !! other.
Proof.
  intros Hne. rewrite parseSessionSummary_lookup.
  destruct (extractSessionId filePath); [|reflexivity].
  destruct (OMap.get filePath fs) as [file|]; [|reflexivity]. simpl.
  assert (Hfresh :
            snd match fst (parseSessionSummary JSON_parse path_relative CODEX_ROOT fs
                             filePath ∅) with
                | Some summary =>
                    (Some summary, <[ filePath := (mtimeMs file, summary) ]> summaryCache)
                | None => (None, summaryCache)
                end !! other = summaryCache !! other).
  { destruct (fst _); simpl; [apply lookup_insert_ne, Hne|reflexivity]. }
  destruct (summaryCache !! filePath) as [[mtime cached]|]; [|exact Hfresh].
  destruct (mtime =? mtimeMs file)%Z; [reflexivity|exact Hfresh].
Qed.

(** After a call, a second call for the same file returns the same and
    changes nothing. *)
Lemma parseSessionSummary_settles (fs : FileSystem) (filePath : string)
    (summaryCache : gmap string (Z * SessionSummary)) :
  parseSessionSummary JSON_parse path_relative CODEX_ROOT fs filePath
    (snd (parseSessionSummary JSON_parse path_relative CODEX_ROOT fs filePath summaryCache))
  = (fst (parseSessionSummary JSON_parse path_relative CODEX_ROOT fs filePath summaryCache),
     snd (parseSessionSummary JSON_parse path_relative CODEX_ROOT fs filePath summaryCache)).
Proof.
  rewrite (parseSessionSummary_lookup fs filePath summaryCache).
  destruct (extractSessionId filePath) as [sid|] eqn:X;
    [|simpl; rewrite parseSessionSummary_lookup, X; reflexivity].
  destruct (OMap.get filePath fs) as [file|] eqn:G;
    [|simpl; rewrite parseSessionSummary_lookup, X, G; reflexivity].
  simpl.
  assert (Hhit : forall c s, c !! filePath = Some (mtimeMs file, s) ->
            parseSessionSummary JSON_parse path_relative CODEX_ROOT fs filePath c
            = (Some s, c)).
  { intros c s L. rewrite parseSessionSummary_lookup, X, G. simpl.
    rewrite L, Z.eqb_refl. reflexivity. }
  assert (Hfresh :
            forall miss : forall s, summaryCache !! filePath <> Some (mtimeMs file, s),
            let fresh :=
              match fst (parseSessionSummary JSON_parse path_relative CODEX_ROOT fs
                           filePath ∅) with
              | Some summary =>
                  (Some summary, <[ filePath := (mtimeMs file, summary) ]> summaryCache)
              | None => (None, summaryCache)
              end in
            parseSessionSummary JSON_parse path_relative CODEX_ROOT fs filePath (snd fresh)
            = (fst fresh, snd fresh)).
  { intros miss. simpl.
    destruct (fst (parseSessionSummary JSON_parse path_relative CODEX_ROOT fs filePath ∅))
      as [s0|] eqn:F; simpl.
    - apply Hhit, lookup_insert_eq.
    - rewrite parseSessionSummary_lookup, X, G, F. simpl.
      destruct (summaryCache !! filePath) as [[mtime cached]|] eqn:L; [|reflexivity].
      destruct (mtime =? mtimeMs file)%Z eqn:E; [|reflexivity].
      apply Z.eqb_eq in E. subst mtime. destruct (miss cached eq_refl). }
  destruct (summaryCache !! filePath) as [[mtime cached]|] eqn:L.
  - destruct (mtime =? mtimeMs file)%Z eqn:E.
    + apply Z.eqb_eq in E. subst mtime. simpl. apply Hhit, L.
    + apply Hfresh. intros s [= H _]. apply Z.eqb_neq in E. congruence.
  - apply Hfresh. intros s. discriminate.
Qed.

(** A file for which a call changes nothing stays so through a call for
    any file, with the same result. *)
Lemma parseSessionSummary_keeps (fs : FileSystem) (filePath other : string)
    (summaryCache : gmap string (Z * SessionSummary)) :
  snd (parseSessionSummary JSON_parse path_relative CODEX_ROOT fs other summaryCache)
  = summaryCache ->
  parseSessionSummary JSON_parse path_relative CODEX_ROOT fs other
    (snd (parseSessionSummary JSON_parse path_relative CODEX_ROOT fs filePath summaryCache))
  = (fst (parseSessionSummary JSON_parse path_relative CODEX_ROOT fs other summaryCache),
     snd (parseSessionSummary JSON_parse path_relative CODEX_ROOT fs filePath summaryCache)).
Proof.
  intros Hsettled. destruct (string_dec filePath other) as [<-|Hne].
  - rewrite parseSessionSummary_settles. reflexivity.
  - pose proof (parseSessionSummary_frame fs filePath other summaryCache Hne) as Hframe.
    set (c1 := snd (parseSessionSummary JSON_parse path_relative CODEX_ROOT fs filePath
                      summaryCache)) in *.
    revert Hsettled.
    rewrite (parseSessionSummary_lookup fs other summaryCache),
            (parseSessionSummary_lookup fs other c1).
    destruct (extractSessionId other) as [sid|]; [|reflexivity].
    destruct (OMap.get other fs) as [file|]; [|reflexivity]. simpl. rewrite Hframe.
    assert (Hfresh :
              snd match fst (parseSessionSummary JSON_parse path_relative CODEX_ROOT fs
                               other ∅) with
                  | Some summary =>
                      (Some summary, <[ other := (mtimeMs file, summary) ]> summaryCache)
                  | None => (None, summaryCache)
                  end = summaryCache ->
              (forall s, summaryCache !! other <> Some (mtimeMs file, s)) ->
              match fst (parseSessionSummary JSON_parse path_relative CODEX_ROOT fs
                           other ∅) with
              | Some summary => (Some summary, <[ other := (mtimeMs file, summary) ]> c1)
              | None => (None, c1)
              end
              = (fst match fst (parseSessionSummary JSON_parse path_relative CODEX_ROOT fs
                                  other ∅) with
                     | Some summary =>
                         (Some summary,
                          <[ other := (mtimeMs file, summary) ]> summaryCache)
                     | None => (None, summaryCache)
                     end, c1)).
    { destruct (fst (parseSessionSummary JSON_parse path_relative CODEX_ROOT fs other ∅))
        as [s0|]; simpl; [|reflexivity].
      intros E miss. exfalso. apply (miss s0). rewrite <- E at 1. apply lookup_insert_eq. }
    destruct (summaryCache !! other) as [[mtime cached]|] eqn:L.
    + destruct (mtime =? mtimeMs file)%Z eqn:E; [reflexivity|].
      intros H. apply Hfresh; [exact H|].
      intros s [= H' _]. apply Z.eqb_neq in E. congruence.
    + intros H. apply Hfresh; [exact H|]. intros s. discriminate.
Qed.

Lemma summaries_step_eq (fs : FileSystem) (acc : list SessionSummary)
    (summaryCache : gmap string (Z * SessionSummary)) (file : string) :
  summaries_step JSON_parse path_relative CODEX_ROOT fs (acc, summaryCache) file
  = ((acc ++ match fst (parseSessionSummary JSON_parse path_relative CODEX_ROOT fs file
                          summaryCache) with
             | Some s => [s]
             | None => []
             end)%list,
     snd (parseSessionSummary JSON_parse path_relative CODEX_ROOT fs file summaryCache)).
Proof.
  unfold summaries_step. simpl.
  destruct (parseSessionSummary _ _ _ _ _ _) as [[s|] c]; simpl; [reflexivity|].
  rewrite app_nil_r. reflexivity.
Qed.

(** A file for which a call changes nothing stays so through the loop. *)
Lemma fold_keeps_settled (fs : FileSystem) (files : list string) (other : string)
    (acc : list SessionSummary) (summaryCache : gmap string (Z * SessionSummary)) :
  snd (parseSessionSummary JSON_parse path_relative CODEX_ROOT fs other summaryCache)
  = summaryCache ->
  parseSessionSummary JSON_parse path_relative CODEX_ROOT fs other
    (snd (fold_left (summaries_step JSON_parse path_relative CODEX_ROOT fs) files
            (acc, summaryCache)))
  = (fst (parseSessionSummary JSON_parse path_relative CODEX_ROOT fs other summaryCache),
     snd (fold_left (summaries_step JSON_parse path_relative CODEX_ROOT fs) files
            (acc, summaryCache))).
Proof.
  revert acc summaryCache. induction files as [|file files IH]; intros acc c H; simpl.
  - rewrite <- H at 3. destruct (parseSessionSummary _ _ _ _ _ _). reflexivity.
  - rewrite summaries_step_eq.
    pose proof (parseSessionSummary_keeps fs file other c H) as K.
    rewrite IH; [|rewrite K; reflexivity]. rewrite K. reflexivity.
Qed.

(** With a cache in which every file of the list is settled, the loop
    gathers what the calls return and changes nothing. *)
Lemma fold_settled (fs : FileSystem) (files : list string) (acc : list SessionSummary)
    (summaryCache : gmap string (Z * SessionSummary)) :
  (forall file, In file files ->
     snd (parseSessionSummary JSON_parse path_relative CODEX_ROOT fs file summaryCache)
     = summaryCache) ->
  fold_left (summaries_step JSON_parse path_relative CODEX_ROOT fs) files (acc, summaryCache)
  = ((acc ++ omap (fun file =>
                     fst (parseSessionSummary JSON_parse path_relative CODEX_ROOT fs file
                            summaryCache)) files)%list,
     summaryCache).
Proof.
  revert acc. induction files as [|file files IH]; intros acc H; simpl.
  - rewrite app_nil_r. reflexivity.
  - rewrite summaries_step_eq, (H file) by (left; reflexivity).
    rewrite IH by (intros f Hf; apply H; right; exact Hf).
    rewrite <- app_assoc. destruct (fst _); reflexivity.
Qed.

(** The loop leaves every file of the list settled, with the result that
    it has gathered for it. *)
Lemma fold_settles (fs : FileSystem) (files : list string) (acc : list SessionSummary)
    (summaryCache : gmap string (Z * SessionSummary)) :
  let after :=
    fold_left (summaries_step JSON_parse path_relative CODEX_ROOT fs) files
      (acc, summaryCache) in
  (forall file, In file files ->
     snd (parseSessionSummary JSON_parse path_relative CODEX_ROOT fs file (snd after))
     = snd after)
  /\ fst after
     = (acc ++ omap (fun file =>
                       fst (parseSessionSummary JSON_parse path_relative CODEX_ROOT fs file
                              (snd after))) files)%list.
Proof.
  revert acc summaryCache. induction files as [|file files IH]; intros acc c; simpl.
  - split; [intros f []|]. rewrite app_nil_r. reflexivity.
  - rewrite summaries_step_eq.
    set (c1 := snd (parseSessionSummary JSON_parse path_relative CODEX_ROOT fs file c)).
    set (r1 := fst (parseSessionSummary JSON_parse path_relative CODEX_ROOT fs file c)).
    set (acc1 := (acc ++ match r1 with Some s => [s] | None => [] end)%list).
    destruct (IH acc1 c1) as [Hrest Hfst].
    assert (Hfile : parseSessionSummary JSON_parse path_relative CODEX_ROOT fs file
                      (snd (fold_left
                              (summaries_step JSON_parse path_relative CODEX_ROOT fs)
                              files (acc1, c1)))
                    = (r1, snd (fold_left
                                  (summaries_step JSON_parse path_relative CODEX_ROOT fs)
                                  files (acc1, c1)))).
    { pose proof (parseSessionSummary_settles fs file c) as S. fold c1 r1 in S.
      rewrite (fold_keeps_settled fs files file acc1 c1); rewrite S; reflexivity. }
    split.
    + intros f [<-|Hf]; [rewrite Hfile; reflexivity|apply Hrest, Hf].
    + rewrite Hfst, Hfile. simpl. unfold acc1. rewrite <- app_assoc.
      destruct r1; reflexivity.
Qed.

(** X30. Listing the sessions twice in a row, the files being as they
    were, returns the same listing the second time and leaves the cache
    as the first listing left it, whatever the cache held before. *)
Theorem getSessionSummaries_again (fs : FileSystem)
    (summaryCache : gmap string (Z * SessionSummary)) :
  getSessionSummaries JSON_parse path_relative CODEX_ROOT fs
    (snd (getSessionSummaries JSON_parse path_relative CODEX_ROOT fs summaryCache))
  = getSessionSummaries JSON_parse path_relative CODEX_ROOT fs summaryCache.
Proof.
  rewrite !getSessionSummaries_eq. simpl.
  destruct (fold_settles fs (listSessionFiles fs) [] summaryCache) as [Hsettled Hfst].
  rewrite (fold_settled fs (listSessionFiles fs) [] _ Hsettled). simpl.
  simpl in Hfst. rewrite <- Hfst. reflexivity.
Qed.

End RefreshFacts.

(** ** The properties above, on sample logs *)

(** X19, on the sample files, with an empty cache. *)
Lemma getSessionSummaries_lists_witness :
  cache_coherent Reference.JSON_parse Reference.path_relative Reference.CODEX_ROOT
    SampleProjects.fs ∅
  /\ map ss_id
       (fst (getSessionSummaries Reference.JSON_parse Reference.path_relative
               Reference.CODEX_ROOT SampleProjects.fs ∅))
     = ["abc-202"; "abc-203"; "abc-201"]
  /\ cache_coherent Reference.JSON_parse Reference.path_relative Reference.CODEX_ROOT
       SampleProjects.fs
       (snd (getSessionSummaries Reference.JSON_parse Reference.path_relative
               Reference.CODEX_ROOT SampleProjects.fs ∅)).
Proof.
  assert (Hco : cache_coherent Reference.JSON_parse Reference.path_relative
                  Reference.CODEX_ROOT SampleProjects.fs ∅)
    by apply cache_coherent_empty.
  split; [exact Hco|]. split; [vm_compute; reflexivity|].
  exact (proj2 (getSessionSummaries_lists Reference.JSON_parse Reference.path_relative
                  Reference.CODEX_ROOT SampleProjects.fs ∅ Hco)).
Defined.

(** X21, on the project of the sample files that has two sessions. *)
Lemma project_totals_witness :
  let p := {| ps_id := "home-u-proj"; ps_name := "proj"; ps_path := "/home/u/proj";
              ps_sessionCount := 2;
              ps_latestActivityAt := Some "2025-01-04T03:04:11.000Z";
              ps_totalTokens := 200 |} in
  let sessions :=
    fst (getSessionsForProject Reference.JSON_parse Reference.path_relative
           Reference.CODEX_ROOT SampleProjects.fs "home-u-proj" ∅) in
  In p (fst (getProjectSummaries Reference.JSON_parse Reference.path_relative
               Reference.CODEX_ROOT SampleProjects.fs ∅))
  /\ 2%nat = length sessions
  /\ 200%Z = total_tokens sessions
  /\ latest_of (Some "2025-01-04T03:04:11.000Z") sessions.
Proof.
  intros p sessions.
  assert (Hin : In p (fst (getProjectSummaries Reference.JSON_parse Reference.path_relative
                             Reference.CODEX_ROOT SampleProjects.fs ∅)))
    by (vm_compute; left; reflexivity).
  split; [exact Hin|].
  exact (project_totals Reference.JSON_parse Reference.path_relative Reference.CODEX_ROOT
           SampleProjects.fs ∅ p Hin).
Defined.

(** X23, on the sample files. *)
Lemma getProjectSummaries_order_witness :
  cache_coherent Reference.JSON_parse Reference.path_relative Reference.CODEX_ROOT
    SampleProjects.fs ∅
  /\ map ps_id
       (fst (getProjectSummaries Reference.JSON_parse Reference.path_relative
               Reference.CODEX_ROOT SampleProjects.fs ∅))
     = ["home-u-proj"; "home-u-other"]
  /\ Sorted latest_first
       (fst (getProjectSummaries Reference.JSON_parse Reference.path_relative
               Reference.CODEX_ROOT SampleProjects.fs ∅)).
Proof.
  assert (Hco : cache_coherent Reference.JSON_parse Reference.path_relative
                  Reference.CODEX_ROOT SampleProjects.fs ∅)
    by apply cache_coherent_empty.
  split; [exact Hco|]. split; [vm_compute; reflexivity|].
  exact (proj2 (getProjectSummaries_order Reference.JSON_parse Reference.path_relative
                  Reference.CODEX_ROOT SampleProjects.fs ∅ Hco)).
Defined.


(** X26, on a usage report whose cached tokens exceed its input tokens. *)
Lemma timeline_point_counts_witness :
  let events := [Sample.token_count (Some Sample.t1) (Sample.usage 30 80 20 0 100)] in
  exists p,
    buildTokenTimeline Reference.Date_getTime events = [p]
    /\ tp_userTokens p = Some 0%Z
    /\ tp_userTokens p = max0_sub (tp_inputTokens p) (tp_cachedTokens p)
    /\ (forall u, tp_userTokens p = Some u -> (0 <= u)%Z).
Proof.
  intros events.
  destruct (buildTokenTimeline Reference.Date_getTime events) as [|p [|]] eqn:E;
    try (vm_compute in E; discriminate E).
  exists p. split; [reflexivity|]. split.
  - vm_compute in E. injection E as <-. reflexivity.
  - destruct (timeline_point_counts Reference.Date_getTime events p) as (_ & H1 & H2 & _);
      [rewrite E; left; reflexivity|]. auto.
Defined.


(** X27, on a log with two usage reports and a call that started after
    them. *)
Lemma markers_within_chart_witness :
  let events :=
    [Sample.token_count (Some Sample.t1) (Sample.usage 80 30 20 0 100);
     Sample.token_count (Some Sample.t2) (Sample.usage 120 30 30 0 150);
     Sample.function_call (Some Sample.t3) "c1"] in
  let call :=
    {| tc_id := "c1"; tc_name := "shell"; tc_toolKind := KindFunction;
       tc_status := "in_progress"; tc_input := Some "{}"; tc_output := None;
       tc_metadata := None; tc_startedAt := Some Sample.t3; tc_completedAt := None;
       tc_durationMs := None |} in
  toolCalls (buildToolCalls Reference.JSON_parse Reference.Date_getTime events) = [call]
  /\ marker_time Reference.Date_getTime (buildTokenTimeline Reference.Date_getTime events)
       None None call = Some (Some 1735787047500%Z)
  /\ exists start finish,
       domain_of (buildTokenTimeline Reference.Date_getTime events) start finish
       /\ forall time,
            marker_time Reference.Date_getTime
              (buildTokenTimeline Reference.Date_getTime events) None None call = Some time ->
            exists t, time = Some t /\ (start <= t <= finish)%Z.
Proof.
  intros events call. split; [vm_compute; reflexivity|]. split; [vm_compute; reflexivity|].
  apply (markers_within_chart Reference.Date_getTime events None None call).
  - intros e [<-|[<-|[<-|[]]]]; vm_compute; congruence.
  - vm_compute. discriminate.
Defined.

(** X28, on a log with a session meta, two usage reports and a call after
    them. *)
Lemma summary_totals_of_last_usage_report_witness :
  let before := [Sample.session_meta (Some Sample.t1) "/home/u/proj";
                 Sample.token_count (Some Sample.t1) (Sample.usage 80 30 20 0 100)] in
  let report := Sample.token_count (Some Sample.t2) (Sample.usage 120 30 30 0 150) in
  let after := [Sample.function_call (Some Sample.t3) "c1"] in
  exists summary point,
    summarize Reference.path_relative Reference.CODEX_ROOT "abc"
      "/root/.codex/sessions/a.jsonl" (before ++ report :: after)%list = Some summary
    /\ timeline_point Reference.Date_getTime report = Some point
    /\ ss_totalTokens summary = 150%Z
    /\ ss_totalTokens summary = default 0%Z (tp_totalTokens point)
    /\ ss_userTokens summary = tp_userTokens point
    /\ ss_contextWindow summary = tp_contextWindow point.
Proof.
  intros before report after.
  assert (Htotal : option_map ss_totalTokens
                     (summarize Reference.path_relative Reference.CODEX_ROOT "abc"
                        "/root/.codex/sessions/a.jsonl" (before ++ report :: after)%list)
                   = Some 150%Z) by (vm_compute; reflexivity).
  destruct (summarize Reference.path_relative Reference.CODEX_ROOT "abc"
              "/root/.codex/sessions/a.jsonl" (before ++ report :: after)%list)
    as [summary|] eqn:E; [|discriminate Htotal].
  destruct (summary_totals_of_last_usage_report Reference.Date_getTime
              Reference.path_relative Reference.CODEX_ROOT "abc"
              "/root/.codex/sessions/a.jsonl" before after report summary)
    as (point & Hp & _ & H1 & _ & H3 & _ & _ & H6).
  - intros e [<-|[<-|[<-|[<-|[]]]]]; vm_compute; congruence.
  - reflexivity.
  - intros e [<-|[]]. reflexivity.
  - exact E.
  - exists summary, point. split; [reflexivity|]. split; [exact Hp|].
    split; [injection Htotal as Htotal; exact Htotal|]. auto.
Defined.
